(** * gantt-flow: the state and scheduling core, embedded and verified

    The development follows the layout of the sources:

    - [Types]        the entities (tasks, dependencies, actions), with the
                     fields that the sources read and write and that the
                     README declares for [Task] and [Dependency];
    - [DateUtils]    [utils.ts]: dates as the host's [Date] gives them,
                     parsing, formatting and day arithmetic;
    - [TaskUtils]    [utils.ts]: durations and [autoScheduleTasks];
    - [TaskManager]  [TaskManager.ts]: tasks, hierarchy, dependencies and
                     the cycle check, over a heap of task objects;
    - [TaskUtilsRest] [utils.ts]: [tasksOverlap] and
                     [hasCyclicDependencies];
    - [StateManager] [StateManager.ts]: dispatch, batching, undo and redo,
                     and the methods built on them.

    The second half of the file holds the facts: a module about each
    module of definitions ([StateManagerFacts], [DateFacts],
    [TaskManagerFacts], [TaskUtilsFacts]), then [CalendarFacts] (months,
    weeks and day arithmetic), [TaskEditingFacts] (editing and queries of
    the task manager), [TaskUtilsRestFacts], [HistoryFacts] (the history
    bound and the other operations of the state manager) and
    [CycleCheckFacts] (the cycle check against walks of the dependency
    graph). *)

From Stdlib Require Import ZArith String Ascii Bool Lia Arith List DecimalString.
Import ListNotations.

Set Implicit Arguments.

(* ================================================================== *)
(** * Part I: the program *)
(* ================================================================== *)

(** ** The entities *)

Module Types.

(** [TaskId = string | number].  Strict equality [===] never identifies a
    number with a string. *)
Inductive TaskId : Type :=
| IdNum (n : Z)
| IdStr (s : string).

Definition TaskId_eqb (a b : TaskId) : bool :=
  match a, b with
  | IdNum x, IdNum y => Z.eqb x y
  | IdStr x, IdStr y => String.eqb x y
  | _, _ => false
  end.

(** JavaScript truthiness of an id: [0] and [''] are falsy. *)
Definition truthyId (a : TaskId) : bool :=
  match a with
  | IdNum n => negb (Z.eqb n 0)
  | IdStr s => negb (String.eqb s "")
  end.

Inductive TaskType : Type := task | milestone | project.


Inductive DependencyType : Type :=
| finish_to_start | start_to_start | finish_to_finish | start_to_finish.

Definition DependencyType_eqb (a b : DependencyType) : bool :=
  match a, b with
  | finish_to_start, finish_to_start
  | start_to_start, start_to_start
  | finish_to_finish, finish_to_finish
  | start_to_finish, start_to_finish => true
  | _, _ => false
  end.

Inductive ViewMode : Type := day | week | month | quarter | year.

(** A task as [createTask] populates it.  [C] is the representation of the
    [children] array: addresses of task objects where the objects are shared
    and mutated in place ([TaskManager]), nested values where the data is
    plain ([StateManager], whose history is a JSON copy). *)
Record Task (C : Type) : Type := mkTask {
  id : TaskId;
  name : string;
  start : string;
  end_ : string;
  type : option TaskType;
  progress : Z;
  color : option string;
  collapsed : bool;
  draggable : bool;
  resizable : bool;
  readonly : bool;
  dependencies : list TaskId;
  dependsOn : list TaskId;
  parentId : option TaskId;
  assignees : list string;
  assignee : option string;
  children : C;
  metadata : list (string * string);
  critical : bool
}.

(** [Partial<Task>]: every property may be absent. *)
Record TaskData (C : Type) : Type := mkTaskData {
  p_id : option TaskId;
  p_name : option string;
  p_start : option string;
  p_end : option string;
  p_type : option (option TaskType);
  p_progress : option Z;
  p_color : option (option string);
  p_collapsed : option bool;
  p_draggable : option bool;
  p_resizable : option bool;
  p_readonly : option bool;
  p_dependencies : option (list TaskId);
  p_dependsOn : option (list TaskId);
  p_parentId : option (option TaskId);
  p_assignees : option (list string);
  p_assignee : option (option string);
  p_children : option C;
  p_metadata : option (list (string * string));
  p_critical : option bool
}.

Definition emptyTaskData (C : Type) : TaskData C :=
  mkTaskData None None None None None None None None None None
             None None None None None None None None None.

(** [x || d] on an optional property whose falsy values are [undefined] and
    the given test. *)
Definition orElse {A : Type} (o : option A) (d : A) : A :=
  match o with Some x => x | None => d end.

Definition joinOpt {A : Type} (o : option (option A)) : option A :=
  match o with Some x => x | None => None end.

(** The object spread [{ ...t, ...u }]. *)
Definition spread {C : Type} (t : Task C) (u : TaskData C) : Task C :=
  {| id := orElse (p_id u) (id t);
     name := orElse (p_name u) (name t);
     start := orElse (p_start u) (start t);
     end_ := orElse (p_end u) (end_ t);
     type := orElse (p_type u) (type t);
     progress := orElse (p_progress u) (progress t);
     color := orElse (p_color u) (color t);
     collapsed := orElse (p_collapsed u) (collapsed t);
     draggable := orElse (p_draggable u) (draggable t);
     resizable := orElse (p_resizable u) (resizable t);
     readonly := orElse (p_readonly u) (readonly t);
     dependencies := orElse (p_dependencies u) (dependencies t);
     dependsOn := orElse (p_dependsOn u) (dependsOn t);
     parentId := orElse (p_parentId u) (parentId t);
     assignees := orElse (p_assignees u) (assignees t);
     assignee := orElse (p_assignee u) (assignee t);
     children := orElse (p_children u) (children t);
     metadata := orElse (p_metadata u) (metadata t);
     critical := orElse (p_critical u) (critical t) |}.

Definition setDates {C : Type} (t : Task C) (newStart newEnd : string) : Task C :=
  {| id := id t; name := name t; start := newStart; end_ := newEnd;
     type := type t; progress := progress t; color := color t;
     collapsed := collapsed t; draggable := draggable t;
     resizable := resizable t; readonly := readonly t;
     dependencies := dependencies t; dependsOn := dependsOn t;
     parentId := parentId t; assignees := assignees t;
     assignee := assignee t; children := children t;
     metadata := metadata t; critical := critical t |}.

(** Plain task data: the children are nested task values. *)
#[warnings="-register-all"]
Inductive PlainTask : Type :=
| Plain (t : Task (list PlainTask)).

Definition JTask : Type := Task (list PlainTask).

Record Dependency : Type := mkDependency {
  fromId : TaskId;
  toId : TaskId;
  dtype : DependencyType;
  lag : option Z
}.

Record Resource : Type := mkResource {
  r_id : string;
  r_name : string;
  r_color : option string;
  r_capacity : option Z
}.

(** [GanttAction]: the action kinds that [_handleAction] switches on, and
    one more for any type that falls to its [default] branch. *)
Inductive GanttAction : Type :=
| ADD_TASK (payload : JTask)
| UPDATE_TASK (taskId : TaskId) (updates : TaskData (list PlainTask))
| DELETE_TASK (taskId : TaskId)
| MOVE_TASK (taskId : TaskId) (newStart newEnd : string)
| ADD_DEPENDENCY (payload : Dependency)
| DELETE_DEPENDENCY (from to : TaskId)
| CHANGE_VIEW (mode : ViewMode)
| SET_DATES (startDate endDate : string)
| SELECT_TASK (taskId : TaskId)
| DESELECT_TASK (taskId : TaskId)
| UNHANDLED (actionType : string).

(** Array helpers, in array order (index 0 first). *)

(** [findIndex]. *)
Fixpoint findIndex {A : Type} (f : A -> bool) (l : list A) : option nat :=
  match l with
  | [] => None
  | x :: r => if f x then Some 0%nat
              else match findIndex f r with
                   | Some i => Some (S i)
                   | None => None
                   end
  end.

(** [a[i] = v] for an index inside the array. *)
Fixpoint setAt {A : Type} (i : nat) (v : A) (l : list A) : list A :=
  match l, i with
  | [], _ => []
  | _ :: r, O => v :: r
  | x :: r, S j => x :: setAt j v r
  end.

(** [push]. *)
Definition push {A : Type} (l : list A) (x : A) : list A := l ++ [x].

(** [shift] drops the first element, [pop] the last one. *)
Definition shift {A : Type} (l : list A) : list A := tl l.

Definition pop {A : Type} (l : list A) : list A := removelast l.

Definition lengthZ {A : Type} (l : list A) : Z := Z.of_nat (length l).

(** Sets of ids, as JavaScript [Set]s: in insertion order, no duplicates. *)
Definition setHas (s : list TaskId) (k : TaskId) : bool :=
  existsb (TaskId_eqb k) s.

Definition setAdd (s : list TaskId) (k : TaskId) : list TaskId :=
  if setHas s k then s else s ++ [k].

Definition setDelete (s : list TaskId) (k : TaskId) : list TaskId :=
  filter (fun x => negb (TaskId_eqb x k)) s.

(** The ids of [U] not yet in the set [v]: what bounds the depth of the
    searches that mark an id visited before they go deeper. *)
Definition unvisited (U v : list TaskId) : nat :=
  length (filter (fun u => negb (setHas v u)) U).

(** [l.forEach(x => body(x))] where the body works on a state [S] and may
    fail to return (a recursion cut short); a failure ends the loop. *)
Fixpoint forEachM {A S : Type} (body : A -> S -> option S) (l : list A)
         (st : S) : option S :=
  match l with
  | [] => Some st
  | x :: r => match body x st with
              | Some st' => forEachM body r st'
              | None => None
              end
  end.

(** [for (const x of l) { if (body(x)) return true; } return false]. *)
Fixpoint someM {A S : Type} (body : A -> S -> option (bool * S)) (l : list A)
         (st : S) : option (bool * S) :=
  match l with
  | [] => Some (false, st)
  | x :: r => match body x st with
              | Some (true, st') => Some (true, st')
              | Some (false, st') => someM body r st'
              | None => None
              end
  end.

End Types.

(** ** [utils.ts]: [DateUtils] *)

Module DateUtils.
Import Types.

Local Open Scope Z_scope.

(** A JavaScript number that is an integer, or [NaN] ([None]). *)
Definition Number : Type := option Z.

(** A [Date] object: its time value, milliseconds since the epoch in UTC,
    or [None] for an Invalid Date.  Time values are unbounded integers
    here (ECMAScript clips them at 8.64e15 ms either side of the epoch). *)
Definition Date : Type := option Z.

(** An argument of type [string | Date]. *)
Inductive DateInput : Type :=
| Str (s : string)
| Obj (d : Date).

Definition msPerDay : Z := 86400000.

(** The proleptic Gregorian calendar on day numbers (day 0 is 1970-01-01);
    months count from 1 here. *)
Definition civil_of_doe (doe : Z) : Z * Z * Z :=
  let yoe := (doe - doe / 1460 + doe / 36524 - doe / 146096) / 365 in
  let doy := doe - (365 * yoe + yoe / 4 - yoe / 100) in
  let mp := (5 * doy + 2) / 153 in
  let d := doy - (153 * mp + 2) / 5 + 1 in
  let m := if mp <? 10 then mp + 3 else mp - 9 in
  (yoe, m, d).

Definition doe_of_civil (yoe m d : Z) : Z :=
  let doy := (153 * (if 2 <? m then m - 3 else m + 9) + 2) / 5 + d - 1 in
  yoe * 365 + yoe / 4 - yoe / 100 + doy.

Definition civil_from_days (z : Z) : Z * Z * Z :=
  let era := (z + 719468) / 146097 in
  let doe := (z + 719468) mod 146097 in
  let '(yoe, m, d) := civil_of_doe doe in
  (yoe + era * 400 + (if m <=? 2 then 1 else 0), m, d).

Definition days_from_civil (y m d : Z) : Z :=
  let y := if m <=? 2 then y - 1 else y in
  let era := y / 400 in
  let yoe := y - era * 400 in
  era * 146097 + doe_of_civil yoe m d - 719468.

(** The check that the two conversions agree on one day of the 400-year
    cycle, run over the whole cycle in the proofs. *)
Definition cycleDayOk (doe : Z) : bool :=
  let '(yoe, m, d) := civil_of_doe doe in
  (0 <=? yoe) && (yoe <=? 399) && (1 <=? m) && (m <=? 12)
  && (1 <=? d) && (d <=? 31) && (doe_of_civil yoe m d =? doe).

(** [f] holds of the [n] integers from [z] on. *)
Fixpoint allFrom (f : Z -> bool) (n : nat) (z : Z) : bool :=
  match n with
  | O => true
  | S k => f z && allFrom f k (z + 1)
  end.

(** ECMAScript [MakeDay(year, month, date)], the month counted from 0. *)
Definition MakeDay (year month date : Z) : Z :=
  days_from_civil (year + month / 12) (month mod 12 + 1) 1 + date - 1.

(** [Date.UTC] and the [Date] constructor read a year from 0 to 99 as
    1900 + year. *)
Definition fullYear (y : Z) : Z :=
  if (0 <=? y) && (y <=? 99) then 1900 + y else y.

(** What the program takes from its host: the text parser behind
    [new Date(string)] (the formats it accepts beyond ISO 8601 depend on
    the engine), the offset of local time from UTC in milliseconds (one
    fixed offset: no daylight saving), and the clock read by [new Date()]
    (one instant for the whole of a call). *)
Class Host : Type := {
  Date_parse : string -> option Z;
  LocalTZA : Z;
  Date_now : Z;
  LocalTZA_range : - msPerDay < LocalTZA < msPerDay
}.

Section WithHost.
Context {H : Host}.

Definition localDay (t : Z) : Z := (t + LocalTZA) / msPerDay.

Definition getTime (d : Date) : Number := d.

Definition getFullYear (d : Date) : Number :=
  option_map (fun t => let '(y, _, _) := civil_from_days (localDay t) in y) d.

Definition getMonth (d : Date) : Number :=
  option_map (fun t => let '(_, m, _) := civil_from_days (localDay t) in m - 1) d.

Definition getDate (d : Date) : Number :=
  option_map (fun t => let '(_, _, dd) := civil_from_days (localDay t) in dd) d.

Definition Date_UTC (y m d : Number) : Number :=
  match y, m, d with
  | Some y, Some m, Some d => Some (MakeDay (fullYear y) m d * msPerDay)
  | _, _, _ => None
  end.

(** [new Date(year, month, date)], in local time. *)
Definition newDateLocal (y m d : Number) : Date :=
  match y, m, d with
  | Some y, Some m, Some d =>
      Some (MakeDay (fullYear y) m d * msPerDay - LocalTZA)
  | _, _, _ => None
  end.

(** [date.setDate(dt)], giving the updated date. *)
Definition setDate (d : Date) (dt : Number) : Date :=
  match d, dt with
  | Some t, Some n =>
      let lt := t + LocalTZA in
      let '(y, m, _) := civil_from_days (lt / msPerDay) in
      Some (MakeDay y (m - 1) n * msPerDay + lt mod msPerDay - LocalTZA)
  | _, _ => None
  end.

Definition numAdd (a b : Number) : Number :=
  match a, b with
  | Some x, Some y => Some (x + y)
  | _, _ => None
  end.

Definition numSub (a b : Number) : Number :=
  match a, b with
  | Some x, Some y => Some (x - y)
  | _, _ => None
  end.

(** [a > b]; a comparison with [NaN] is false. *)
Definition numGt (a b : Number) : bool :=
  match a, b with
  | Some x, Some y => y <? x
  | _, _ => false
  end.

Definition numLt (a b : Number) : bool := numGt b a.

(** [n.toString()]. *)
Definition numToString (n : Number) : string :=
  match n with
  | Some z => DecimalString.NilZero.string_of_int (Z.to_int z)
  | None => "NaN"
  end.

(** [parseInt(s, 10)]: leading white space, a sign, then the longest run
    of decimal digits; [NaN] when there is none. *)
Definition isWhite (c : ascii) : bool :=
  let n := nat_of_ascii c in
  ((9 <=? n) && (n <=? 13))%nat || (n =? 32)%nat.

Definition digitOf (c : ascii) : option Z :=
  let n := nat_of_ascii c in
  if ((48 <=? n) && (n <=? 57))%nat then Some (Z.of_nat n - 48) else None.

Fixpoint skipWhite (s : string) : string :=
  match s with
  | String c r => if isWhite c then skipWhite r else s
  | EmptyString => s
  end.

Fixpoint readDigits (s : string) (acc : Number) : Number :=
  match s with
  | String c r =>
      match digitOf c with
      | Some v => readDigits r (Some (10 * match acc with Some a => a | None => 0 end + v))
      | None => acc
      end
  | EmptyString => acc
  end.

Definition parseInt (s : string) : Number :=
  match skipWhite s with
  | String "-" r => option_map Z.opp (readDigits r None)
  | String "+" r => readDigits r None
  | r => readDigits r None
  end.

(** [s.split(sep)] for a separator of one character. *)
Fixpoint splitFrom (sep : ascii) (s : string) (cur : string) : list string :=
  match s with
  | EmptyString => [cur]
  | String c r =>
      if Ascii.eqb c sep then cur :: splitFrom sep r ""
      else splitFrom sep r (cur ++ String c "")
  end.

Definition split (s : string) (sep : ascii) : list string := splitFrom sep s "".

(** [new Date()] and [new Date(string)]. *)
Definition newDate : Date := Some Date_now.

Definition newDateString (s : string) : Date := Date_parse s.

(** [DateUtils.parseDate]. *)
Definition parseDate (dateStr : DateInput) : Date :=
  match dateStr with
  | Obj d => d
  | Str s =>
      if String.eqb s "" then newDate
      else
        match newDateString s with
        | Some t => Some t
        | None =>
            match split s "-" with
            | [p0; p1; p2] =>
                newDateLocal (parseInt p0) (numSub (parseInt p1) (Some 1))
                             (parseInt p2)
            | _ => newDate
            end
        end
  end.

(** [DateUtils.format] with its default pattern ['YYYY-MM-DD'], the only
    one the core uses.  Each [replace] rewrites the first occurrence of its
    pattern; the texts put in (digits, a sign, or [NaN]) never contain a
    later pattern. *)
Definition pad2 (n : Number) : string :=
  if numLt n (Some 10) then "0" ++ numToString n else numToString n.

Definition format (date : Date) : string :=
  let year := getFullYear date in
  let month := numAdd (getMonth date) (Some 1) in
  let day := getDate date in
  numToString year ++ "-" ++ pad2 month ++ "-" ++ pad2 day.

Definition toDate (d : DateInput) : Date :=
  match d with
  | Obj x => x
  | Str _ => parseDate d
  end.

(** [DateUtils.daysBetween]. *)
Definition daysBetween (startDate endDate : DateInput) : Number :=
  let start := toDate startDate in
  let end_ := toDate endDate in
  let startUtc := Date_UTC (getFullYear start) (getMonth start) (getDate start) in
  let endUtc := Date_UTC (getFullYear end_) (getMonth end_) (getDate end_) in
  option_map (fun x => x / msPerDay) (numSub endUtc startUtc).

(** [DateUtils.addDays]. *)
Definition addDays (date : DateInput) (days : Number) : Date :=
  let result : Date := getTime (parseDate date) in
  setDate result (numAdd (getDate result) days).

End WithHost.

(** A host in the UTC time zone whose parser reads the ISO date-only form
    [YYYY-MM-DD] (UTC midnight of that day, as ECMAScript lays down) and
    nothing else; its clock shows 2024-06-15T12:00:00Z. *)
Definition parseIsoDateOnly (s : string) : option Z :=
  match s with
  | String y1 (String y2 (String y3 (String y4 (String "-"
      (String m1 (String m2 (String "-" (String d1 (String d2 EmptyString))))))))) =>
      match digitOf y1, digitOf y2, digitOf y3, digitOf y4,
            digitOf m1, digitOf m2, digitOf d1, digitOf d2 with
      | Some a, Some b, Some c, Some d, Some e, Some f, Some g, Some h =>
          let y := 1000 * a + 100 * b + 10 * c + d in
          let m := 10 * e + f in
          let dd := 10 * g + h in
          if (1 <=? m) && (m <=? 12) && (1 <=? dd) && (dd <=? 31)
          then Some (days_from_civil y m dd * msPerDay)
          else None
      | _, _, _, _, _, _, _, _ => None
      end
  | _ => None
  end.

Definition utc_offset_in_range : - msPerDay < 0 < msPerDay :=
  conj eq_refl eq_refl.

Definition isoUTC : Host :=
  {| Date_parse := parseIsoDateOnly;
     LocalTZA := 0;
     Date_now := 1718452800000;
     LocalTZA_range := utc_offset_in_range |}.







(** The text that [format] writes for local day [z]. *)
Definition dateText (z : Z) : string :=
  let '(y, m, d) := civil_from_days z in
  (numToString (Some y) ++ "-" ++ pad2 (Some m) ++ "-" ++ pad2 (Some d))%string.

(** The rest of [DateUtils]. *)
Section MonthsAndWeeks.
Context {H : Host}.










End MonthsAndWeeks.

End DateUtils.

(** ** [utils.ts]: [TaskUtils] *)

Module TaskUtils.
Import Types DateUtils.

Section WithHost.
Context {H : Host}.
Variable C : Type.

(** [TaskUtils.calculateDuration]. *)
Definition calculateDuration (t : Task C) : Number :=
  daysBetween (Obj (parseDate (Str (start t)))) (Obj (parseDate (Str (end_ t)))).

(** A [Map<TaskId, Task>]: keys in insertion order, one entry a key. *)
Definition TaskMap : Type := list (TaskId * Task C).

Fixpoint mapGet (m : TaskMap) (k : TaskId) : option (Task C) :=
  match m with
  | [] => None
  | (k', v) :: r => if TaskId_eqb k' k then Some v else mapGet r k
  end.

Fixpoint mapSet (m : TaskMap) (k : TaskId) (v : Task C) : TaskMap :=
  match m with
  | [] => [(k, v)]
  | (k', v') :: r =>
      if TaskId_eqb k' k then (k', v) :: r else (k', v') :: mapSet r k v
  end.

Definition incoming (dependencies : list Dependency) (taskId : TaskId)
  : list Dependency :=
  filter (fun dep => TaskId_eqb (toId dep) taskId) dependencies.

(** The recursive [visit] of the topological sort.  Its state is the
    [visited] set and the [result] array; the tasks pushed on [result] are
    the objects held by [taskMap], so [result] is kept as the list of their
    keys.  [fuel] bounds the depth of the recursion. *)
Fixpoint visit (fuel : nat) (dependencies : list Dependency) (taskMap : TaskMap)
         (taskId : TaskId) (st : list TaskId * list TaskId)
  : option (list TaskId * list TaskId) :=
  match fuel with
  | O => None
  | S f =>
      if setHas (fst st) taskId then Some st
      else
        match forEachM (fun dep => visit f dependencies taskMap (fromId dep))
                       (incoming dependencies taskId)
                       (setAdd (fst st) taskId, snd st) with
        | Some (visited, result) =>
            match mapGet taskMap taskId with
            | Some _ => Some (visited, push result taskId)
            | None => Some (visited, result)
            end
        | None => None
        end
  end.

(** [tasksCopy.forEach(task => { if (!visited.has(task.id)) visit(task.id) })]. *)
Definition visitAll (fuel : nat) (dependencies : list Dependency)
           (taskMap : TaskMap) (tasksCopy : list (Task C))
           (st : list TaskId * list TaskId)
  : option (list TaskId * list TaskId) :=
  forEachM (fun t st => if setHas (fst st) (id t) then Some st
                        else visit fuel dependencies taskMap (id t) st)
           tasksCopy st.

(** The latest end among the predecessors found in [taskMap], starting
    from [new Date(0)]. *)
Definition maxEndDate (taskMap : TaskMap) (incomingDeps : list Dependency)
  : Date :=
  fold_left
    (fun maxEnd dep =>
       match mapGet taskMap (fromId dep) with
       | Some predecessor =>
           let endDate := parseDate (Str (end_ predecessor)) in
           if numGt (getTime endDate) (getTime maxEnd) then endDate else maxEnd
       | None => maxEnd
       end)
    incomingDeps (Some 0%Z).

(** The body of [result.forEach(task => ...)], for the task object held
    under [key]; assigning to the object updates it in [taskMap]. *)
Definition reschedule (dependencies : list Dependency) (taskMap : TaskMap)
           (key : TaskId) : TaskMap :=
  match mapGet taskMap key with
  | None => taskMap
  | Some t =>
      let incomingDeps := incoming dependencies (id t) in
      if (0 <? length incomingDeps)%nat then
        let maxEnd := maxEndDate taskMap incomingDeps in
        if numGt (getTime maxEnd) (Some 0%Z) then
          let newStartDate := addDays (Obj maxEnd) (Some 1%Z) in
          let duration := calculateDuration t in
          let newEndDate := addDays (Obj newStartDate) duration in
          mapSet taskMap key (setDates t (format newStartDate) (format newEndDate))
        else taskMap
      else taskMap
  end.

Definition buildTaskMap (tasksCopy : list (Task C)) : TaskMap :=
  fold_left (fun m t => mapSet m (id t) t) tasksCopy [].

Fixpoint collect (taskMap : TaskMap) (result : list TaskId) : list (Task C) :=
  match result with
  | [] => []
  | k :: r => match mapGet taskMap k with
              | Some t => t :: collect taskMap r
              | None => collect taskMap r
              end
  end.

(** The order in which the tasks are rescheduled. *)
Definition scheduleOrder (fuel : nat) (tasks : list (Task C))
           (dependencies : list Dependency) : option (list TaskId) :=
  option_map snd
    (visitAll fuel dependencies (buildTaskMap tasks) tasks ([], [])).

(** [TaskUtils.autoScheduleTasks], with the depth of [visit] bounded by
    [fuel].  (The call of [hasCyclicDependencies] only decides whether a
    warning is logged.) *)
Definition autoScheduleTasksFuel (fuel : nat) (tasks : list (Task C))
           (dependencies : list Dependency) : option (list (Task C)) :=
  let taskMap := buildTaskMap tasks in
  match scheduleOrder fuel tasks dependencies with
  | Some result =>
      Some (collect (fold_left (reschedule dependencies) result taskMap) result)
  | None => None
  end.

(** [visit] goes no deeper than there are task ids and dependencies. *)
Definition enoughFuel (tasks : list (Task C)) (dependencies : list Dependency)
  : nat :=
  S (length tasks + length dependencies).

Definition autoScheduleTasks (tasks : list (Task C))
           (dependencies : list Dependency) : option (list (Task C)) :=
  autoScheduleTasksFuel (enoughFuel tasks dependencies) tasks dependencies.

(** [taskMap.has(k)]. *)
Definition mapHas (m : TaskMap) (k : TaskId) : Prop := mapGet m k <> None.

(** Every object is filed under its own id. *)
Definition keyedById (m : TaskMap) : Prop :=
  forall k t, mapGet m k = Some t -> id t = k.

(** [y] has been pushed on [res] if [taskMap] holds a task for it. *)
Definition finished (m : TaskMap) (y : TaskId) (res : list TaskId) : Prop :=
  mapHas m y -> In y res.










End WithHost.

(** The scenario of the specification. *)
Definition scenarioTask (i : Z) (s e : string) : Task (list TaskId) :=
  mkTask (IdNum i) "T" s e (Some task) 0 None false true true false
         [] [] None [] None [] [] false.

Definition scenarioTasks : list (Task (list TaskId)) :=
  [scenarioTask 1 "2024-01-01" "2024-01-05";
   scenarioTask 2 "2024-01-03" "2024-01-08"].

Definition scenarioDependencies : list Dependency :=
  [mkDependency (IdNum 1) (IdNum 2) finish_to_start None].

(** The two tasks of the scenario, each made to depend on the other. *)
Definition cyclicDependencies : list Dependency :=
  [mkDependency (IdNum 1) (IdNum 2) finish_to_start None;
   mkDependency (IdNum 2) (IdNum 1) finish_to_start None].

(** A host five hours west of UTC. *)
Definition west_offset_in_range : (- msPerDay < -18000000 < msPerDay)%Z :=
  conj eq_refl eq_refl.

Definition isoWest : Host :=
  {| Date_parse := parseIsoDateOnly;
     LocalTZA := (-18000000)%Z;
     Date_now := 1718452800000%Z;
     LocalTZA_range := west_offset_in_range |}.

End TaskUtils.

(** ** [TaskManager.ts] *)

Module TaskManager.
Import Types DateUtils.

(** Task objects are shared: the [children] array of a parent holds the
    very objects of the task list, and [_updateTaskDependencies] and
    [_updateParentTaskChildren] write into them.  Objects therefore live in
    a heap, addressed by the order of their creation, and arrays of tasks
    are lists of addresses. *)
Abbreviation addr := nat (only parsing).
Abbreviation TaskObj := (Task (list addr)) (only parsing).

Record TaskManagerOptions : Type := mkOptions {
  autoCalculateDuration : bool;
  autoCalculateProgress : bool;
  checkCircularDependencies_opt : bool;
  defaultTaskType : TaskType;
  defaultTaskColor : string;
  defaultMilestoneColor : string;
  defaultProjectColor : string
}.

(** The options a caller may pass to the constructor. *)
Record OptionsData : Type := mkOptionsData {
  o_autoCalculateDuration : option bool;
  o_autoCalculateProgress : option bool;
  o_checkCircularDependencies : option bool;
  o_defaultTaskType : option TaskType;
  o_defaultTaskColor : option string;
  o_defaultMilestoneColor : option string;
  o_defaultProjectColor : option string
}.

Definition noOptions : OptionsData :=
  mkOptionsData None None None None None None None.

(** A dependency object is never written to after its creation, so the
    array of dependencies is kept as the list of its objects' addresses
    paired with their values; [nextDep] is the next free address. *)
Record TaskManager : Type := mkTaskManager {
  heap : list TaskObj;
  tasks : list addr;
  dependencies : list (addr * Dependency);
  nextDep : addr;
  options : TaskManagerOptions;
  nextId : Z
}.

(** The constructor: defaults, overridden by the options given. *)
Definition newTaskManager (o : OptionsData) : TaskManager :=
  mkTaskManager [] [] [] 0
    (mkOptions (orElse (o_autoCalculateDuration o) true)
               (orElse (o_autoCalculateProgress o) false)
               (orElse (o_checkCircularDependencies o) true)
               (orElse (o_defaultTaskType o) task)
               (orElse (o_defaultTaskColor o) "#4e85c5"%string)
               (orElse (o_defaultMilestoneColor o) "#722ed1"%string)
               (orElse (o_defaultProjectColor o) "#fa8c16"%string))
    1.

Definition deref (h : list TaskObj) (a : addr) : option TaskObj := nth_error h a.

(** The objects of an array of tasks, with their addresses. *)
Fixpoint objects (h : list TaskObj) (l : list addr) : list (addr * TaskObj) :=
  match l with
  | [] => []
  | a :: r => match deref h a with
              | Some t => (a, t) :: objects h r
              | None => objects h r
              end
  end.

Definition taskObjects (tm : TaskManager) : list (addr * TaskObj) :=
  objects (heap tm) (tasks tm).

Definition taskIds (tm : TaskManager) : list TaskId :=
  map (fun o => id (snd o)) (taskObjects tm).

(** [getTasks()] and [getDependencies()]. *)
Definition getTasks (tm : TaskManager) : list TaskObj :=
  map snd (taskObjects tm).

Definition getDependencies (tm : TaskManager) : list Dependency :=
  map snd (dependencies tm).

(** [this.tasks.find(t => t.id === x)]. *)
Definition findTask (tm : TaskManager) (x : TaskId) : option (addr * TaskObj) :=
  find (fun o => TaskId_eqb (id (snd o)) x) (taskObjects tm).

Definition optId_eqb (a : option TaskId) (b : TaskId) : bool :=
  match a with
  | Some x => TaskId_eqb x b
  | None => false
  end.

Definition setHeap (tm : TaskManager) (h : list TaskObj) : TaskManager :=
  mkTaskManager h (tasks tm) (dependencies tm) (nextDep tm) (options tm)
                (nextId tm).

Definition withChildren (t : TaskObj) (c : list addr) : TaskObj :=
  mkTask (id t) (name t) (start t) (end_ t) (type t) (progress t) (color t)
         (collapsed t) (draggable t) (resizable t) (readonly t)
         (Types.dependencies t) (dependsOn t) (parentId t) (assignees t)
         (assignee t) c (metadata t) (critical t).

Definition withLinks (t : TaskObj) (ds dso : list TaskId) : TaskObj :=
  mkTask (id t) (name t) (start t) (end_ t) (type t) (progress t) (color t)
         (collapsed t) (draggable t) (resizable t) (readonly t)
         ds dso (parentId t) (assignees t)
         (assignee t) (children t) (metadata t) (critical t).

(** [_updateParentTaskChildren]. *)
Definition _updateParentTaskChildren (tm : TaskManager) (parent : TaskId)
  : TaskManager :=
  match findTask tm parent with
  | None => tm
  | Some (a, parentTask) =>
      let children :=
        map fst (filter (fun o => optId_eqb (parentId (snd o)) parent)
                        (taskObjects tm)) in
      setHeap tm (setAt a (withChildren parentTask children) (heap tm))
  end.

(** [_generateId]: the [while] loop steps [nextId] past the ids in use.
    It leaves the loop within as many steps as there are tasks, which is
    what [fuel] provides for. *)
Fixpoint generateIdFrom (fuel : nat) (ids : list TaskId) (n : Z) : Z :=
  match fuel with
  | O => n
  | S f => if existsb (TaskId_eqb (IdNum n)) ids
           then generateIdFrom f ids (n + 1)
           else n
  end.

Definition _generateId (tm : TaskManager) : Z :=
  generateIdFrom (S (length (tasks tm))) (taskIds tm) (nextId tm).

Definition setNextId (tm : TaskManager) (n : Z) : TaskManager :=
  mkTaskManager (heap tm) (tasks tm) (dependencies tm) (nextDep tm)
                (options tm) n.

Definition idToString (x : TaskId) : string :=
  match x with
  | IdNum n => numToString (Some n)
  | IdStr s => s
  end.

(** An optional property that is present and truthy. *)
Definition truthyIdOpt (o : option TaskId) : option TaskId :=
  match o with
  | Some x => if truthyId x then Some x else None
  | None => None
  end.

Definition truthyStr (o : option string) : option string :=
  match o with
  | Some s => if String.eqb s "" then None else Some s
  | None => None
  end.

Section WithHost.
Context {H : Host}.

(** The object literal of [createTask]. *)
Definition newTaskObject (opts : TaskManagerOptions) (newId : TaskId)
           (taskData : TaskData (list addr)) : TaskObj :=
  let start :=
    match truthyStr (p_start taskData) with
    | Some s => parseDate (Str s)
    | None => newDate
    end in
  let end_ :=
    match truthyStr (p_end taskData) with
    | Some s => parseDate (Str s)
    | None => addDays (Obj start) (Some 1%Z)
    end in
  let color :=
    match truthyStr (joinOpt (p_color taskData)) with
    | Some c => Some c
    | None =>
        match joinOpt (p_type taskData) with
        | Some milestone => Some (defaultMilestoneColor opts)
        | Some project => Some (defaultProjectColor opts)
        | _ => Some (defaultTaskColor opts)
        end
    end in
  {| id := newId;
     name := orElse (truthyStr (p_name taskData))
                    ("任务 " ++ idToString newId)%string;
     start := format start;
     end_ := format end_;
     type := Some (orElse (joinOpt (p_type taskData)) (defaultTaskType opts));
     progress := orElse (p_progress taskData) 0%Z;
     color := color;
     collapsed := orElse (p_collapsed taskData) false;
     draggable := orElse (p_draggable taskData) true;
     resizable := orElse (p_resizable taskData) true;
     readonly := orElse (p_readonly taskData) false;
     Types.dependencies := orElse (p_dependencies taskData) [];
     dependsOn := orElse (p_dependsOn taskData) [];
     parentId := joinOpt (p_parentId taskData);
     assignees := orElse (p_assignees taskData) [];
     assignee := joinOpt (p_assignee taskData);
     children := orElse (p_children taskData) [];
     metadata := orElse (p_metadata taskData) [];
     critical := orElse (p_critical taskData) false |}.

(** [this.tasks.push(newTask)]: the new object takes the next address. *)
Definition pushTask (tm : TaskManager) (t : TaskObj) : TaskManager :=
  mkTaskManager (heap tm ++ [t]) (push (tasks tm) (length (heap tm)))
                (dependencies tm) (nextDep tm) (options tm) (nextId tm).

(** The id for the new task: [taskData.id || this._generateId()]. *)
Definition chooseId (tm : TaskManager) (taskData : TaskData (list addr))
  : TaskId * TaskManager :=
  match truthyIdOpt (p_id taskData) with
  | Some x => (x, tm)
  | None => let n := _generateId tm in (IdNum n, setNextId tm n)
  end.

(** [createTask].  None of its statements, nor any in [parseDate],
    [format] and [addDays], throws; it returns the created object (here
    with its address) and leaves the manager updated. *)
Definition createTask (tm : TaskManager) (taskData : TaskData (list addr))
  : (addr * TaskObj) * TaskManager :=
  let newTask :=
    newTaskObject (options tm) (fst (chooseId tm taskData)) taskData in
  let tm2 := pushTask (snd (chooseId tm taskData)) newTask in
  ((length (heap tm), newTask),
   match truthyIdOpt (parentId newTask) with
   | Some p => _updateParentTaskChildren tm2 p
   | None => tm2
   end).

(** A run of [createTask] calls. *)
Definition createTasks (tm : TaskManager) (calls : list (TaskData (list addr)))
  : TaskManager :=
  fold_left (fun m d => snd (createTask m d)) calls tm.

(** Whether no call of the run names an id that is in use by then. *)
Fixpoint explicitIdsFresh (tm : TaskManager)
         (calls : list (TaskData (list addr))) : bool :=
  match calls with
  | [] => true
  | d :: r =>
      match truthyIdOpt (p_id d) with
      | Some x => negb (existsb (TaskId_eqb x) (taskIds tm))
      | None => true
      end && explicitIdsFresh (snd (createTask tm d)) r
  end.

End WithHost.

(** The recursive [collectTasksToDelete] of [deleteTask]; [fuel] bounds
    the depth of the recursion, which has no bound of its own. *)
Fixpoint collectTasksToDelete (fuel : nat) (objs : list TaskObj)
         (x : TaskId) (tasksToDelete : list TaskId) : option (list TaskId) :=
  match fuel with
  | O => None
  | S f =>
      forEachM (fun child => collectTasksToDelete f objs (id child))
               (filter (fun t => optId_eqb (parentId t) x) objs)
               (setAdd tasksToDelete x)
  end.

(** [deleteTask]: [None] when the recursion goes deeper than [fuel]. *)
Definition deleteTaskFuel (fuel : nat) (tm : TaskManager) (taskId : TaskId)
  : option (bool * TaskManager) :=
  match findTask tm taskId with
  | None => Some (false, tm)
  | Some (_, t) =>
      match collectTasksToDelete fuel (getTasks tm) taskId [] with
      | None => None
      | Some tasksToDelete =>
          let parent := parentId t in
          let deps :=
            filter (fun d => negb (setHas tasksToDelete (fromId (snd d)))
                             && negb (setHas tasksToDelete (toId (snd d))))
                   (dependencies tm) in
          let ts :=
            map fst (filter (fun o => negb (setHas tasksToDelete (id (snd o))))
                            (taskObjects tm)) in
          let tm1 := mkTaskManager (heap tm) ts deps (nextDep tm) (options tm)
                                   (nextId tm) in
          let tm2 :=
            match truthyIdOpt parent with
            | Some p => if setHas tasksToDelete p then tm1
                        else _updateParentTaskChildren tm1 p
            | None => tm1
            end in
          Some (true, tm2)
      end
  end.

(** A recursion that ends visits no id twice on one path, so it is no
    deeper than the number of tasks. *)
Definition deleteTask (tm : TaskManager) (taskId : TaskId)
  : option (bool * TaskManager) :=
  deleteTaskFuel (S (length (tasks tm))) tm taskId.

(** [_updateTaskDependencies]. *)
Definition clearLinks (h : list TaskObj) (l : list addr) : list TaskObj :=
  fold_left (fun h a => match deref h a with
                        | Some t => setAt a (withLinks t [] []) h
                        | None => h
                        end) l h.

Definition findIn (h : list TaskObj) (l : list addr) (x : TaskId)
  : option (addr * TaskObj) :=
  find (fun o => TaskId_eqb (id (snd o)) x) (objects h l).

Definition linkOne (l : list addr) (h : list TaskObj) (dep : Dependency)
  : list TaskObj :=
  let h1 :=
    match findIn h l (fromId dep) with
    | Some (a, fromTask) =>
        setAt a (withLinks fromTask
                           (push (Types.dependencies fromTask) (toId dep))
                           (dependsOn fromTask)) h
    | None => h
    end in
  match findIn h1 l (toId dep) with
  | Some (a, toTask) =>
      setAt a (withLinks toTask (Types.dependencies toTask)
                         (push (dependsOn toTask) (fromId dep))) h1
  | None => h1
  end.

Definition _updateTaskDependencies (tm : TaskManager) : TaskManager :=
  setHeap tm (fold_left (linkOne (tasks tm)) (getDependencies tm)
                        (clearLinks (heap tm) (tasks tm))).

(** The adjacency [Map<TaskId, TaskId[]>] of [checkCircularDependencies]. *)
Definition Graph : Type := list (TaskId * list TaskId).

Fixpoint graphAdd (g : Graph) (from to : TaskId) : Graph :=
  match g with
  | [] => [(from, [to])]
  | (k, l) :: r =>
      if TaskId_eqb k from then (k, push l to) :: r
      else (k, l) :: graphAdd r from to
  end.

Definition buildGraph (deps : list Dependency) : Graph :=
  fold_left (fun g dep => graphAdd g (fromId dep) (toId dep)) deps [].

Fixpoint graphGet (g : Graph) (k : TaskId) : list TaskId :=
  match g with
  | [] => []
  | (k', l) :: r => if TaskId_eqb k' k then l else graphGet r k
  end.

(** The recursive [hasCycle]; its state is the pair of the [visited] set
    and the [recursionStack]. *)
Fixpoint hasCycle (fuel : nat) (graph : Graph) (taskId : TaskId)
         (st : list TaskId * list TaskId)
  : option (bool * (list TaskId * list TaskId)) :=
  match fuel with
  | O => None
  | S f =>
      if setHas (snd st) taskId then Some (true, st)
      else if setHas (fst st) taskId then Some (false, st)
      else
        match someM (hasCycle f graph) (graphGet graph taskId)
                    (setAdd (fst st) taskId, setAdd (snd st) taskId) with
        | Some (true, st') => Some (true, st')
        | Some (false, (visited, stack)) =>
            Some (false, (visited, setDelete stack taskId))
        | None => None
        end
  end.

(** [for (const task of this.tasks) if (hasCycle(task.id)) return true]. *)
Definition checkFrom (fuel : nat) (graph : Graph) (ids : list TaskId)
           (st : list TaskId * list TaskId) : option bool :=
  option_map fst (someM (hasCycle fuel graph) ids st).

(** The cycle check on the ids of the tasks and the dependencies.  Every
    call that goes one level deeper has first marked a new id visited, so
    the depth stays within the number of ids in sight. *)
Definition checkGraph (ids : list TaskId) (deps : list Dependency)
  : option bool :=
  checkFrom (S (length ids + length deps)) (buildGraph deps) ids ([], []).

(** [checkCircularDependencies]. *)
Definition checkCircularDependencies (tm : TaskManager) : option bool :=
  checkGraph (taskIds tm) (getDependencies tm).

(** [createDependency]; the result is the dependency object returned (its
    address and value), or [None] for [null]. *)
Definition createDependency (tm : TaskManager) (from to : TaskId)
           (ty : DependencyType) (lag : Z)
  : option (option (addr * Dependency) * TaskManager) :=
  match findTask tm from, findTask tm to with
  | Some _, Some _ =>
      match find (fun d => TaskId_eqb (fromId (snd d)) from
                           && TaskId_eqb (toId (snd d)) to
                           && DependencyType_eqb (dtype (snd d)) ty)
                 (dependencies tm) with
      | Some existingDependency => Some (Some existingDependency, tm)
      | None =>
          let dependency := (nextDep tm, mkDependency from to ty (Some lag)) in
          let tm1 :=
            _updateTaskDependencies
              (mkTaskManager (heap tm) (tasks tm)
                             (push (dependencies tm) dependency)
                             (S (nextDep tm)) (options tm) (nextId tm)) in
          if checkCircularDependencies_opt (options tm) then
            match checkCircularDependencies tm1 with
            | Some true =>
                Some (None,
                      _updateTaskDependencies
                        (mkTaskManager (heap tm1) (tasks tm1)
                                       (pop (dependencies tm1))
                                       (nextDep tm1) (options tm1) (nextId tm1)))
            | Some false => Some (Some dependency, tm1)
            | None => None
            end
          else Some (Some dependency, tm1)
      end
  | _, _ => Some (None, tm)
  end.

(** A call of [createDependency], with the default type and lag when they
    are left out. *)
Record DependencyCall : Type := mkCall {
  c_from : TaskId;
  c_to : TaskId;
  c_type : option DependencyType;
  c_lag : option Z
}.

Definition callCreateDependency (tm : TaskManager) (c : DependencyCall)
  : option (option (addr * Dependency) * TaskManager) :=
  createDependency tm (c_from c) (c_to c) (orElse (c_type c) finish_to_start)
                   (orElse (c_lag c) 0%Z).

(** A run of [createDependency] calls: the values returned and the final
    manager. *)
Fixpoint createDependencies (tm : TaskManager) (calls : list DependencyCall)
  : option (list (option (addr * Dependency)) * TaskManager) :=
  match calls with
  | [] => Some ([], tm)
  | c :: r =>
      match callCreateDependency tm c with
      | Some (res, tm1) =>
          match createDependencies tm1 r with
          | Some (rs, tm2) => Some (res :: rs, tm2)
          | None => None
          end
      | None => None
      end
  end.

(** [getDescendantTasks]: the walk down the [children] arrays. *)
Fixpoint collectDescendants (fuel : nat) (h : list TaskObj)
         (currentTask : TaskObj) (descendants : list addr)
  : option (list addr) :=
  match fuel with
  | O => None
  | S f =>
      forEachM (fun child acc =>
                  match deref h child with
                  | Some c => collectDescendants f h c (push acc child)
                  | None => Some (push acc child)
                  end)
               (children currentTask) descendants
  end.

Definition getDescendantTasksFuel (fuel : nat) (tm : TaskManager)
           (taskId : TaskId) : option (list addr) :=
  match findTask tm taskId with
  | None => Some []
  | Some (_, t) => collectDescendants fuel (heap tm) t []
  end.

(** A walk that ends meets no object twice on one path. *)
Definition getDescendantTasks (tm : TaskManager) (taskId : TaskId)
  : option (list addr) :=
  getDescendantTasksFuel (S (length (heap tm))) tm taskId.

(** [Math.round(total / count)] for a positive [count]: the nearest
    integer, a half rounded up. *)
Definition roundDiv (total count : Z) : Z :=
  ((2 * total + count) / (2 * count))%Z.

Definition sumProgress (h : list TaskObj) (l : list addr) : Z :=
  fold_left (fun sum a => (sum + match deref h a with
                                 | Some t => progress t
                                 | None => 0
                                 end)%Z) l 0%Z.

(** [calculateProjectProgress]. *)
Definition calculateProjectProgress (tm : TaskManager) (projectId : TaskId)
  : option Z :=
  match find (fun o => TaskId_eqb (id (snd o)) projectId
                       && match type (snd o) with
                          | Some project => true
                          | _ => false
                          end) (taskObjects tm) with
  | None => Some 0%Z
  | Some (_, projectTask) =>
      let directChildren := children projectTask in
      match getDescendantTasks tm projectId with
      | None => None
      | Some descendants =>
          let allTasks := directChildren ++ descendants in
          if (length allTasks =? 0)%nat then Some 0%Z
          else Some (roundDiv (sumProgress (heap tm) allTasks)
                              (lengthZ allTasks))
      end
  end.

(** The average the claim describes: every subtask counted once. *)
Definition averageOnce (tm : TaskManager) (projectId : TaskId) : option Z :=
  match getDescendantTasks tm projectId with
  | Some descendants =>
      if (length descendants =? 0)%nat then Some 0%Z
      else Some (roundDiv (sumProgress (heap tm) descendants)
                          (lengthZ descendants))
  | None => None
  end.

(** The manager right after a new dependency is pushed and the links of the
    tasks are rebuilt, and after that dependency is popped again: the two
    states that [createDependency] passes through. *)
Definition sameDependency (from to : TaskId) (ty : DependencyType)
           (d : addr * Dependency) : bool :=
  TaskId_eqb (fromId (snd d)) from && TaskId_eqb (toId (snd d)) to
  && DependencyType_eqb (dtype (snd d)) ty.

Definition withDependency (tm : TaskManager) (d : addr * Dependency)
  : TaskManager :=
  _updateTaskDependencies
    (mkTaskManager (heap tm) (tasks tm) (push (dependencies tm) d)
                   (S (nextDep tm)) (options tm) (nextId tm)).

Definition rolledBack (tm1 : TaskManager) : TaskManager :=
  _updateTaskDependencies
    (mkTaskManager (heap tm1) (tasks tm1) (pop (dependencies tm1))
                   (nextDep tm1) (options tm1) (nextId tm1)).

(** *** Vocabulary of the proofs *)

(** Two heaps whose objects have the same ids. *)
Definition sameIds (h h' : list TaskObj) : Prop :=
  forall a, option_map (@id _) (deref h a) = option_map (@id _) (deref h' a).

(** Every task of the list is an object of the heap. *)
Definition wellFormed (tm : TaskManager) : Prop :=
  Forall (fun a => (a < length (heap tm))%nat) (tasks tm).

Definition idIsNumAtLeast (n : Z) (x : TaskId) : bool :=
  match x with
  | IdNum k => (n <=? k)%Z
  | IdStr _ => false
  end.

(** The id a call of [createTask] gives to its task. *)
Definition assignedId (tm : TaskManager) (d : TaskData (list addr)) : TaskId :=
  match truthyIdOpt (p_id d) with
  | Some x => x
  | None => IdNum (_generateId tm)
  end.

(** What a run of [createTask] calls on a new manager keeps true: the
    counter has passed no free positive integer. *)
Definition counterInvariant (tm : TaskManager) : Prop :=
  wellFormed tm
  /\ (1 <= nextId tm)%Z
  /\ forall j, (1 <= j < nextId tm)%Z -> In (IdNum j) (taskIds tm).

(** [y] is the id of a task below [a] in the hierarchy that the [parentId]
    properties draw on the tasks [objs]. *)
Inductive descends (objs : list TaskObj) : TaskId -> TaskId -> Prop :=
| descends_child a t :
    In t objs -> parentId t = Some a -> descends objs a (id t)
| descends_below a t y :
    In t objs -> parentId t = Some a -> descends objs (id t) y ->
    descends objs a y.

(** The ids that [deleteTask] removes. *)
Definition removedBy (tm : TaskManager) (taskId y : TaskId) : Prop :=
  y = taskId \/ descends (getTasks tm) taskId y.

(** The number of tasks ranked above [x]. *)
Definition above (objs : list TaskObj) (rank : TaskId -> nat) (x : TaskId)
  : nat :=
  length (filter (fun t => (rank x <? rank (id t))%nat) objs).

(** *** Sample managers *)

Definition sampleData (i : option TaskId) (s e : string)
           (ty : option TaskType) (pr : option Z) (parent : option TaskId)
  : TaskData (list addr) :=
  mkTaskData i (Some "T"%string) (Some s) (Some e) (option_map Some ty) pr
             None None None None None None None (option_map Some parent)
             None None None None None.

Definition numbered (i : Z) (parent : option TaskId) : TaskData (list addr) :=
  sampleData (Some (IdNum i)) "2024-01-01" "2024-01-05" None None parent.

(** Two tasks, 1 and 2, on a manager with the default options and on one
    with the cycle check switched off. *)
Definition twoTasks : TaskManager :=
  createTasks (H := isoUTC) (newTaskManager noOptions)
              [numbered 1 None; numbered 2 None].


(** Two calls of [createTask] that name the same id. *)
Definition sameIdTwice : TaskManager :=
  createTasks (H := isoUTC) (newTaskManager noOptions)
              [numbered 1 None; numbered 1 None].

(** Task 1, its child 2 and its grandchild 3. *)
Definition family : TaskManager :=
  createTasks (H := isoUTC) (newTaskManager noOptions)
              [numbered 1 None; numbered 2 (Some (IdNum 1));
               numbered 3 (Some (IdNum 2))].

Definition numericRank (x : TaskId) : nat :=
  match x with
  | IdNum n => Z.to_nat n
  | IdStr _ => O
  end.

(** A project with one child, complete, which has one child of its own,
    not started. *)
Definition projectWithGrandchild : TaskManager :=
  createTasks (H := isoUTC) (newTaskManager noOptions)
    [sampleData (Some (IdStr "P")) "2024-01-01" "2024-01-31" (Some project)
                None None;
     sampleData (Some (IdStr "c")) "2024-01-01" "2024-01-10" None
                (Some 100%Z) (Some (IdStr "P"));
     sampleData (Some (IdStr "g")) "2024-01-01" "2024-01-05" None
                (Some 0%Z) (Some (IdStr "c"))].

(** The two calls that would close the cycle 1 -> 2 -> 1. *)
Definition cycleCalls : list DependencyCall :=
  [mkCall (IdNum 1) (IdNum 2) None None; mkCall (IdNum 2) (IdNum 1) None None].

(** A task that names itself as its parent. *)
Definition ownParent : TaskManager :=
  createTasks (H := isoUTC) (newTaskManager noOptions)
              [numbered 1 (Some (IdNum 1))].

(** The call of the unit test ['should throw error with invalid dates']. *)
Definition invalidDateCall : TaskData (list addr) :=
  mkTaskData None (Some "Invalid Task"%string) (Some "invalid-date"%string)
             (Some "2024-01-05"%string) None None None None None None None
             None None None None None None None None.

(** *** The other methods of [TaskManager] *)

Definition setStart (t : TaskObj) (s : string) : TaskObj := setDates t s (end_ t).

Definition setEnd (t : TaskObj) (e : string) : TaskObj := setDates t (start t) e.

(** [this.tasks.findIndex(t => t.id === taskId)]. *)
Definition findTaskIndex (tm : TaskManager) (taskId : TaskId) : option nat :=
  findIndex (fun a => match deref (heap tm) a with
                      | Some t => TaskId_eqb (id t) taskId
                      | None => false
                      end) (tasks tm).

Section Editing.
Context {H : Host}.

(** The object that [updateTask] builds: the spread of the task and the
    updates, with the dates that the updates give rewritten by [format]. *)
Definition updatedObject (old : TaskObj) (updates : TaskData (list addr))
  : TaskObj :=
  let u0 := spread old updates in
  let u1 := match truthyStr (p_start updates) with
            | Some s => setStart u0 (format (parseDate (Str s)))
            | None => u0
            end in
  match truthyStr (p_end updates) with
  | Some e => setEnd u1 (format (parseDate (Str e)))
  | None => u1
  end.

(** [updateTask].  The updated task is a new object, which takes the place
    of the old one in the task list; the old object stays wherever else it
    is referred to.  The test on [parentId] reads the task list after the
    new object has been stored in it. *)
Definition updateTask (tm : TaskManager) (taskId : TaskId)
           (updates : TaskData (list addr))
  : option (addr * TaskObj) * TaskManager :=
  match findTaskIndex tm taskId with
  | None => (None, tm)
  | Some taskIndex =>
      match option_map (deref (heap tm)) (nth_error (tasks tm) taskIndex) with
      | Some (Some old) =>
          let updatedTask := updatedObject old updates in
          let a := length (heap tm) in
          let tm1 :=
            mkTaskManager (heap tm ++ [updatedTask])
                          (setAt taskIndex a (tasks tm))
                          (dependencies tm) (nextDep tm) (options tm)
                          (nextId tm) in
          let stored := updatedTask in
          let tm2 :=
            match p_parentId updates with
            | Some (Some newParent) =>
                if negb (optId_eqb (parentId stored) newParent) then
                  let tm' :=
                    match parentId stored with
                    | Some oldParentId => _updateParentTaskChildren tm1 oldParentId
                    | None => tm1
                    end in
                  if truthyId newParent
                  then _updateParentTaskChildren tm' newParent
                  else tm'
                else tm1
            | _ => tm1
            end in
          (Some (a, updatedTask), tm2)
      | _ => (None, tm)
      end
  end.

End Editing.

(** [splice(i, 1)]. *)
Definition removeAt {A : Type} (i : nat) (l : list A) : list A :=
  firstn i l ++ skipn (S i) l.

(** [deleteDependency]. *)
Definition deleteDependency (tm : TaskManager) (from to : TaskId)
  : bool * TaskManager :=
  match findIndex (fun d => TaskId_eqb (fromId (snd d)) from
                            && TaskId_eqb (toId (snd d)) to)
                  (dependencies tm) with
  | None => (false, tm)
  | Some depIndex =>
      (true,
       _updateTaskDependencies
         (mkTaskManager (heap tm) (tasks tm)
                        (removeAt depIndex (dependencies tm))
                        (nextDep tm) (options tm) (nextId tm)))
  end.

(** [setDependencies]: the caller's dependency objects take the next
    addresses.  The result of the cycle check is not looked at; the call
    returns when the check does. *)
Definition setDependencies (tm : TaskManager) (deps : list Dependency)
  : option TaskManager :=
  let tm1 :=
    mkTaskManager (heap tm) (tasks tm)
                  (combine (seq (nextDep tm) (length deps)) deps)
                  (nextDep tm + length deps) (options tm) (nextId tm) in
  if checkCircularDependencies_opt (options tm) then
    match checkCircularDependencies tm1 with
    | Some _ => Some tm1
    | None => None
    end
  else Some tm1.

(** [Math.max(...l)]: [None] stands for the [-Infinity] of an empty list. *)
Definition maxOf (l : list Z) : option Z :=
  match l with
  | [] => None
  | x :: r => Some (fold_left Z.max r x)
  end.

(** The positive numeric ids, as [_updateNextId] maps and filters them. *)
Definition positiveIds (ids : list TaskId) : list Z :=
  filter (fun n => (0 <? n)%Z)
         (map (fun x => match x with IdNum n => n | IdStr _ => 0%Z end) ids).

(** [_updateNextId].  With tasks but no positive numeric id among them the
    counter becomes [-Infinity + 1], which is no integer: the result is
    [None] then, and the model follows the manager no further. *)
Definition _updateNextId (tm : TaskManager) : option TaskManager :=
  if (length (tasks tm) =? 0)%nat then Some (setNextId tm 1)
  else option_map (fun maxId => setNextId tm (maxId + 1))
                  (maxOf (positiveIds (taskIds tm))).

(** [setTasks]: the manager takes over the caller's array of task objects,
    given by its heap and the addresses in the array. *)
Definition setTasks (tm : TaskManager) (h : list TaskObj) (l : list addr)
  : option TaskManager :=
  _updateNextId (mkTaskManager h l (dependencies tm) (nextDep tm) (options tm)
                               (nextId tm)).

(** [getAncestorTasks]: the [while] loop that climbs the [parentId]
    properties; [fuel] bounds the number of its turns, which has no bound
    of its own. *)
Fixpoint climb (fuel : nat) (tm : TaskManager) (currentTask : TaskObj)
         (ancestors : list addr) : option (list addr) :=
  match fuel with
  | O => None
  | S f =>
      match truthyIdOpt (parentId currentTask) with
      | None => Some ancestors
      | Some p =>
          match findTask tm p with
          | Some (a, parent) => climb f tm parent (push ancestors a)
          | None => Some ancestors
          end
      end
  end.

(** A climb that ends meets no task twice. *)
Definition getAncestorTasks (tm : TaskManager) (taskId : TaskId)
  : option (list addr) :=
  match findTask tm taskId with
  | None => Some []
  | Some (_, t) => climb (S (length (tasks tm))) tm t []
  end.



(** The [dependencies] and [dependsOn] arrays of the tasks agree with the
    list of dependencies: the task found under an id lists, in order, the
    targets of the dependencies that leave it and the sources of those
    that reach it. *)
Definition indexMirrorsList (tm : TaskManager) : Prop :=
  forall x a t,
    findTask tm x = Some (a, t) ->
    Types.dependencies t
    = map toId (filter (fun d => TaskId_eqb (fromId d) x) (getDependencies tm))
    /\ dependsOn t
       = map fromId (filter (fun d => TaskId_eqb (toId d) x) (getDependencies tm)).

(** Every [children] array holds objects of the heap. *)
Definition closedHeap (tm : TaskManager) : Prop :=
  forall a t c, deref (heap tm) a = Some t -> In c (children t) ->
                (c < length (heap tm))%nat.

(** The number of tasks ranked below [x]. *)
Definition below (objs : list TaskObj) (rank : TaskId -> nat) (x : TaskId)
  : nat :=
  length (filter (fun t => (rank (id t) <? rank x)%nat) objs).

(** *** Vocabulary of the cycle check *)

(** A walk of one edge or more. *)
Inductive walk (E : TaskId -> TaskId -> Prop) : TaskId -> TaskId -> Prop :=
| walk_edge x y : E x y -> walk E x y
| walk_step x y z : E x y -> walk E y z -> walk E x z.

(** A dependency leads from [x] to [y]. *)
Definition dependsOnEdge (deps : list Dependency) (x y : TaskId) : Prop :=
  exists d, In d deps /\ fromId d = x /\ toId d = y.

(** An edge of the adjacency map. *)
Definition graphEdge (g : Graph) (x y : TaskId) : Prop := In y (graphGet g x).

(** There is a cycle of dependencies that can be reached from one of
    [ids] (or passes through it). *)
Definition cycleReachable (ids : list TaskId) (deps : list Dependency) : Prop :=
  exists x y,
    In x ids /\ (y = x \/ walk (dependsOnEdge deps) x y)
    /\ walk (dependsOnEdge deps) y y.

(** Each element of the recursion stack has an edge to the next. *)
Definition chain (E : TaskId -> TaskId -> Prop) (s : list TaskId) : Prop :=
  forall pre a b post, s = pre ++ a :: b :: post -> E a b.

(** A node whose search has returned. *)
Definition explored (v s : list TaskId) (x : TaskId) : Prop :=
  In x v /\ ~ In x s.

(** The explored nodes lead to explored nodes only, and can be ranked so
    that every edge from one of them goes down. *)
Definition exploredRanked (E : TaskId -> TaskId -> Prop) (v s : list TaskId)
  : Prop :=
  exists (rank : TaskId -> nat) (N : nat),
    forall x, explored v s x ->
              (rank x < N)%nat
              /\ forall y, E x y -> explored v s y /\ (rank y < rank x)%nat.

(** Every dependency starts at a task of the list. *)
Definition dependenciesAmongTasks (tm : TaskManager) : Prop :=
  forall d, In d (getDependencies tm) -> In (fromId d) (taskIds tm).

End TaskManager.

(** ** [utils.ts]: the rest of [TaskUtils] *)

Module TaskUtilsRest.
Import Types DateUtils TaskUtils.

Section WithHost.
Context {H : Host}.
Variable C : Type.

(** [TaskUtils.tasksOverlap]. *)
Definition tasksOverlap (task1 task2 : Task C) : bool :=
  let start1 := parseDate (Str (start task1)) in
  let end1 := parseDate (Str (end_ task1)) in
  let start2 := parseDate (Str (start task2)) in
  let end2 := parseDate (Str (end_ task2)) in
  negb (numLt (getTime end1) (getTime start2)
        || numGt (getTime start1) (getTime end2)).

End WithHost.

(** The recursive [isCyclic] of [hasCyclicDependencies]; its state is the
    pair of the [visited] set and the [recStack]. *)
Fixpoint isCyclic (fuel : nat) (graph : TaskManager.Graph) (nodeId : TaskId)
         (st : list TaskId * list TaskId)
  : option (bool * (list TaskId * list TaskId)) :=
  match fuel with
  | O => None
  | S f =>
      if setHas (fst st) nodeId
      then Some (false, (fst st, setDelete (snd st) nodeId))
      else
        match someM
                (fun neighbor st =>
                   if setHas (fst st) neighbor
                   then Some (setHas (snd st) neighbor, st)
                   else
                     match isCyclic f graph neighbor st with
                     | Some (true, st') => Some (true, st')
                     | Some (false, st') => Some (setHas (snd st') neighbor, st')
                     | None => None
                     end)
                (TaskManager.graphGet graph nodeId)
                (setAdd (fst st) nodeId, setAdd (snd st) nodeId) with
        | Some (true, st') => Some (true, st')
        | Some (false, (visited, recStack)) =>
            Some (false, (visited, setDelete recStack nodeId))
        | None => None
        end
  end.

(** [TaskUtils.hasCyclicDependencies].  The graph is built as in
    [checkCircularDependencies].  The [return true] of the last loop leaves
    the callback of [forEach], not the function.  Every call of [isCyclic]
    that goes one level deeper has first marked a new node visited, so the
    depth stays within the number of nodes. *)
Definition hasCyclicDependencies (dependencies : list Dependency) : option bool :=
  let graph := TaskManager.buildGraph dependencies in
  let fuel := S (length dependencies + length dependencies) in
  match forEachM
          (fun nodeId st =>
             if setHas (fst st) nodeId then Some st
             else option_map snd (isCyclic fuel graph nodeId st))
          (map fst graph) ([], []) with
  | Some _ => Some false
  | None => None
  end.

End TaskUtilsRest.

(** ** [StateManager.ts] *)

Module StateManager.
Import Types.

Record ViewSettings : Type := mkViewSettings {
  mode : ViewMode;
  scrollPosition : Z;
  zoomLevel : Z;
  taskListWidth : Z;
  timelineWidth : Z;
  startDate : option string;
  endDate : option string;
  scale : option Z
}.

Record VirtualScrollConfig : Type := mkVirtualScroll {
  startIndex : Z;
  endIndex : Z;
  visibleCount : Z;
  bufferSize : Z;
  totalHeight : Z;
  vs_rowHeight : Z
}.

Record GanttConfig : Type := mkConfig {
  columnWidth : Z;
  rowHeight : Z;
  showWeekends : bool;
  showToday : bool;
  showRowLines : bool;
  showColumnLines : bool;
  enableDependencies : bool;
  enableDragging : bool;
  enableResizing : bool;
  enableProgress : bool;
  respectDependencies : bool;
  locale : string
}.

Record StateManagerState : Type := mkState {
  tasks : list JTask;
  dependencies : list Dependency;
  selectedTaskIds : list TaskId;
  viewSettings : ViewSettings;
  virtualScroll : VirtualScrollConfig;
  config : GanttConfig;
  resources : option (list Resource)
}.

(** The derived caches ([_taskCache], [_dependencyCache], [_layoutCache]).
    [_initializeCache] clears the three of them and rebuilds them from
    [_state], so after it they are a function of the state alone; what they
    hold (levels, visibility, durations) is left to the instance.  The one
    thing the state itself takes back from them is the number of visible
    cached tasks. *)
Class DerivedCaches : Type := {
  Caches : Type;
  rebuild : StateManagerState -> Caches;
  getVisibleTaskCount : Caches -> Z
}.

(** [JSON.parse(JSON.stringify(state))]: the states of this model are plain
    data (strings, numbers, booleans, arrays, records), on which the copy is
    the same value held by a fresh object. *)
Definition jsonClone (s : StateManagerState) : StateManagerState := s.

Section Manager.
Context {D : DerivedCaches}.

(** A subscriber is named by the order of its registration; [delivered]
    is the trace of every call made to a subscriber, with the state it
    was handed. *)
Record StateManager : Type := mkManager {
  _state : StateManagerState;
  _history : list StateManagerState;
  _future : list StateManagerState;
  _maxHistorySize : Z;
  _subscribers : list nat;
  _caches : Caches;
  _batchUpdate : bool;
  _pendingActions : list GanttAction;
  delivered : list (nat * StateManagerState)
}.

Definition defaultViewSettings : ViewSettings :=
  mkViewSettings day 0 1 300 0 None None None.

Definition defaultVirtualScroll : VirtualScrollConfig :=
  mkVirtualScroll 0 0 50 20 0 40.

Definition defaultConfig : GanttConfig :=
  mkConfig 40 40 true true true true true true true true true "zh-CN".

(** [_calculateVirtualScrollMetrics], on the state and the task cache. *)
Definition _calculateVirtualScrollMetrics (c : Caches) (s : StateManagerState)
  : StateManagerState :=
  let vs := virtualScroll s in
  let cfg := config s in
  let visibleTasks := getVisibleTaskCount c in
  let scrollTop := scrollPosition (viewSettings s) in
  let rh := rowHeight cfg in
  let visibleStartIndex := Z.max 0 (scrollTop / rh - bufferSize vs) in
  let visibleEndIndex :=
    Z.min (lengthZ (tasks s))
          (visibleStartIndex + visibleCount vs + 2 * bufferSize vs) in
  mkState (tasks s) (dependencies s) (selectedTaskIds s) (viewSettings s)
          (mkVirtualScroll visibleStartIndex visibleEndIndex
                           (visibleCount vs) (bufferSize vs)
                           (visibleTasks * rh) rh)
          (config s) (resources s).

Definition with_state (m : StateManager) (s : StateManagerState) (c : Caches)
  : StateManager :=
  mkManager s (_history m) (_future m) (_maxHistorySize m) (_subscribers m)
            c (_batchUpdate m) (_pendingActions m) (delivered m).

(** [_initializeCache]. *)
Definition _initializeCache (m : StateManager) : StateManager :=
  let c := rebuild (_state m) in
  with_state m (_calculateVirtualScrollMetrics c (_state m)) c.

(** [_notifySubscribers]: every subscriber, in registration order, is
    called with the current state. *)
Definition _notifySubscribers (m : StateManager) : StateManager :=
  mkManager (_state m) (_history m) (_future m) (_maxHistorySize m)
            (_subscribers m) (_caches m) (_batchUpdate m) (_pendingActions m)
            (delivered m ++ map (fun k => (k, _state m)) (_subscribers m)).

(** The constructor, called with the parts of the initial state that the
    caller supplies. *)
Definition newStateManager (initTasks : option (list JTask))
           (initDeps : option (list Dependency))
           (initSelected : option (list TaskId))
           (initView : option ViewSettings)
           (initScroll : option VirtualScrollConfig)
           (initConfig : option GanttConfig) : StateManager :=
  let s := mkState (orElse initTasks []) (orElse initDeps [])
                   (orElse initSelected [])
                   (orElse initView defaultViewSettings)
                   (orElse initScroll defaultVirtualScroll)
                   (orElse initConfig defaultConfig) None in
  let c := rebuild s in
  mkManager (_calculateVirtualScrollMetrics c s) [] [] 10 [] c false [] [].

Definition undoStackSize (m : StateManager) : Z := lengthZ (_history m).
Definition redoStackSize (m : StateManager) : Z := lengthZ (_future m).

(** [_saveToHistory]. *)
Definition _saveToHistory (m : StateManager) : StateManager :=
  let h := push (_history m) (jsonClone (_state m)) in
  let h' := if (_maxHistorySize m <? lengthZ h)%Z then shift h else h in
  mkManager (_state m) h' [] (_maxHistorySize m) (_subscribers m)
            (_caches m) (_batchUpdate m) (_pendingActions m) (delivered m).

Definition set_tasks (s : StateManagerState) (ts : list JTask) :=
  mkState ts (dependencies s) (selectedTaskIds s) (viewSettings s)
          (virtualScroll s) (config s) (resources s).

Definition set_dependencies (s : StateManagerState) (ds : list Dependency) :=
  mkState (tasks s) ds (selectedTaskIds s) (viewSettings s)
          (virtualScroll s) (config s) (resources s).

Definition set_selected (s : StateManagerState) (ids : list TaskId) :=
  mkState (tasks s) (dependencies s) ids (viewSettings s)
          (virtualScroll s) (config s) (resources s).

Definition set_mode (s : StateManagerState) (v : ViewMode) :=
  let w := viewSettings s in
  mkState (tasks s) (dependencies s) (selectedTaskIds s)
          (mkViewSettings v (scrollPosition w) (zoomLevel w) (taskListWidth w)
                          (timelineWidth w) (startDate w) (endDate w) (scale w))
          (virtualScroll s) (config s) (resources s).

(** [_handleAction], on the state. *)
Definition handleAction (s : StateManagerState) (a : GanttAction)
  : StateManagerState :=
  match a with
  | ADD_TASK payload => set_tasks s (push (tasks s) payload)
  | UPDATE_TASK taskId updates =>
      match findIndex (fun t => TaskId_eqb (id t) taskId) (tasks s) with
      | Some i =>
          match nth_error (tasks s) i with
          | Some t => set_tasks s (setAt i (spread t updates) (tasks s))
          | None => s
          end
      | None => s
      end
  | DELETE_TASK taskId =>
      let s1 := set_tasks s (filter (fun t => negb (TaskId_eqb (id t) taskId))
                                    (tasks s)) in
      set_dependencies s1
        (filter (fun d => negb (TaskId_eqb (fromId d) taskId)
                          && negb (TaskId_eqb (toId d) taskId))
                (dependencies s1))
  | MOVE_TASK taskId newStart newEnd =>
      match findIndex (fun t => TaskId_eqb (id t) taskId) (tasks s) with
      | Some i =>
          match nth_error (tasks s) i with
          | Some t => set_tasks s (setAt i (setDates t newStart newEnd) (tasks s))
          | None => s
          end
      | None => s
      end
  | ADD_DEPENDENCY payload => set_dependencies s (push (dependencies s) payload)
  | DELETE_DEPENDENCY from to =>
      set_dependencies s
        (filter (fun d => negb (TaskId_eqb (fromId d) from
                                && TaskId_eqb (toId d) to))
                (dependencies s))
  | CHANGE_VIEW v => set_mode s v
  | SET_DATES _ _ => s
  | SELECT_TASK taskId =>
      if existsb (TaskId_eqb taskId) (selectedTaskIds s) then s
      else set_selected s (push (selectedTaskIds s) taskId)
  | DESELECT_TASK taskId =>
      set_selected s (filter (fun i => negb (TaskId_eqb i taskId))
                             (selectedTaskIds s))
  | UNHANDLED _ => s
  end.

Definition _handleAction (m : StateManager) (a : GanttAction) : StateManager :=
  with_state m (handleAction (_state m) a) (_caches m).

Definition set_batch (m : StateManager) (b : bool) (q : list GanttAction)
  : StateManager :=
  mkManager (_state m) (_history m) (_future m) (_maxHistorySize m)
            (_subscribers m) (_caches m) b q (delivered m).

(** [dispatch]. *)
Definition dispatch (m : StateManager) (a : GanttAction) : StateManager :=
  if _batchUpdate m then set_batch m true (push (_pendingActions m) a)
  else _notifySubscribers (_initializeCache (_handleAction (_saveToHistory m) a)).

(** [beginBatchUpdate]. *)
Definition beginBatchUpdate (m : StateManager) : StateManager :=
  set_batch m true [].

(** [commitBatchUpdate]. *)
Definition commitBatchUpdate (m : StateManager) : StateManager :=
  if negb (_batchUpdate m) || (length (_pendingActions m) =? 0)%nat
  then set_batch m false (_pendingActions m)
  else
    let m1 := _saveToHistory m in
    let m2 := fold_left _handleAction (_pendingActions m) m1 in
    let m3 := set_batch m2 false [] in
    _notifySubscribers (_initializeCache m3).

Definition set_stacks (m : StateManager) (s : StateManagerState)
           (h f : list StateManagerState) : StateManager :=
  mkManager s h f (_maxHistorySize m) (_subscribers m) (_caches m)
            (_batchUpdate m) (_pendingActions m) (delivered m).

(** [undo]; the boolean is its return value. *)
Definition undo (m : StateManager) : bool * StateManager :=
  match _history m with
  | [] => (false, m)
  | h0 :: hr =>
      let currentState := jsonClone (_state m) in
      let previousState := last (_history m) h0 in
      let m1 := set_stacks m previousState (pop (_history m))
                           (push (_future m) currentState) in
      (true, _notifySubscribers (_initializeCache m1))
  end.

(** [redo]. *)
Definition redo (m : StateManager) : bool * StateManager :=
  match _future m with
  | [] => (false, m)
  | f0 :: fr =>
      let currentState := jsonClone (_state m) in
      let nextState := last (_future m) f0 in
      let m1 := set_stacks m nextState (push (_history m) currentState)
                           (pop (_future m)) in
      (true, _notifySubscribers (_initializeCache m1))
  end.

(** [subscribe]: the callback joins the set and is called at once. *)
Definition subscribe (m : StateManager) (k : nat) : StateManager :=
  mkManager (_state m) (_history m) (_future m) (_maxHistorySize m)
            (if existsb (Nat.eqb k) (_subscribers m) then _subscribers m
             else push (_subscribers m) k)
            (_caches m) (_batchUpdate m) (_pendingActions m)
            (push (delivered m) (k, _state m)).

(** [setMaxHistorySize]: the [while] loop shifts once for every entry over
    the new bound. *)
Definition setMaxHistorySize (m : StateManager) (size : Z) : StateManager :=
  if (0 <? size)%Z then
    mkManager (_state m)
              (skipn (length (_history m) - Z.to_nat size) (_history m))
              (_future m) size (_subscribers m) (_caches m) (_batchUpdate m)
              (_pendingActions m) (delivered m)
  else m.

(** Runs of calls, as the claims quantify over them. *)
Definition dispatchAll (m : StateManager) (acts : list GanttAction)
  : StateManager :=
  fold_left dispatch acts m.

(** [n] successive calls of [undo] (of [redo]); the boolean tells whether
    every one of them returned [true]. *)
Fixpoint undoN (n : nat) (m : StateManager) : bool * StateManager :=
  match n with
  | O => (true, m)
  | S k => let (b, m1) := undo m in
           let (bs, m2) := undoN k m1 in (b && bs, m2)
  end.

Fixpoint redoN (n : nat) (m : StateManager) : bool * StateManager :=
  match n with
  | O => (true, m)
  | S k => let (b, m1) := redo m in
           let (bs, m2) := redoN k m1 in (b && bs, m2)
  end.

(** The states saved by a run of dispatches: the one in force before each
    of them. *)
Fixpoint snapshots (m : StateManager) (acts : list GanttAction)
  : list StateManagerState :=
  match acts with
  | [] => []
  | a :: r => _state m :: snapshots (dispatch m a) r
  end.

End Manager.

(** The part of the state that undo and redo are meant to restore. *)
Definition tasksAndDependencies (s : StateManagerState)
  : list JTask * list Dependency :=
  (tasks s, dependencies s).

Definition datas (l : list StateManagerState)
  : list (list JTask * list Dependency) :=
  map tasksAndDependencies l.

(** An instance of the caches that keeps the number of tasks and counts
    every one of them visible, as is the case when no task is collapsed. *)
Definition flatCaches : DerivedCaches :=
  {| Caches := Z;
     rebuild := fun s => lengthZ (tasks s);
     getVisibleTaskCount := fun c => c |}.

(** Sample data for the closed examples below. *)
Definition sampleTask (i : Z) (s e : string) : JTask :=
  mkTask (IdNum i) "T" s e (Some task) 0 None false true true false
         [] [] None [] None [] [] false.

Definition freshManager : @StateManager flatCaches :=
  newStateManager None None None None None None.

(** A manager whose undo history holds the ten entries it has room for. *)
Definition fullManager : @StateManager flatCaches :=
  dispatchAll freshManager (repeat (CHANGE_VIEW week) 10).

(** *** The other methods of [StateManager] *)

(** [Partial<GanttConfig>] and [Partial<ViewSettings>]. *)
Record ConfigData : Type := mkConfigData {
  c_columnWidth : option Z;
  c_rowHeight : option Z;
  c_showWeekends : option bool;
  c_showToday : option bool;
  c_showRowLines : option bool;
  c_showColumnLines : option bool;
  c_enableDependencies : option bool;
  c_enableDragging : option bool;
  c_enableResizing : option bool;
  c_enableProgress : option bool;
  c_respectDependencies : option bool;
  c_locale : option string
}.

Record ViewData : Type := mkViewData {
  v_mode : option ViewMode;
  v_scrollPosition : option Z;
  v_zoomLevel : option Z;
  v_taskListWidth : option Z;
  v_timelineWidth : option Z;
  v_startDate : option (option string);
  v_endDate : option (option string);
  v_scale : option (option Z)
}.

Definition spreadConfig (c : GanttConfig) (u : ConfigData) : GanttConfig :=
  mkConfig (orElse (c_columnWidth u) (columnWidth c))
           (orElse (c_rowHeight u) (rowHeight c))
           (orElse (c_showWeekends u) (showWeekends c))
           (orElse (c_showToday u) (showToday c))
           (orElse (c_showRowLines u) (showRowLines c))
           (orElse (c_showColumnLines u) (showColumnLines c))
           (orElse (c_enableDependencies u) (enableDependencies c))
           (orElse (c_enableDragging u) (enableDragging c))
           (orElse (c_enableResizing u) (enableResizing c))
           (orElse (c_enableProgress u) (enableProgress c))
           (orElse (c_respectDependencies u) (respectDependencies c))
           (orElse (c_locale u) (locale c)).

Definition spreadView (w : ViewSettings) (u : ViewData) : ViewSettings :=
  mkViewSettings (orElse (v_mode u) (mode w))
                 (orElse (v_scrollPosition u) (scrollPosition w))
                 (orElse (v_zoomLevel u) (zoomLevel w))
                 (orElse (v_taskListWidth u) (taskListWidth w))
                 (orElse (v_timelineWidth u) (timelineWidth w))
                 (orElse (v_startDate u) (startDate w))
                 (orElse (v_endDate u) (endDate w))
                 (orElse (v_scale u) (scale w)).

Definition set_view (s : StateManagerState) (w : ViewSettings) :=
  mkState (tasks s) (dependencies s) (selectedTaskIds s) w
          (virtualScroll s) (config s) (resources s).

Definition set_config (s : StateManagerState) (c : GanttConfig) :=
  mkState (tasks s) (dependencies s) (selectedTaskIds s) (viewSettings s)
          (virtualScroll s) c (resources s).

Definition set_scrollPosition (s : StateManagerState) (scrollTop : Z) :=
  let w := viewSettings s in
  set_view s (mkViewSettings (mode w) scrollTop (zoomLevel w) (taskListWidth w)
                             (timelineWidth w) (startDate w) (endDate w)
                             (scale w)).

Definition setCollapsed {C : Type} (t : Task C) (b : bool) : Task C :=
  mkTask (id t) (name t) (start t) (end_ t) (type t) (progress t) (color t)
         b (draggable t) (resizable t) (readonly t)
         (Types.dependencies t) (dependsOn t) (parentId t) (assignees t)
         (assignee t) (children t) (metadata t) (critical t).

(** A task handed over as the updates of [UPDATE_TASK]: every property
    that the task has is present; one that it lacks ([type], [color],
    [parentId], [assignee]) is absent. *)
Definition asUpdates (t : JTask) : TaskData (list PlainTask) :=
  mkTaskData (Some (id t)) (Some (name t)) (Some (start t)) (Some (end_ t))
             (option_map Some (type t)) (Some (progress t))
             (option_map Some (color t)) (Some (collapsed t))
             (Some (draggable t)) (Some (resizable t)) (Some (readonly t))
             (Some (Types.dependencies t)) (Some (dependsOn t))
             (option_map Some (parentId t)) (Some (assignees t))
             (option_map Some (assignee t)) (Some (children t))
             (Some (metadata t)) (Some (critical t)).

Section Operations.
Context {D : DerivedCaches}.

(** [clearHistory]. *)
Definition clearHistory (m : StateManager) : StateManager :=
  set_stacks m (_state m) [] [].

(** [updateScrollPosition]: no snapshot is saved and the caches are not
    rebuilt. *)
Definition updateScrollPosition (m : StateManager) (scrollTop : Z)
  : StateManager :=
  _notifySubscribers
    (with_state m
       (_calculateVirtualScrollMetrics
          (_caches m) (set_scrollPosition (_state m) scrollTop))
       (_caches m)).

(** [updateTasks] and [updateDependencies]. *)
Definition updateTasks (m : StateManager) (ts : list JTask) : StateManager :=
  let m1 := _saveToHistory m in
  _notifySubscribers
    (_initializeCache (with_state m1 (set_tasks (_state m1) ts) (_caches m1))).

Definition updateDependencies (m : StateManager) (ds : list Dependency)
  : StateManager :=
  let m1 := _saveToHistory m in
  _notifySubscribers
    (_initializeCache
       (with_state m1 (set_dependencies (_state m1) ds) (_caches m1))).

(** [updateConfig] and [updateViewSettings]: the scroll metrics are
    recomputed, the caches are not. *)
Definition updateConfig (m : StateManager) (u : ConfigData) : StateManager :=
  let m1 := _saveToHistory m in
  _notifySubscribers
    (with_state m1
       (_calculateVirtualScrollMetrics
          (_caches m1)
          (set_config (_state m1) (spreadConfig (config (_state m1)) u)))
       (_caches m1)).

Definition updateViewSettings (m : StateManager) (u : ViewData)
  : StateManager :=
  let m1 := _saveToHistory m in
  _notifySubscribers
    (with_state m1
       (_calculateVirtualScrollMetrics
          (_caches m1)
          (set_view (_state m1) (spreadView (viewSettings (_state m1)) u)))
       (_caches m1)).

(** [toggleTaskCollapse]. *)
Definition toggleTaskCollapse (m : StateManager) (taskId : TaskId)
  : StateManager :=
  match findIndex (fun t => TaskId_eqb (id t) taskId) (tasks (_state m)) with
  | Some taskIndex =>
      match nth_error (tasks (_state m)) taskIndex with
      | Some t =>
          let m1 := _saveToHistory m in
          _notifySubscribers
            (_initializeCache
               (with_state m1
                  (set_tasks (_state m1)
                             (setAt taskIndex
                                    (setCollapsed t (negb (collapsed t)))
                                    (tasks (_state m1))))
                  (_caches m1)))
      | None => m
      end
  | None => m
  end.

(** [batchUpdateTasks]; none of the calls in its [try] block throws. *)
Definition upsertAction (s : StateManagerState) (t : JTask) : GanttAction :=
  match findIndex (fun t' => TaskId_eqb (id t') (id t)) (tasks s) with
  | Some _ => UPDATE_TASK (id t) (asUpdates t)
  | None => ADD_TASK t
  end.

Definition queueTask (m : StateManager) (t : JTask) : StateManager :=
  dispatch m (upsertAction (_state m) t).

Definition batchUpdateTasks (m : StateManager) (ts : list JTask)
  : StateManager :=
  commitBatchUpdate (fold_left queueTask ts (beginBatchUpdate m)).

(** The two stacks together hold no more than the history has room for. *)
Definition historyBounded (m : StateManager) : Prop :=
  (0 <= _maxHistorySize m
   /\ undoStackSize m + redoStackSize m <= _maxHistorySize m)%Z.

(** The public operations that change a manager, [setMaxHistorySize]
    apart, and runs of them. *)
Inductive Operation : Type :=
| Dispatch (a : GanttAction)
| BeginBatchUpdate
| CommitBatchUpdate
| BatchUpdateTasks (ts : list JTask)
| Undo
| Redo
| UpdateScrollPosition (scrollTop : Z)
| UpdateTasks (ts : list JTask)
| UpdateDependencies (ds : list Dependency)
| UpdateConfig (u : ConfigData)
| UpdateViewSettings (u : ViewData)
| ToggleTaskCollapse (taskId : TaskId)
| Subscribe (k : nat)
| ClearHistory.

Definition perform (m : StateManager) (op : Operation) : StateManager :=
  match op with
  | Dispatch a => dispatch m a
  | BeginBatchUpdate => beginBatchUpdate m
  | CommitBatchUpdate => commitBatchUpdate m
  | BatchUpdateTasks ts => batchUpdateTasks m ts
  | Undo => snd (undo m)
  | Redo => snd (redo m)
  | UpdateScrollPosition z => updateScrollPosition m z
  | UpdateTasks ts => updateTasks m ts
  | UpdateDependencies ds => updateDependencies m ds
  | UpdateConfig u => updateConfig m u
  | UpdateViewSettings u => updateViewSettings m u
  | ToggleTaskCollapse x => toggleTaskCollapse m x
  | Subscribe k => subscribe m k
  | ClearHistory => clearHistory m
  end.

Definition performAll (m : StateManager) (ops : list Operation)
  : StateManager :=
  fold_left perform ops m.

(** Two managers with the same stacks and the same bound. *)
Definition sameStacks (m m' : StateManager) : Prop :=
  _history m' = _history m /\ _future m' = _future m
  /\ _maxHistorySize m' = _maxHistorySize m.


End Operations.

End StateManager.

(* ================================================================== *)
(** * Part II: the properties *)
(* ================================================================== *)

Unset Implicit Arguments.

Module StateManagerFacts.
Import Types StateManager.

Section Facts.
Context {D : DerivedCaches}.

Lemma data_metrics (c : Caches) (s : StateManagerState) :
  tasksAndDependencies (_calculateVirtualScrollMetrics c s)
  = tasksAndDependencies s.
Proof. reflexivity. Qed.

Lemma dispatch_idle (m : StateManager) (a : GanttAction) :
  _batchUpdate m = false ->
  dispatch m a
  = _notifySubscribers (_initializeCache (_handleAction (_saveToHistory m) a)).
Proof. intros H. unfold dispatch. now rewrite H. Qed.

Lemma dispatch_idle_batch (m : StateManager) (a : GanttAction) :
  _batchUpdate m = false -> _batchUpdate (dispatch m a) = false.
Proof. intros H. rewrite dispatch_idle by assumption. exact H. Qed.

Lemma dispatch_idle_max (m : StateManager) (a : GanttAction) :
  _batchUpdate m = false ->
  _maxHistorySize (dispatch m a) = _maxHistorySize m.
Proof. intros H. rewrite dispatch_idle by assumption. reflexivity. Qed.

Lemma dispatch_idle_history (m : StateManager) (a : GanttAction) :
  _batchUpdate m = false ->
  _history (dispatch m a)
  = let h := push (_history m) (_state m) in
    if (_maxHistorySize m <? lengthZ h)%Z then shift h else h.
Proof. intros H. rewrite dispatch_idle by assumption. reflexivity. Qed.

Lemma dispatchAll_snoc (m : StateManager) acts a :
  dispatchAll m (acts ++ [a]) = dispatch (dispatchAll m acts) a.
Proof. unfold dispatchAll. now rewrite fold_left_app. Qed.

Lemma dispatchAll_idle (acts : list GanttAction) : forall m : StateManager,
  _batchUpdate m = false ->
  _batchUpdate (dispatchAll m acts) = false
  /\ _maxHistorySize (dispatchAll m acts) = _maxHistorySize m.
Proof.
  induction acts as [|a r IH]; intros m H; simpl; [now split|].
  destruct (IH (dispatch m a) (dispatch_idle_batch m a H)) as [Hb Hm].
  split; [exact Hb|]. rewrite Hm. now apply dispatch_idle_max.
Qed.

Lemma snapshots_snoc (acts : list GanttAction) : forall (m : StateManager) a,
  snapshots m (acts ++ [a]) = snapshots m acts ++ [_state (dispatchAll m acts)].
Proof.
  induction acts as [|b r IH]; intros m a; simpl; [reflexivity|].
  now rewrite IH.
Qed.

Lemma snapshots_length (acts : list GanttAction) : forall m : StateManager,
  length (snapshots m acts) = length acts.
Proof. induction acts; intros; simpl; auto. Qed.

Lemma snapshots_hd (acts : list GanttAction) (m : StateManager) :
  acts <> [] -> hd (_state m) (snapshots m acts) = _state m.
Proof. destruct acts; [congruence|reflexivity]. Qed.

(** While no more dispatches are made than the history can hold, the
    history ends with the snapshots of those dispatches. *)
Lemma history_ends_with_snapshots (acts : list GanttAction) :
  forall m : StateManager,
  _batchUpdate m = false ->
  (lengthZ acts <= _maxHistorySize m)%Z ->
  exists pre, _history (dispatchAll m acts) = pre ++ snapshots m acts.
Proof.
  induction acts as [|a r IH] using rev_ind; intros m Hb Hlen.
  - exists (_history m). simpl. now rewrite app_nil_r.
  - unfold lengthZ in *. rewrite length_app in Hlen. simpl in Hlen.
    destruct (IH m Hb) as [pre Hpre]; [lia|].
    destruct (dispatchAll_idle r m Hb) as [Hb' Hm'].
    rewrite dispatchAll_snoc, snapshots_snoc.
    rewrite dispatch_idle_history by assumption. cbv zeta.
    rewrite Hpre, Hm'. unfold push, lengthZ.
    destruct (_maxHistorySize m <? _)%Z eqn:E.
    + apply Z.ltb_lt in E. rewrite !length_app, snapshots_length in E.
      simpl in E.
      destruct pre as [|p pre']; [simpl in E; lia|].
      exists pre'. unfold shift. simpl. now rewrite app_assoc.
    + exists pre. now rewrite app_assoc.
Qed.

Lemma last_snoc (A : Type) (l : list A) (x d : A) : last (l ++ [x]) d = x.
Proof. apply last_last. Qed.

Lemma undo_snoc (m : StateManager) pre x :
  _history m = pre ++ [x] ->
  exists m', undo m = (true, m')
    /\ _history m' = pre
    /\ tasksAndDependencies (_state m') = tasksAndDependencies x
    /\ _future m' = _future m ++ [_state m].
Proof.
  intros H. unfold undo. rewrite H.
  destruct (pre ++ [x]) as [|h0 hr] eqn:E.
  - destruct pre; discriminate.
  - rewrite <- E. eexists. split; [reflexivity|]. simpl.
    unfold pop. rewrite removelast_last, last_snoc. repeat split.
Qed.

Lemma redo_snoc (m : StateManager) pre x :
  _future m = pre ++ [x] ->
  exists m', redo m = (true, m')
    /\ _future m' = pre
    /\ tasksAndDependencies (_state m') = tasksAndDependencies x
    /\ _history m' = _history m ++ [_state m].
Proof.
  intros H. unfold redo. rewrite H.
  destruct (pre ++ [x]) as [|h0 hr] eqn:E.
  - destruct pre; discriminate.
  - rewrite <- E. eexists. split; [reflexivity|]. simpl.
    unfold pop. rewrite removelast_last, last_snoc. repeat split.
Qed.

(** [n] undos pop the [n] last snapshots: the state is the oldest of them,
    and the states left behind are stacked on the redo stack. *)
Lemma undoN_spec (L : list StateManagerState) : forall (m : StateManager) pre,
  _history m = pre ++ L ->
  exists m', undoN (length L) m = (true, m')
    /\ _history m' = pre
    /\ tasksAndDependencies (_state m')
       = hd (tasksAndDependencies (_state m)) (datas L)
    /\ exists suf, _future m' = _future m ++ suf
         /\ datas suf = rev (tl (datas L ++ [tasksAndDependencies (_state m)])).
Proof.
  induction L as [|x L' IH] using rev_ind; intros m pre H.
  - exists m. simpl. rewrite app_nil_r in H. repeat split; auto.
    exists []. now rewrite app_nil_r.
  - rewrite length_app, Nat.add_comm. simpl.
    rewrite app_assoc in H.
    destruct (undo_snoc m _ _ H) as (m1 & U & H1 & S1 & F1).
    rewrite U.
    destruct (IH m1 pre H1) as (m2 & U2 & H2 & S2 & suf & F2 & Dsuf).
    rewrite U2. exists m2. split; [reflexivity|]. split; [exact H2|].
    unfold datas in *. rewrite map_app. simpl. split.
    + rewrite S2. destruct L' as [|y L'']; simpl; auto.
    + exists (_state m :: suf). split.
      * rewrite F2, F1, <- app_assoc. reflexivity.
      * simpl. rewrite Dsuf, S1.
        destruct L' as [|y L'']; simpl.
        -- reflexivity.
        -- rewrite <- !app_assoc. simpl. rewrite !rev_app_distr. reflexivity.
Qed.

Lemma redoN_spec (L : list StateManagerState) : forall (m : StateManager) pre,
  _future m = pre ++ L ->
  exists m', redoN (length L) m = (true, m')
    /\ _future m' = pre
    /\ tasksAndDependencies (_state m')
       = hd (tasksAndDependencies (_state m)) (datas L).
Proof.
  induction L as [|x L' IH] using rev_ind; intros m pre H.
  - exists m. simpl. rewrite app_nil_r in H. repeat split; auto.
  - rewrite length_app, Nat.add_comm. simpl.
    rewrite app_assoc in H.
    destruct (redo_snoc m _ _ H) as (m1 & U & H1 & S1 & F1).
    rewrite U.
    destruct (IH m1 pre H1) as (m2 & U2 & H2 & S2).
    rewrite U2. exists m2. split; [reflexivity|]. split; [exact H2|].
    unfold datas in *. rewrite map_app. simpl.
    rewrite S2. destruct L' as [|y L'']; simpl; auto.
Qed.


Lemma lengthZ_shift_push (A : Type) (h : list A) (x : A) :
  lengthZ (shift (push h x)) = lengthZ h.
Proof.
  unfold lengthZ, shift, push. f_equal.
  destruct h; simpl; [reflexivity|]. rewrite length_app. simpl. lia.
Qed.




(** C10.  Committing when the manager is not batching, or when nothing was
    queued, clears the batching flag and does nothing else: state, history,
    redo stack, caches and queue are as before and no subscriber is
    called. *)
Theorem commit_without_actions_is_silent (m : StateManager) :
  _batchUpdate m = false \/ _pendingActions m = [] ->
  _batchUpdate (commitBatchUpdate m) = false
  /\ _state (commitBatchUpdate m) = _state m
  /\ _history (commitBatchUpdate m) = _history m
  /\ _future (commitBatchUpdate m) = _future m
  /\ _caches (commitBatchUpdate m) = _caches m
  /\ delivered (commitBatchUpdate m) = delivered m
  /\ _subscribers (commitBatchUpdate m) = _subscribers m
  /\ _pendingActions (commitBatchUpdate m) = _pendingActions m
  /\ _maxHistorySize (commitBatchUpdate m) = _maxHistorySize m.
Proof.
  intros H.
  assert (E : commitBatchUpdate m = set_batch m false (_pendingActions m)).
  { unfold commitBatchUpdate.
    destruct H as [H|H]; rewrite H; simpl; [reflexivity|].
    now rewrite orb_true_r. }
  rewrite E. repeat split.
Qed.

(** Whatever the caches hold, one dispatch, one undo and one redo end on
    the state reached by the dispatch. *)
Lemma redo_returns_to_the_dispatched_state (m : StateManager) (t : JTask) :
  _batchUpdate m = false ->
  (1 <= _maxHistorySize m)%Z ->
  tasks (_state (snd (redoN 1 (snd (undoN 1 (dispatchAll m [ADD_TASK t]))))))
  = tasks (_state m) ++ [t].
Proof.
  intros Hb Hmax.
  assert (E : tasksAndDependencies
                (_state (snd (redoN 1 (snd (undoN 1
                   (dispatchAll m [ADD_TASK t]))))))
              = tasksAndDependencies (_state (dispatchAll m [ADD_TASK t]))).
  { destruct (history_ends_with_snapshots [ADD_TASK t] m Hb Hmax) as [pre Hpre].
    destruct (undoN_spec _ _ _ Hpre) as (m2 & U & H2 & S2 & suf & F2 & Dsuf).
    change (length (snapshots m [ADD_TASK t])) with 1%nat in U.
    rewrite U. cbn [snd].
    assert (Hsuf : length suf = 1%nat).
    { unfold datas in Dsuf. apply (f_equal (@length _)) in Dsuf.
      rewrite length_map, length_rev in Dsuf. exact Dsuf. }
    destruct (redoN_spec _ _ _ F2) as (m3 & R & _ & S3).
    rewrite Hsuf in R. rewrite R. cbn [snd].
    rewrite S3, Dsuf, S2. reflexivity. }
  apply (f_equal fst) in E. unfold tasksAndDependencies in E.
  cbn [fst] in E. rewrite E.
  unfold dispatchAll. simpl. unfold dispatch. rewrite Hb. reflexivity.
Qed.

End Facts.





Lemma commit_without_actions_is_silent_witness :
  (_batchUpdate (beginBatchUpdate freshManager) = false
   \/ _pendingActions (beginBatchUpdate freshManager) = [])
  /\ _history (commitBatchUpdate (beginBatchUpdate freshManager))
     = _history (beginBatchUpdate freshManager).
Proof.
  split; [right; reflexivity|].
  apply (commit_without_actions_is_silent (beginBatchUpdate freshManager)).
  right; reflexivity.
Defined.

End StateManagerFacts.

Module DateFacts.
Import Types DateUtils.
Local Open Scope Z_scope.

Lemma allFrom_spec (f : Z -> bool) (n : nat) : forall z i,
  allFrom f n z = true -> z <= i < z + Z.of_nat n -> f i = true.
Proof.
  induction n as [|k IH]; intros z i Ha Hi; [lia|].
  simpl in Ha. apply andb_true_iff in Ha. destruct Ha as [Hz Hr].
  destruct (Z.eq_dec i z) as [->|Hne]; [exact Hz|].
  apply (IH (z + 1)); [exact Hr|lia].
Qed.

Lemma cycle_checked : allFrom cycleDayOk (Z.to_nat 146097) 0 = true.
Proof. vm_compute. reflexivity. Qed.

Lemma cycleDayOk_all (doe : Z) : 0 <= doe < 146097 -> cycleDayOk doe = true.
Proof.
  intros Hr. apply (allFrom_spec _ _ 0 doe cycle_checked).
  rewrite Z2Nat.id; lia.
Qed.

(** The two calendar conversions are inverse to each other on day numbers. *)
Lemma days_from_civil_from_days (z : Z) :
  let '(y, m, d) := civil_from_days z in
  days_from_civil y m d = z /\ 1 <= m <= 12 /\ 1 <= d <= 31.
Proof.
  unfold civil_from_days.
  assert (Hr : 0 <= (z + 719468) mod 146097 < 146097)
    by (apply Z.mod_pos_bound; lia).
  pose proof (cycleDayOk_all _ Hr) as Hok. unfold cycleDayOk in Hok.
  destruct (civil_of_doe ((z + 719468) mod 146097)) as [[yoe m] d].
  repeat rewrite andb_true_iff in Hok.
  destruct Hok as [[[[[[H1 H2] H3] H4] H5] H6] H7].
  apply Z.leb_le in H1, H2, H3, H4, H5, H6. apply Z.eqb_eq in H7.
  split; [|lia].
  unfold days_from_civil.
  assert (E : (if m <=? 2
               then yoe + (z + 719468) / 146097 * 400
                    + (if m <=? 2 then 1 else 0) - 1
               else yoe + (z + 719468) / 146097 * 400
                    + (if m <=? 2 then 1 else 0))
              = yoe + (z + 719468) / 146097 * 400)
    by (destruct (m <=? 2); lia).
  rewrite E.
  rewrite Z.div_add by lia. rewrite (Z.div_small yoe 400) by lia.
  replace (yoe + (z + 719468) / 146097 * 400
           - (0 + (z + 719468) / 146097) * 400) with yoe by lia.
  rewrite H7.
  pose proof (Z.div_mod (z + 719468) 146097). lia.
Qed.

Lemma days_from_civil_linear (y m d : Z) :
  days_from_civil y m d = days_from_civil y m 1 + d - 1.
Proof. unfold days_from_civil, doe_of_civil. lia. Qed.

Lemma MakeDay_in_month (y m n : Z) :
  1 <= m <= 12 -> MakeDay y (m - 1) n = days_from_civil y m 1 + n - 1.
Proof.
  intros Hm. unfold MakeDay.
  rewrite (Z.div_small (m - 1) 12) by lia.
  rewrite (Z.mod_small (m - 1) 12) by lia.
  replace (y + 0) with y by lia. replace (m - 1 + 1) with m by lia.
  reflexivity.
Qed.

(** Years from 1600 on are read as they stand. *)
Lemma year_of_recent_day (z : Z) :
  -135080 <= z -> let '(y, _, _) := civil_from_days z in fullYear y = y.
Proof.
  intros Hz. unfold civil_from_days.
  assert (Hr : 0 <= (z + 719468) mod 146097 < 146097)
    by (apply Z.mod_pos_bound; lia).
  pose proof (cycleDayOk_all _ Hr) as Hok. unfold cycleDayOk in Hok.
  destruct (civil_of_doe ((z + 719468) mod 146097)) as [[yoe m] d].
  repeat rewrite andb_true_iff in Hok.
  destruct Hok as [[[[[[H1 H2] H3] H4] H5] H6] H7].
  apply Z.leb_le in H1.
  assert (He : 4 <= (z + 719468) / 146097)
    by (apply Z.div_le_lower_bound; lia).
  unfold fullYear.
  destruct (m <=? 2);
    match goal with
    | |- (if (0 <=? ?a) && (?a <=? 99) then _ else _) = _ =>
        assert (Hb : (a <=? 99) = false) by (apply Z.leb_gt; lia);
        rewrite Hb, andb_false_r; reflexivity
    end.
Qed.

Section WithHost.
Context {H : Host}.





Lemma Date_UTC_of_local (t : Z) :
  -135080 <= localDay t ->
  Date_UTC (getFullYear (Some t)) (getMonth (Some t)) (getDate (Some t))
  = Some (localDay t * msPerDay).
Proof.
  intros Hz. unfold Date_UTC, getFullYear, getMonth, getDate, option_map.
  pose proof (days_from_civil_from_days (localDay t)) as Hc.
  pose proof (year_of_recent_day (localDay t) Hz) as Hy.
  destruct (civil_from_days (localDay t)) as [[y m] d].
  destruct Hc as (Hd & Hm & _).
  rewrite Hy, MakeDay_in_month by exact Hm.
  rewrite days_from_civil_linear in Hd. f_equal. lia.
Qed.

(** Between two dates from 1600 on, [daysBetween] is the difference of
    their local day numbers. *)
Lemma daysBetween_valid (s e : Z) :
  -135080 <= localDay s -> -135080 <= localDay e ->
  daysBetween (Obj (Some s)) (Obj (Some e)) = Some (localDay e - localDay s).
Proof.
  intros Hs He. unfold daysBetween, toDate.
  rewrite (Date_UTC_of_local s Hs), (Date_UTC_of_local e He).
  unfold numSub, option_map. f_equal.
  replace (localDay e * msPerDay - localDay s * msPerDay)
    with ((localDay e - localDay s) * msPerDay) by lia.
  apply Z.div_mul. unfold msPerDay. lia.
Qed.

End WithHost.

End DateFacts.

Module TaskManagerFacts.
Import Types DateUtils TaskManager.

Lemma TaskId_eqb_eq (a b : TaskId) : TaskId_eqb a b = true <-> a = b.
Proof.
  destruct a, b; simpl; try (split; [discriminate|congruence]).
  - rewrite Z.eqb_eq. split; congruence.
  - rewrite String.eqb_eq. split; congruence.
Qed.

Lemma TaskId_eqb_refl (a : TaskId) : TaskId_eqb a a = true.
Proof. now apply TaskId_eqb_eq. Qed.

Lemma TaskId_eqb_sym (a b : TaskId) : TaskId_eqb a b = TaskId_eqb b a.
Proof.
  destruct (TaskId_eqb a b) eqn:E.
  - apply TaskId_eqb_eq in E. subst. now rewrite TaskId_eqb_refl.
  - destruct (TaskId_eqb b a) eqn:E'; [|reflexivity].
    apply TaskId_eqb_eq in E'. subst. now rewrite TaskId_eqb_refl in E.
Qed.

Lemma setHas_In (s : list TaskId) (k : TaskId) : setHas s k = true <-> In k s.
Proof.
  unfold setHas. rewrite existsb_exists. split.
  - intros (x & Hx & E). apply TaskId_eqb_eq in E. now subst.
  - intros Hk. exists k. split; [exact Hk|apply TaskId_eqb_refl].
Qed.

Lemma setHas_false (s : list TaskId) (k : TaskId) :
  setHas s k = false <-> ~ In k s.
Proof.
  rewrite <- setHas_In. destruct (setHas s k); split; congruence.
Qed.

Lemma setAdd_In (s : list TaskId) (k x : TaskId) :
  In x (setAdd s k) <-> x = k \/ In x s.
Proof.
  unfold setAdd. destruct (setHas s k) eqn:E.
  - apply setHas_In in E. split; [auto|]. intros [->|Hx]; assumption.
  - rewrite in_app_iff. simpl. split; [intros [Hx|[Hx|[]]]|intros [Hx|Hx]]; auto.
Qed.

(** *** Heaps that agree on the ids of their objects *)

Lemma sameIds_refl (h : list TaskObj) : sameIds h h.
Proof. intros a. reflexivity. Qed.

Lemma sameIds_trans (h1 h2 h3 : list TaskObj) :
  sameIds h1 h2 -> sameIds h2 h3 -> sameIds h1 h3.
Proof. intros A B a. now rewrite A, B. Qed.

Lemma nth_error_setAt_same (A : Type) (l : list A) : forall i (v : A),
  (i < length l)%nat -> nth_error (setAt i v l) i = Some v.
Proof.
  induction l as [|x r IH]; intros [|i] v Hi; simpl in *; try lia; auto.
  apply IH. lia.
Qed.

Lemma nth_error_setAt_other (A : Type) (l : list A) : forall i j (v : A),
  i <> j -> nth_error (setAt i v l) j = nth_error l j.
Proof.
  induction l as [|x r IH]; intros [|i] [|j] v Hij; simpl; auto; try congruence.
Qed.

Lemma length_setAt (A : Type) (l : list A) : forall i (v : A),
  length (setAt i v l) = length l.
Proof. induction l as [|x r IH]; intros [|i] v; simpl; auto. Qed.

Lemma sameIds_setAt (h : list TaskObj) (a : addr) (t t' : TaskObj) :
  deref h a = Some t -> id t' = id t -> sameIds h (setAt a t' h).
Proof.
  intros Ha Hid b. unfold deref in *.
  destruct (Nat.eq_dec a b) as [->|Hne].
  - rewrite nth_error_setAt_same, Ha; [simpl; now rewrite Hid|].
    apply nth_error_Some. congruence.
  - now rewrite nth_error_setAt_other.
Qed.

Lemma objects_In (h : list TaskObj) (l : list addr) (a : addr) (t : TaskObj) :
  In (a, t) (objects h l) -> deref h a = Some t.
Proof.
  induction l as [|b r IH]; simpl; [tauto|].
  destruct (deref h b) eqn:E; [|exact IH].
  intros [Heq|Hin]; [congruence|auto].
Qed.

Lemma objects_ids (h h' : list TaskObj) (l : list addr) :
  sameIds h h' ->
  map (fun o => id (snd o)) (objects h l) = map (fun o => id (snd o)) (objects h' l)
  /\ map fst (objects h l) = map fst (objects h' l).
Proof.
  intros S. induction l as [|a r [IH1 IH2]]; simpl; [split; reflexivity|].
  specialize (S a).
  destruct (deref h a) eqn:E, (deref h' a) eqn:E'; simpl in *; try discriminate.
  - injection S as S. rewrite S, IH1, IH2. split; reflexivity.
  - split; assumption.
Qed.

Lemma findIn_deref (h : list TaskObj) (l : list addr) (x : TaskId) a t :
  findIn h l x = Some (a, t) -> deref h a = Some t.
Proof.
  unfold findIn. intros F. apply find_some in F. destruct F as [F _].
  eapply objects_In; eauto.
Qed.

Lemma sameIds_clearLinks (l : list addr) : forall h, sameIds h (clearLinks h l).
Proof.
  unfold clearLinks.
  induction l as [|a r IH]; intros h; simpl; [apply sameIds_refl|].
  destruct (deref h a) eqn:E.
  - eapply sameIds_trans; [|apply IH]. eapply sameIds_setAt; eauto.
  - apply IH.
Qed.

Lemma sameIds_linkOne (l : list addr) (h : list TaskObj) (d : Dependency) :
  sameIds h (linkOne l h d).
Proof.
  unfold linkOne.
  set (h1 := match findIn h l (fromId d) with
             | Some (a, fromTask) => _
             | None => h
             end).
  assert (S1 : sameIds h h1).
  { unfold h1. destruct (findIn h l (fromId d)) as [[a t]|] eqn:F;
      [|apply sameIds_refl].
    eapply sameIds_setAt; [eapply findIn_deref; eauto|reflexivity]. }
  destruct (findIn h1 l (toId d)) as [[a t]|] eqn:F; [|exact S1].
  eapply sameIds_trans; [exact S1|].
  eapply sameIds_setAt; [eapply findIn_deref; eauto|reflexivity].
Qed.

Lemma sameIds_links (l : list addr) (ds : list Dependency) : forall h,
  sameIds h (fold_left (linkOne l) ds h).
Proof.
  induction ds as [|d r IH]; intros h; simpl; [apply sameIds_refl|].
  eapply sameIds_trans; [apply sameIds_linkOne|apply IH].
Qed.

Lemma updateTaskDependencies_frame (tm : TaskManager) :
  taskIds (_updateTaskDependencies tm) = taskIds tm
  /\ tasks (_updateTaskDependencies tm) = tasks tm
  /\ dependencies (_updateTaskDependencies tm) = dependencies tm
  /\ options (_updateTaskDependencies tm) = options tm
  /\ nextDep (_updateTaskDependencies tm) = nextDep tm
  /\ nextId (_updateTaskDependencies tm) = nextId tm.
Proof.
  repeat split.
  unfold taskIds, taskObjects, _updateTaskDependencies. simpl.
  symmetry. apply objects_ids.
  eapply sameIds_trans; [apply sameIds_clearLinks|apply sameIds_links].
Qed.

(** *** Loops *)

Lemma someM_total (A S : Type) (body : A -> S -> option (bool * S))
      (P : S -> Prop) (l : list A) : forall st,
  (forall x st, In x l -> P st -> exists b st', body x st = Some (b, st') /\ P st') ->
  P st ->
  exists b st', someM body l st = Some (b, st') /\ P st'.
Proof.
  induction l as [|x r IH]; intros st Hb Hp; simpl.
  - exists false, st. split; [reflexivity|exact Hp].
  - destruct (Hb x st (or_introl eq_refl) Hp) as (b & st' & E & Hp').
    rewrite E. destruct b.
    + exists true, st'. split; [reflexivity|exact Hp'].
    + apply IH; [|exact Hp']. intros y s Hy. apply Hb. now right.
Qed.

Lemma forEachM_total (A S : Type) (body : A -> S -> option S)
      (P : S -> Prop) (l : list A) : forall st,
  (forall x st, In x l -> P st -> exists st', body x st = Some st' /\ P st') ->
  P st ->
  exists st', forEachM body l st = Some st' /\ P st'.
Proof.
  induction l as [|x r IH]; intros st Hb Hp; simpl.
  - exists st. split; [reflexivity|exact Hp].
  - destruct (Hb x st (or_introl eq_refl) Hp) as (st' & E & Hp').
    rewrite E. apply IH; [|exact Hp']. intros y s Hy. apply Hb. now right.
Qed.

(** *** The depth of the searches *)

Lemma unvisited_mono (U v v' : list TaskId) :
  incl v v' -> (unvisited U v' <= unvisited U v)%nat.
Proof.
  intros Hi. unfold unvisited. induction U as [|u r IH]; simpl; [lia|].
  destruct (setHas v u) eqn:E; simpl.
  - apply setHas_In in E. apply Hi in E. apply setHas_In in E.
    rewrite E. simpl. exact IH.
  - destruct (setHas v' u); simpl; lia.
Qed.

Lemma unvisited_strict (U v v' : list TaskId) (x : TaskId) :
  incl v v' -> In x U -> ~ In x v -> In x v' ->
  (unvisited U v' < unvisited U v)%nat.
Proof.
  intros Hi Hu Hv Hv'. unfold unvisited.
  induction U as [|u r IH]; simpl; [destruct Hu|].
  pose proof (unvisited_mono r v v' Hi) as Hm. unfold unvisited in Hm.
  destruct Hu as [->|Hu].
  - apply setHas_false in Hv. apply setHas_In in Hv'.
    rewrite Hv, Hv'. simpl. lia.
  - specialize (IH Hu).
    destruct (setHas v u) eqn:E; simpl.
    + apply setHas_In in E. apply Hi in E. apply setHas_In in E.
      rewrite E. simpl. exact IH.
    + destruct (setHas v' u); simpl; lia.
Qed.

Lemma unvisited_le (U v : list TaskId) : (unvisited U v <= length U)%nat.
Proof. unfold unvisited. apply filter_length_le. Qed.

Lemma graphGet_graphAdd (g : Graph) (a b k y : TaskId) :
  In y (graphGet (graphAdd g a b) k) -> y = b \/ In y (graphGet g k).
Proof.
  induction g as [|[k' l] r IH]; simpl.
  - destruct (TaskId_eqb a k); simpl; [intros [<-|[]]; auto|tauto].
  - destruct (TaskId_eqb k' a) eqn:E; simpl.
    + destruct (TaskId_eqb k' k); [|auto].
      unfold push. rewrite in_app_iff. simpl. intros [Hy|[<-|[]]]; auto.
    + destruct (TaskId_eqb k' k); auto.
Qed.

Lemma graphGet_buildGraph (deps : list Dependency) (k y : TaskId) :
  In y (graphGet (buildGraph deps) k) -> In y (map toId deps).
Proof.
  unfold buildGraph.
  assert (G : forall g,
             In y (graphGet (fold_left (fun g dep => graphAdd g (fromId dep) (toId dep))
                                       deps g) k) ->
             In y (graphGet g k) \/ In y (map toId deps)).
  { induction deps as [|d r IH]; intros g; simpl; [auto|].
    intros Hy. destruct (IH _ Hy) as [Hg|Hr]; [|auto].
    apply graphGet_graphAdd in Hg. destruct Hg as [->|Hg]; auto. }
  intros Hy. destruct (G [] Hy) as [[]|Hr]. exact Hr.
Qed.

(** [hasCycle] returns whenever its fuel exceeds the number of ids it has
    yet to visit; it only adds to the visited set. *)
Lemma hasCycle_total (graph : Graph) (U : list TaskId) :
  (forall k y, In y (graphGet graph k) -> In y U) ->
  forall fuel x st,
    In x U -> (unvisited U (fst st) < fuel)%nat ->
    exists b st', hasCycle fuel graph x st = Some (b, st')
                  /\ incl (fst st) (fst st').
Proof.
  intros Hg. induction fuel as [|f IH]; intros x st Hx Hf; [lia|].
  simpl.
  destruct (setHas (snd st) x) eqn:Es.
  { exists true, st. split; [reflexivity|apply incl_refl]. }
  destruct (setHas (fst st) x) eqn:Ev.
  { exists false, st. split; [reflexivity|apply incl_refl]. }
  apply setHas_false in Ev.
  assert (Hadd : incl (fst st) (setAdd (fst st) x)).
  { intros y Hy. apply setAdd_In. now right. }
  assert (Hlt : (unvisited U (setAdd (fst st) x) < f)%nat).
  { pose proof (unvisited_strict U (fst st) (setAdd (fst st) x) x Hadd Hx Ev) as Hs.
    assert (In x (setAdd (fst st) x)) by (apply setAdd_In; now left).
    specialize (Hs H). lia. }
  destruct (someM_total _ _ (hasCycle f graph)
              (fun s => incl (setAdd (fst st) x) (fst s))
              (graphGet graph x)
              (setAdd (fst st) x, setAdd (snd st) x)) as (b & st' & E & Hp).
  - intros y s Hy Hs.
    destruct (IH y s (Hg _ _ Hy)) as (b & s' & E & Hi).
    + pose proof (unvisited_mono U _ _ Hs). lia.
    + exists b, s'. split; [exact E|]. eapply incl_tran; eauto.
  - apply incl_refl.
  - rewrite E. destruct b.
    + exists true, st'. split; [reflexivity|]. eapply incl_tran; eauto.
    + destruct st' as [v s]. exists false, (v, setDelete s x).
      split; [reflexivity|]. simpl. eapply incl_tran; eauto.
Qed.

(** The cycle check always returns. *)
Lemma checkGraph_total (ids : list TaskId) (deps : list Dependency) :
  exists b, checkGraph ids deps = Some b.
Proof.
  unfold checkGraph, checkFrom.
  set (U := ids ++ map toId deps).
  assert (HU : length U = (length ids + length deps)%nat)
    by (unfold U; now rewrite length_app, length_map).
  destruct (someM_total _ _ (hasCycle (S (length ids + length deps)) (buildGraph deps))
              (fun _ => True) ids ([], [])) as (b & st' & E & _).
  - intros x st Hx _.
    destruct (hasCycle_total (buildGraph deps) U) with
      (fuel := S (length ids + length deps)) (x := x) (st := st)
      as (b & st' & E & _).
    + intros k y Hy. unfold U. apply in_app_iff. right.
      eapply graphGet_buildGraph; eauto.
    + unfold U. apply in_app_iff. now left.
    + pose proof (unvisited_le U (fst st)). lia.
    + exists b, st'. split; [exact E|exact I].
  - exact I.
  - rewrite E. exists b. reflexivity.
Qed.

(** With no dependency there is no cycle to find. *)
Lemma checkGraph_no_dependencies (ids : list TaskId) :
  checkGraph ids [] = Some false.
Proof.
  unfold checkGraph, checkFrom, buildGraph. cbn [fold_left length].
  generalize (length ids + 0)%nat. intros n.
  assert (G : forall v, exists v',
             someM (hasCycle (S n) []) ids (v, []) = Some (false, (v', []))).
  { induction ids as [|x r IH]; intros v.
    - exists v. reflexivity.
    - cbn [someM hasCycle snd fst setHas existsb graphGet someM].
      destruct (existsb (TaskId_eqb x) v) eqn:E.
      + apply IH.
      + cbn [setAdd setHas existsb]. unfold setDelete. simpl.
        rewrite TaskId_eqb_refl. simpl. apply IH. }
  destruct (G []) as [v' E]. rewrite E. reflexivity.
Qed.

(** *** [createDependency] *)


Lemma findTask_ids (tm : TaskManager) (x : TaskId) :
  findTask tm x <> None <-> In x (taskIds tm).
Proof.
  unfold findTask, taskIds. split.
  - destruct (find _ _) as [o|] eqn:F; [intros _|intros N; now elim N].
    apply find_some in F. destruct F as [Hin E].
    apply TaskId_eqb_eq in E. subst x.
    apply in_map_iff. exists o. split; [reflexivity|exact Hin].
  - intros Hin. apply in_map_iff in Hin. destruct Hin as (o & E & Hin).
    destruct (find _ _) eqn:F; [congruence|].
    eapply find_none in F; [|exact Hin]. simpl in F.
    rewrite E, TaskId_eqb_refl in F. discriminate.
Qed.


Lemma withDependency_frame (tm : TaskManager) (d : addr * Dependency) :
  taskIds (withDependency tm d) = taskIds tm
  /\ dependencies (withDependency tm d) = push (dependencies tm) d
  /\ options (withDependency tm d) = options tm.
Proof.
  unfold withDependency.
  destruct (updateTaskDependencies_frame
              (mkTaskManager (heap tm) (tasks tm) (push (dependencies tm) d)
                             (S (nextDep tm)) (options tm) (nextId tm)))
    as (A & _ & B & C & _).
  rewrite A, B, C. repeat split.
Qed.

Lemma rolledBack_frame (tm : TaskManager) (d : addr * Dependency) :
  taskIds (rolledBack (withDependency tm d)) = taskIds tm
  /\ dependencies (rolledBack (withDependency tm d)) = dependencies tm
  /\ options (rolledBack (withDependency tm d)) = options tm.
Proof.
  destruct (withDependency_frame tm d) as (A & B & C).
  unfold rolledBack.
  destruct (updateTaskDependencies_frame
              (mkTaskManager (heap (withDependency tm d))
                             (tasks (withDependency tm d))
                             (pop (dependencies (withDependency tm d)))
                             (nextDep (withDependency tm d))
                             (options (withDependency tm d))
                             (nextId (withDependency tm d))))
    as (A' & _ & B' & C' & _).
  split; [|split].
  - rewrite A'. exact A.
  - rewrite B'. cbn [dependencies]. rewrite B. apply removelast_last.
  - rewrite C'. cbn [options]. exact C.
Qed.

(** The outcomes of [createDependency]. *)
Lemma createDependency_unfold (tm : TaskManager) (from to : TaskId)
      (ty : DependencyType) (lag : Z) :
  createDependency tm from to ty lag
  = match findTask tm from, findTask tm to with
    | Some _, Some _ =>
        match find (sameDependency from to ty) (dependencies tm) with
        | Some existing => Some (Some existing, tm)
        | None =>
            let d := (nextDep tm, mkDependency from to ty (Some lag)) in
            if checkCircularDependencies_opt (options tm) then
              match checkCircularDependencies (withDependency tm d) with
              | Some true => Some (None, rolledBack (withDependency tm d))
              | Some false => Some (Some d, withDependency tm d)
              | None => None
              end
            else Some (Some d, withDependency tm d)
        end
    | _, _ => Some (None, tm)
    end.
Proof. reflexivity. Qed.

Lemma createDependency_step (tm : TaskManager) (from to : TaskId)
      (ty : DependencyType) (lag : Z) :
  checkCircularDependencies_opt (options tm) = true ->
  checkCircularDependencies tm = Some false ->
  exists res tm',
    createDependency tm from to ty lag = Some (res, tm')
    /\ checkCircularDependencies_opt (options tm') = true
    /\ checkCircularDependencies tm' = Some false
    /\ taskIds tm' = taskIds tm
    /\ (res = None -> dependencies tm' = dependencies tm).
Proof.
  intros Ho Hc. rewrite createDependency_unfold.
  destruct (findTask tm from); [|exists None, tm; auto].
  destruct (findTask tm to); [|exists None, tm; auto].
  destruct (find _ (dependencies tm)) as [e|];
    [exists (Some e), tm; repeat split; auto; discriminate|].
  cbv zeta. rewrite Ho.
  set (d := (nextDep tm, mkDependency from to ty (Some lag))).
  destruct (withDependency_frame tm d) as (A & B & C).
  destruct (rolledBack_frame tm d) as (A' & B' & C').
  destruct (checkGraph_total (taskIds (withDependency tm d))
                             (getDependencies (withDependency tm d)))
    as [b Hb].
  unfold checkCircularDependencies at 1. rewrite Hb. destruct b.
  - exists None, (rolledBack (withDependency tm d)).
    split; [reflexivity|]. split; [now rewrite C'|]. split.
    + unfold checkCircularDependencies, getDependencies.
      rewrite A', B'. exact Hc.
    + split; [exact A'|intros _; exact B'].
  - exists (Some d), (withDependency tm d).
    split; [reflexivity|]. split; [now rewrite C|]. split; [exact Hb|].
    split; [exact A|discriminate].
Qed.




(** *** [createTask] *)

Lemma objects_app (h : list TaskObj) (l l' : list addr) :
  objects h (l ++ l') = objects h l ++ objects h l'.
Proof.
  induction l as [|a r IH]; simpl; [reflexivity|].
  destruct (deref h a); simpl; now rewrite IH.
Qed.

Lemma objects_heap_app (h h' : list TaskObj) (l : list addr) :
  Forall (fun a => (a < length h)%nat) l -> objects (h ++ h') l = objects h l.
Proof.
  induction 1 as [|a r Ha _ IH]; simpl; [reflexivity|].
  unfold deref. rewrite nth_error_app1 by exact Ha. now rewrite IH.
Qed.

Lemma objects_length (h : list TaskObj) (l : list addr) :
  (length (objects h l) <= length l)%nat.
Proof.
  induction l as [|a r IH]; simpl; [lia|]. destruct (deref h a); simpl; lia.
Qed.

Lemma updateParent_frame (tm : TaskManager) (p : TaskId) :
  sameIds (heap tm) (heap (_updateParentTaskChildren tm p))
  /\ length (heap (_updateParentTaskChildren tm p)) = length (heap tm)
  /\ tasks (_updateParentTaskChildren tm p) = tasks tm
  /\ dependencies (_updateParentTaskChildren tm p) = dependencies tm
  /\ options (_updateParentTaskChildren tm p) = options tm
  /\ nextId (_updateParentTaskChildren tm p) = nextId tm.
Proof.
  unfold _updateParentTaskChildren.
  destruct (findTask tm p) as [[a t]|] eqn:F.
  - split; [|simpl; rewrite length_setAt; repeat split].
    simpl. apply (sameIds_setAt (heap tm) a t); [|reflexivity].
    unfold findTask in F. apply find_some in F. destruct F as [F _].
    eapply objects_In; eauto.
  - split; [apply sameIds_refl|repeat split].
Qed.

Lemma filter_length_mono (A : Type) (f g : A -> bool) (l : list A) :
  (forall y, g y = true -> f y = true) ->
  (length (filter g l) <= length (filter f l))%nat.
Proof.
  intros Hfg. induction l as [|z r IH]; simpl; [lia|].
  destruct (g z) eqn:G; [rewrite (Hfg _ G); simpl; lia|].
  destruct (f z); simpl; lia.
Qed.

Lemma filter_length_strict (A : Type) (f g : A -> bool) (l : list A) (x : A) :
  (forall y, g y = true -> f y = true) ->
  In x l -> f x = true -> g x = false ->
  (length (filter g l) < length (filter f l))%nat.
Proof.
  intros Hfg. induction l as [|y r IH]; simpl; [tauto|].
  pose proof (filter_length_mono A f g r Hfg) as Hle.
  intros [->|Hin] Hf Hg.
  - rewrite Hf, Hg. simpl. lia.
  - specialize (IH Hin Hf Hg).
    destruct (g y) eqn:G; [rewrite (Hfg _ G); simpl; lia|].
    destruct (f y); simpl; lia.
Qed.

(** The id that [_generateId] settles on is free, and every number it
    stepped over is in use. *)
Lemma generateIdFrom_spec (ids : list TaskId) : forall fuel n,
  (length (filter (idIsNumAtLeast n) ids) < fuel)%nat ->
  (n <= generateIdFrom fuel ids n)%Z
  /\ ~ In (IdNum (generateIdFrom fuel ids n)) ids
  /\ forall j, (n <= j < generateIdFrom fuel ids n)%Z -> In (IdNum j) ids.
Proof.
  induction fuel as [|f IH]; intros n Hf; [lia|]. simpl.
  destruct (existsb (TaskId_eqb (IdNum n)) ids) eqn:E.
  - assert (Hin : In (IdNum n) ids) by (apply setHas_In; exact E).
    destruct (IH (n + 1)%Z) as (A & B & C).
    + pose proof (filter_length_strict _ (idIsNumAtLeast n)
                    (idIsNumAtLeast (n + 1)) ids (IdNum n)) as Hs.
      assert ((length (filter (idIsNumAtLeast (n + 1)) ids)
               < length (filter (idIsNumAtLeast n) ids))%nat).
      { apply Hs; auto.
        - intros [k|s]; simpl; [|discriminate].
          rewrite !Z.leb_le. lia.
        - simpl. apply Z.leb_le. lia.
        - simpl. apply Z.leb_gt. lia. }
      lia.
    + split; [lia|]. split; [exact B|].
      intros j Hj. destruct (Z.eq_dec j n) as [->|Hne]; [exact Hin|].
      apply C. lia.
  - split; [lia|]. split; [|intros j Hj; lia].
    apply setHas_false. exact E.
Qed.

Lemma generateId_spec (tm : TaskManager) :
  (nextId tm <= _generateId tm)%Z
  /\ ~ In (IdNum (_generateId tm)) (taskIds tm)
  /\ forall j, (nextId tm <= j < _generateId tm)%Z -> In (IdNum j) (taskIds tm).
Proof.
  unfold _generateId. apply generateIdFrom_spec.
  assert (Hl : (length (taskIds tm) <= length (tasks tm))%nat).
  { unfold taskIds, taskObjects. rewrite length_map. apply objects_length. }
  pose proof (filter_length_le (idIsNumAtLeast (nextId tm)) (taskIds tm)).
  lia.
Qed.

Section WithHost.
Context {H : Host}.

Lemma chooseId_spec (tm : TaskManager) (d : TaskData (list addr)) :
  fst (chooseId tm d) = assignedId tm d
  /\ heap (snd (chooseId tm d)) = heap tm
  /\ tasks (snd (chooseId tm d)) = tasks tm
  /\ dependencies (snd (chooseId tm d)) = dependencies tm
  /\ options (snd (chooseId tm d)) = options tm
  /\ nextId (snd (chooseId tm d))
     = match truthyIdOpt (p_id d) with
       | Some _ => nextId tm
       | None => _generateId tm
       end.
Proof.
  unfold chooseId, assignedId.
  destruct (truthyIdOpt (p_id d)); simpl; repeat split.
Qed.

Lemma createTask_spec (tm : TaskManager) (d : TaskData (list addr)) :
  fst (fst (createTask tm d)) = length (heap tm)
  /\ id (snd (fst (createTask tm d))) = assignedId tm d
  /\ tasks (snd (createTask tm d)) = tasks tm ++ [length (heap tm)]
  /\ length (heap (snd (createTask tm d))) = S (length (heap tm))
  /\ dependencies (snd (createTask tm d)) = dependencies tm
  /\ options (snd (createTask tm d)) = options tm
  /\ nextId (snd (createTask tm d))
     = match truthyIdOpt (p_id d) with
       | Some _ => nextId tm
       | None => _generateId tm
       end
  /\ (wellFormed tm ->
      wellFormed (snd (createTask tm d))
      /\ taskIds (snd (createTask tm d)) = taskIds tm ++ [assignedId tm d]).
Proof.
  destruct (chooseId_spec tm d) as (Ei & Eh & Et & Ed & Eo & En).
  unfold createTask. cbv zeta.
  set (newTask := newTaskObject (options tm) (fst (chooseId tm d)) d).
  set (tm2 := pushTask (snd (chooseId tm d)) newTask).
  set (tm3 := match truthyIdOpt (parentId newTask) with
              | Some p => _updateParentTaskChildren tm2 p
              | None => tm2
              end).
  assert (F : sameIds (heap tm2) (heap tm3)
              /\ length (heap tm3) = length (heap tm2)
              /\ tasks tm3 = tasks tm2
              /\ dependencies tm3 = dependencies tm2
              /\ options tm3 = options tm2
              /\ nextId tm3 = nextId tm2).
  { unfold tm3. destruct (truthyIdOpt (parentId newTask)).
    - apply updateParent_frame.
    - split; [apply sameIds_refl|repeat split]. }
  destruct F as (Fs & Fl & Ft & Fd & Fo & Fn).
  assert (Ein : id newTask = assignedId tm d) by exact Ei.
  cbn [fst snd].
  split; [reflexivity|]. split; [exact Ein|].
  split; [rewrite Ft; unfold tm2, pushTask, push; simpl; now rewrite Et, Eh|].
  split; [rewrite Fl; unfold tm2, pushTask; simpl; rewrite length_app, Eh;
          simpl; lia|].
  split; [rewrite Fd; exact Ed|].
  split; [rewrite Fo; exact Eo|].
  split; [rewrite Fn; exact En|].
  intros Hwf. unfold wellFormed in *. split.
  - rewrite Fl, Ft. unfold tm2, pushTask, push. simpl.
    rewrite length_app, Et, Eh. simpl.
    apply Forall_app. split.
    + eapply Forall_impl; [|exact Hwf]. simpl. intros; lia.
    + constructor; [lia|constructor].
  - unfold taskIds, taskObjects.
    destruct (objects_ids (heap tm2) (heap tm3) (tasks tm3) Fs) as [<- _].
    rewrite Ft. unfold tm2, pushTask, push. simpl. rewrite Et, Eh.
    rewrite objects_app, map_app, objects_heap_app by exact Hwf.
    f_equal. simpl. unfold deref.
    rewrite nth_error_app2, Nat.sub_diag by lia. simpl.
    first [now rewrite Ein | now rewrite Ei].
Qed.

Lemma createTask_counterInvariant (tm : TaskManager) (d : TaskData (list addr)) :
  counterInvariant tm -> counterInvariant (snd (createTask tm d)).
Proof.
  intros (Hwf & Hn & Hj).
  destruct (createTask_spec tm d) as (_ & _ & _ & _ & _ & _ & En & Hw).
  destruct (Hw Hwf) as [Hwf' Hids].
  destruct (generateId_spec tm) as (G1 & G2 & G3).
  split; [exact Hwf'|]. rewrite En, Hids. unfold assignedId.
  destruct (truthyIdOpt (p_id d)).
  - split; [exact Hn|]. intros j Hjj. apply in_app_iff. left. now apply Hj.
  - split; [lia|]. intros j Hjj. apply in_app_iff. left.
    destruct (Z_lt_dec j (nextId tm)); [apply Hj|apply G3]; lia.
Qed.

Lemma createTasks_invariant (calls : list (TaskData (list addr))) :
  forall tm,
    counterInvariant tm ->
    counterInvariant (createTasks tm calls)
    /\ (NoDup (taskIds tm) -> explicitIdsFresh tm calls = true ->
        NoDup (taskIds (createTasks tm calls))).
Proof.
  induction calls as [|d r IH]; intros tm Hinv; simpl.
  - split; auto.
  - pose proof (createTask_counterInvariant tm d Hinv) as Hinv'.
    destruct (IH _ Hinv') as [I1 I2]. split; [exact I1|].
    intros Hnd Hfresh. apply andb_true_iff in Hfresh.
    destruct Hfresh as [Hf Hr]. apply I2; [|exact Hr].
    destruct Hinv as (Hwf & _).
    destruct (createTask_spec tm d) as (_ & _ & _ & _ & _ & _ & _ & Hw).
    destruct (Hw Hwf) as [_ Hids]. rewrite Hids.
    apply NoDup_app; [exact Hnd|repeat constructor; auto|].
    intros x Hx [<-|[]]. unfold assignedId in Hx.
    destruct (truthyIdOpt (p_id d)).
    + apply negb_true_iff in Hf. apply setHas_false in Hf. auto.
    + destruct (generateId_spec tm) as (_ & G2 & _). auto.
Qed.

Lemma newTaskManager_invariant (o : OptionsData) :
  counterInvariant (newTaskManager o) /\ NoDup (taskIds (newTaskManager o)).
Proof.
  split; [|constructor].
  split; [constructor|]. split; [simpl; lia|]. simpl. intros j Hj. lia.
Qed.

(** C9, as amended.  After a run of [createTask] calls on a new manager,
    the ids of the tasks are pairwise distinct provided no call named an
    id that was in use when it was made; and a call that names no id (or a
    falsy one) gets the smallest positive integer that no task has for its
    id. *)
Theorem task_ids_unique (o : OptionsData) (calls : list (TaskData (list addr))) :
  (explicitIdsFresh (newTaskManager o) calls = true ->
   NoDup (taskIds (createTasks (newTaskManager o) calls)))
  /\ (forall d,
        truthyIdOpt (p_id d) = None ->
        exists k,
          id (snd (fst (createTask (createTasks (newTaskManager o) calls) d)))
          = IdNum k
          /\ (1 <= k)%Z
          /\ ~ In (IdNum k) (taskIds (createTasks (newTaskManager o) calls))
          /\ forall j, (1 <= j < k)%Z ->
                       In (IdNum j)
                          (taskIds (createTasks (newTaskManager o) calls))).
Proof.
  destruct (newTaskManager_invariant o) as [Hinv Hnd].
  destruct (createTasks_invariant calls _ Hinv) as [I1 I2].
  split; [intros Hf; now apply I2|].
  intros d Hd.
  set (tm := createTasks (newTaskManager o) calls) in *.
  destruct (createTask_spec tm d) as (_ & Ei & _).
  destruct (generateId_spec tm) as (G1 & G2 & G3).
  destruct I1 as (_ & Hn & Hj).
  exists (_generateId tm). rewrite Ei. unfold assignedId. rewrite Hd.
  split; [reflexivity|]. split; [lia|]. split; [exact G2|].
  intros j Hjj.
  destruct (Z_lt_dec j (nextId tm)); [apply Hj|apply G3]; lia.
Qed.

(** C2: what [createTask] does with a start date it cannot parse.  When
    the engine reports the text unparseable and it is not made of three
    parts joined by dashes, [parseDate] falls back on today: the call
    returns a task that starts today and the task list has grown by it. *)
Theorem createTask_accepts_unparseable_start
        (tm : TaskManager) (d : TaskData (list addr)) (s : string) :
  p_start d = Some s ->
  s <> ""%string ->
  Date_parse s = None ->
  length (split s "-"%char) <> 3%nat ->
  start (snd (fst (createTask tm d))) = format newDate
  /\ tasks (snd (createTask tm d)) = tasks tm ++ [fst (fst (createTask tm d))].
Proof.
  intros Hs Hne Hp Hl.
  destruct (createTask_spec tm d) as (Ea & _ & Et & _).
  split; [|now rewrite Et, Ea].
  unfold createTask, newTaskObject. cbn [fst snd start].
  rewrite Hs. unfold truthyStr.
  apply String.eqb_neq in Hne. rewrite Hne.
  unfold parseDate. rewrite Hne. unfold newDateString. rewrite Hp.
  destruct (split s "-"%char) as [|p0 [|p1 [|p2 [|p3 r]]]]; try reflexivity.
  simpl in Hl. congruence.
Qed.

End WithHost.

(** *** [deleteTask] *)

Lemma optId_eqb_eq (o : option TaskId) (x : TaskId) :
  optId_eqb o x = true <-> o = Some x.
Proof.
  destruct o as [y|]; simpl; [|split; discriminate].
  rewrite TaskId_eqb_eq. split; congruence.
Qed.

Lemma forEachM_union (A : Type) (body : A -> list TaskId -> option (list TaskId))
      (Q : A -> TaskId -> Prop) (l : list A) : forall st,
  (forall x st, In x l ->
     exists st', body x st = Some st'
                 /\ forall y, In y st' <-> In y st \/ Q x y) ->
  exists st', forEachM body l st = Some st'
              /\ forall y, In y st' <-> In y st \/ exists x, In x l /\ Q x y.
Proof.
  induction l as [|x r IH]; intros st Hb; simpl.
  - exists st. split; [reflexivity|]. intros y. split; [auto|].
    intros [Hy|(x & [] & _)]. exact Hy.
  - destruct (Hb x st (or_introl eq_refl)) as (st1 & E & H1). rewrite E.
    destruct (IH st1) as (st2 & E2 & H2).
    { intros z s Hz. apply Hb. now right. }
    exists st2. split; [exact E2|]. intros y. rewrite H2, H1. split.
    + intros [[Hy|Hq]|(z & Hz & Hq)];
        [ now left
        | right; exists x; split; [now left|exact Hq]
        | right; exists z; split; [now right|exact Hq] ].
    + intros [Hy|(z & [<-|Hz] & Hq)];
        [ left; now left
        | left; now right
        | right; exists z; split; assumption ].
Qed.

Section Hierarchy.
Variable objs : list TaskObj.
Variable rank : TaskId -> nat.
Hypothesis rank_parent :
  forall t p, In t objs -> parentId t = Some p -> (rank p < rank (id t))%nat.

Lemma above_child (t : TaskObj) (x : TaskId) :
  In t objs -> parentId t = Some x -> (above objs rank (id t) < above objs rank x)%nat.
Proof.
  intros Hin Hp. unfold above.
  pose proof (rank_parent t x Hin Hp) as Hr.
  apply filter_length_strict with (x := t); auto.
  - intros y Hy. apply Nat.ltb_lt in Hy. apply Nat.ltb_lt. lia.
  - apply Nat.ltb_lt. exact Hr.
  - apply Nat.ltb_ge. lia.
Qed.

Lemma descends_rank (a y : TaskId) :
  descends objs a y -> (rank a < rank y)%nat.
Proof.
  induction 1 as [a t Hin Hp|a t y Hin Hp _ IH].
  - now apply rank_parent.
  - pose proof (rank_parent t a Hin Hp). lia.
Qed.

(** In a hierarchy without cycles the collection returns, with the id it
    was called on and the ids of all the tasks below it added to the set. *)
Lemma collectTasksToDelete_spec : forall fuel x acc,
  (above objs rank x < fuel)%nat ->
  exists s, collectTasksToDelete fuel objs x acc = Some s
            /\ forall y, In y s <-> In y acc \/ y = x \/ descends objs x y.
Proof.
  induction fuel as [|f IH]; intros x acc Hf; [lia|]. simpl.
  destruct (forEachM_union _ (fun child => collectTasksToDelete f objs (id child))
              (fun child y => y = id child \/ descends objs (id child) y)
              (filter (fun t => optId_eqb (parentId t) x) objs)
              (setAdd acc x)) as (s & E & Hs).
  - intros c st Hc. apply filter_In in Hc. destruct Hc as [Hin Hp].
    apply optId_eqb_eq in Hp.
    apply IH. pose proof (above_child c x Hin Hp). lia.
  - exists s. split; [exact E|]. intros y. rewrite Hs, setAdd_In. split.
    + intros [[->|Hy]|(c & Hc & Hq)]; auto.
      apply filter_In in Hc. destruct Hc as [Hin Hp].
      apply optId_eqb_eq in Hp. right. right.
      destruct Hq as [->|Hd].
      * now apply descends_child.
      * eapply descends_below; eauto.
    + intros [Hy|[->|Hd]]; auto.
      right. inversion Hd as [a t Hin Hp|a t y' Hin Hp Hd']; subst.
      * exists t. split; [|now left].
        apply filter_In. split; [exact Hin|]. now apply optId_eqb_eq.
      * exists t. split; [|now right].
        apply filter_In. split; [exact Hin|]. now apply optId_eqb_eq.
Qed.

Lemma above_le (x : TaskId) : (above objs rank x <= length objs)%nat.
Proof. unfold above. apply filter_length_le. Qed.

End Hierarchy.

Lemma objects_of_fst (h : list TaskObj) (L : list (addr * TaskObj)) :
  (forall o, In o L -> deref h (fst o) = Some (snd o)) ->
  objects h (map fst L) = L.
Proof.
  induction L as [|[a t] r IH]; intros HL; simpl; [reflexivity|].
  pose proof (HL (a, t) (or_introl eq_refl)) as Ha. simpl in Ha.
  rewrite Ha. f_equal.
  apply IH. intros o Ho. apply HL. now right.
Qed.

Lemma length_filter_split (A : Type) (f : A -> bool) (l : list A) :
  length l = (length (filter f l) + length (filter (fun x => negb (f x)) l))%nat.
Proof.
  induction l as [|x r IH]; simpl; [reflexivity|].
  destruct (f x); simpl; lia.
Qed.

Lemma filter_one (A : Type) (f : A -> bool) (g : A -> TaskId) (l : list A)
      (k : TaskId) :
  NoDup (map g l) -> In k (map g l) ->
  (forall x, f x = true <-> g x = k) ->
  length (filter f l) = 1%nat.
Proof.
  intros Hnd Hin Hf. induction l as [|x r IH]; simpl in *; [tauto|].
  inversion Hnd as [|? ? Hx Hr]; subst.
  destruct (f x) eqn:E.
  - apply Hf in E. simpl. f_equal.
    assert (Hnone : forall y, In y r -> f y = false).
    { intros y Hy. destruct (f y) eqn:Ey; [|reflexivity].
      apply Hf in Ey. exfalso. apply Hx. rewrite E, <- Ey. now apply in_map. }
    clear -Hnone. induction r as [|y r IH]; simpl; [reflexivity|].
    rewrite (Hnone y (or_introl eq_refl)). apply IH.
    intros z Hz. apply Hnone. now right.
  - destruct Hin as [Hk|Hk].
    + apply Hf in Hk. congruence.
    + now apply IH.
Qed.

Lemma length_kept (s : list TaskId) (L : list (addr * Task (list addr))) :
  length L
  = (length (filter (fun o => negb (setHas s (id (snd o)))) L)
     + length (filter (fun o => setHas s (id (snd o))) L))%nat.
Proof.
  induction L as [|o r IH]; simpl; [reflexivity|].
  destruct (setHas s _); simpl; lia.
Qed.

Lemma length_removed_rest (s : list TaskId) (k : TaskId)
      (L : list (addr * Task (list addr))) :
  ~ In k (map (fun o => id (snd o)) L) ->
  length (filter (fun o => setHas s (id (snd o))) L)
  = length (filter (fun t => setHas s (id t) && negb (TaskId_eqb (id t) k))
                   (map snd L)).
Proof.
  induction L as [|o r IH]; simpl; [reflexivity|]. intros Hk.
  destruct (TaskId_eqb _ k) eqn:E;
    [apply TaskId_eqb_eq in E; tauto|].
  rewrite andb_true_r.
  destruct (setHas s _); simpl; rewrite IH; tauto.
Qed.

Lemma length_removed (s : list TaskId) (k : TaskId)
      (L : list (addr * Task (list addr))) :
  NoDup (map (fun o => id (snd o)) L) ->
  In k (map (fun o => id (snd o)) L) ->
  setHas s k = true ->
  length (filter (fun o => setHas s (id (snd o))) L)
  = (1 + length (filter (fun t => setHas s (id t) && negb (TaskId_eqb (id t) k))
                        (map snd L)))%nat.
Proof.
  intros Hnd Hin Hs. induction L as [|o r IH]; simpl in *; [tauto|].
  inversion Hnd as [|? ? Hx Hr]; subst.
  destruct (TaskId_eqb _ k) eqn:E.
  - apply TaskId_eqb_eq in E. rewrite E in *. rewrite Hs. simpl.
    f_equal. now apply length_removed_rest.
  - rewrite andb_true_r. destruct Hin as [Hk|Hk].
    + rewrite Hk, TaskId_eqb_refl in E. discriminate.
    + specialize (IH Hr Hk). destruct (setHas s (id (snd o))); simpl; lia.
Qed.

(** C6, as amended.  On a task list with pairwise distinct ids and a
    hierarchy without cycles ([parentId] raises [rank]), [deleteTask] of
    the id of a task returns [true]; it keeps exactly the tasks that are
    neither the task nor below it, and the dependencies that touch no
    removed id; and the task list is shorter by one plus the number of
    tasks below the deleted one.  For an id that no task has it returns
    [false] and changes nothing. *)
Theorem cascade_delete (tm : TaskManager) (taskId : TaskId)
        (rank : TaskId -> nat) :
  NoDup (taskIds tm) ->
  (forall t p, In t (getTasks tm) -> parentId t = Some p ->
               (rank p < rank (id t))%nat) ->
  (In taskId (taskIds tm) ->
   exists tm' below,
     deleteTask tm taskId = Some (true, tm')
     /\ (forall o, In o (taskObjects tm) ->
           (In (fst o) (tasks tm') <-> ~ removedBy tm taskId (id (snd o))))
     /\ (forall a, In a (tasks tm') -> In a (tasks tm))
     /\ (forall d, In d (dependencies tm') <->
           In d (dependencies tm)
           /\ ~ removedBy tm taskId (fromId (snd d))
           /\ ~ removedBy tm taskId (toId (snd d)))
     /\ (forall t, In t (getTasks tm) ->
           (below t = true <-> descends (getTasks tm) taskId (id t)))
     /\ length (getTasks tm)
        = (length (getTasks tm') + 1 + length (filter below (getTasks tm)))%nat)
  /\ (~ In taskId (taskIds tm) -> deleteTask tm taskId = Some (false, tm)).
Proof.
  intros Hnd Hrank. split.
  2:{ intros Hno. unfold deleteTask, deleteTaskFuel.
      destruct (findTask tm taskId) eqn:F; [|reflexivity].
      exfalso. apply Hno. apply findTask_ids. congruence. }
  intros Hin.
  unfold deleteTask, deleteTaskFuel.
  destruct (findTask tm taskId) as [[a0 t0]|] eqn:F;
    [|exfalso; apply findTask_ids in Hin; congruence].
  destruct (collectTasksToDelete_spec (getTasks tm) rank Hrank
              (S (length (tasks tm))) taskId []) as (s & E & Hs).
  { pose proof (above_le (getTasks tm) rank taskId).
    unfold getTasks, taskObjects in *. rewrite length_map in H.
    pose proof (objects_length (heap tm) (tasks tm)). lia. }
  rewrite E.
  assert (Hrem : forall y, setHas s y = true <-> removedBy tm taskId y).
  { intros y. rewrite setHas_In, Hs. unfold removedBy. simpl. tauto. }
  assert (Hkeep : forall y, negb (setHas s y) = true <-> ~ removedBy tm taskId y).
  { intros y. rewrite negb_true_iff, <- Hrem.
    destruct (setHas s y); split; congruence. }
  set (keep := filter (fun o => negb (setHas s (id (snd o)))) (taskObjects tm)).
  set (deps := filter (fun d => negb (setHas s (fromId (snd d)))
                                && negb (setHas s (toId (snd d))))
                      (dependencies tm)).
  set (tm1 := mkTaskManager (heap tm) (map fst keep) deps (nextDep tm)
                            (options tm) (nextId tm)).
  set (tm2 := match truthyIdOpt (parentId t0) with
              | Some p => if setHas s p then tm1
                          else _updateParentTaskChildren tm1 p
              | None => tm1
              end).
  assert (F2 : sameIds (heap tm1) (heap tm2) /\ tasks tm2 = tasks tm1
               /\ dependencies tm2 = dependencies tm1).
  { unfold tm2. destruct (truthyIdOpt (parentId t0)) as [p|].
    - destruct (setHas s p).
      + split; [apply sameIds_refl|split; reflexivity].
      + destruct (updateParent_frame tm1 p) as (A & _ & B & C & _). auto.
    - split; [apply sameIds_refl|split; reflexivity]. }
  destruct F2 as (Fs & Ft & Fd).
  assert (Hobj : objects (heap tm) (map fst keep) = keep).
  { apply objects_of_fst. intros [a t] Ho. unfold keep in Ho.
    apply filter_In in Ho. destruct Ho as [Ho _].
    eapply objects_In; exact Ho. }
  exists tm2, (fun t => setHas s (id t) && negb (TaskId_eqb (id t) taskId)).
  split; [reflexivity|]. split; [|split; [|split; [|split]]].
  - intros [a t] Ho. rewrite Ft. simpl. rewrite <- Hkeep. split.
    + intros Ha. apply in_map_iff in Ha. destruct Ha as ([a' t'] & Ea & Hk).
      simpl in Ea. subst a'. unfold keep in Hk. apply filter_In in Hk.
      destruct Hk as [Hk Hn]. simpl in Hn.
      apply objects_In in Hk. apply objects_In in Ho.
      rewrite Hk in Ho. injection Ho as ->. exact Hn.
    + intros Hn. apply in_map_iff. exists (a, t). split; [reflexivity|].
      unfold keep. apply filter_In. split; assumption.
  - intros a Ha. rewrite Ft in Ha. simpl in Ha.
    apply in_map_iff in Ha. destruct Ha as ([a' t'] & Ea & Hk).
    simpl in Ea. subst a'. unfold keep in Hk. apply filter_In in Hk.
    destruct Hk as [Hk _]. unfold taskObjects in Hk.
    clear -Hk. induction (tasks tm) as [|b r IH]; simpl in *; [tauto|].
    destruct (deref (heap tm) b); [destruct Hk as [Hk|Hk]|]; auto.
    injection Hk as -> _. now left.
  - intros d. rewrite Fd. simpl. unfold deps. rewrite filter_In.
    rewrite andb_true_iff, !Hkeep. tauto.
  - intros t Ht. rewrite andb_true_iff, Hrem, negb_true_iff. unfold removedBy.
    split.
    + intros [[Heq|Hd] Hne]; [|exact Hd].
      rewrite Heq, TaskId_eqb_refl in Hne. discriminate.
    + intros Hd. split; [now right|].
      destruct (TaskId_eqb (id t) taskId) eqn:Eq; [|reflexivity].
      apply TaskId_eqb_eq in Eq.
      pose proof (descends_rank _ rank Hrank _ _ Hd). rewrite Eq in H. lia.
  - assert (Hlen2 : length (getTasks tm2) = length keep).
    { unfold getTasks, taskObjects. rewrite length_map, Ft.
      destruct (objects_ids (heap tm1) (heap tm2) (tasks tm1) Fs) as [_ Hfst].
      apply (f_equal (@length _)) in Hfst. rewrite !length_map in Hfst.
      rewrite <- Hfst. simpl. now rewrite Hobj. }
    rewrite Hlen2.
    assert (H0 : length (getTasks tm) = length (taskObjects tm))
      by (unfold getTasks; apply length_map).
    rewrite H0, (length_kept s (taskObjects tm)). fold keep.
    rewrite (length_removed s taskId (taskObjects tm) Hnd Hin).
    + unfold getTasks. lia.
    + apply Hrem. now left.
Qed.

(** *** [calculateProjectProgress] *)

Lemma forEachM_incl (A B : Type) (body : A -> list B -> option (list B))
      (l : list A) : forall st st',
  (forall x s s', In x l -> body x s = Some s' -> incl s s') ->
  forEachM body l st = Some st' -> incl st st'.
Proof.
  induction l as [|x r IH]; intros st st' Hb E; simpl in E.
  - injection E as <-. apply incl_refl.
  - destruct (body x st) as [s1|] eqn:E1; [|discriminate].
    eapply incl_tran; [eapply Hb; [now left|exact E1]|].
    eapply IH; [|exact E]. intros y s s' Hy. apply Hb. now right.
Qed.

Lemma collectDescendants_incl (h : list TaskObj) : forall fuel t acc r,
  collectDescendants fuel h t acc = Some r -> incl acc r.
Proof.
  induction fuel as [|f IH]; intros t acc r E; [discriminate|].
  simpl in E. eapply forEachM_incl; [|exact E].
  intros c s s' _ Ec. cbv beta in Ec. destruct (deref h c) as [tc|].
  - apply IH in Ec. intros y Hy. apply Ec. unfold push.
    apply in_app_iff. now left.
  - injection Ec as <-. intros y Hy. unfold push. apply in_app_iff. now left.
Qed.

Lemma collectDescendants_children (h : list TaskObj) (f : nat) (t : TaskObj) :
  forall acc r,
    collectDescendants (S f) h t acc = Some r -> incl (children t) r.
Proof.
  simpl. induction (children t) as [|c cs IH]; intros acc r E.
  - intros y [].
  - simpl in E.
    destruct (match deref h c with
              | Some c0 => collectDescendants f h c0 (push acc c)
              | None => Some (push acc c)
              end) as [s1|] eqn:E1; [|discriminate].
    assert (Hc : In c s1).
    { destruct (deref h c) as [tc|].
      - apply collectDescendants_incl in E1. apply E1. unfold push.
        apply in_app_iff. right. now left.
      - injection E1 as <-. unfold push. apply in_app_iff. right. now left. }
    assert (Hs1 : incl s1 r).
    { eapply forEachM_incl; [|exact E].
      intros x s s' _ Ex. cbv beta in Ex. destruct (deref h x) as [tx|].
      - apply collectDescendants_incl in Ex. intros y Hy. apply Ex.
        unfold push. apply in_app_iff. now left.
      - injection Ex as <-. intros y Hy. unfold push.
        apply in_app_iff. now left. }
    intros y [<-|Hy]; [now apply Hs1|]. eapply IH; eauto.
Qed.

(** Every direct child of the project is among the descendants too, so
    the list that [calculateProjectProgress] averages over holds it twice. *)
Lemma direct_children_are_descendants (tm : TaskManager) (projectId : TaskId)
      (a : addr) (p : TaskObj) (ds : list addr) :
  findTask tm projectId = Some (a, p) ->
  getDescendantTasks tm projectId = Some ds ->
  forall c, In c (children p) ->
            In c ds /\ (2 <= count_occ Nat.eq_dec (children p ++ ds) c)%nat.
Proof.
  intros F G c Hc. unfold getDescendantTasks, getDescendantTasksFuel in G.
  rewrite F in G. apply collectDescendants_children in G.
  assert (Hd : In c ds) by now apply G.
  split; [exact Hd|].
  rewrite count_occ_app.
  apply (count_occ_In Nat.eq_dec) in Hc, Hd. lia.
Qed.

(** C5: the code at a project with one child and one grandchild.  The
    child, complete, is counted twice and the grandchild, not started,
    once: the result is round(200/3) = 67, where the average over the two
    subtasks is 50. *)
Theorem project_progress_counts_children_twice :
  calculateProjectProgress projectWithGrandchild (IdStr "P") = Some 67%Z
  /\ averageOnce projectWithGrandchild (IdStr "P") = Some 50%Z
  /\ getDescendantTasks projectWithGrandchild (IdStr "P") = Some [1; 2]%nat
  /\ option_map (fun o => children (snd o))
                (findTask projectWithGrandchild (IdStr "P")) = Some [1]%nat.
Proof. vm_compute. repeat split. Qed.

(** *** Closed instances *)





Lemma task_ids_unique_witness :
  explicitIdsFresh (H := isoUTC) (newTaskManager noOptions)
    [numbered 2 None; emptyTaskData (list nat); numbered 5 None] = true
  /\ NoDup (taskIds (createTasks (H := isoUTC) (newTaskManager noOptions)
              [numbered 2 None; emptyTaskData (list nat); numbered 5 None])).
Proof.
  split; [reflexivity|].
  apply (task_ids_unique (H := isoUTC) noOptions
           [numbered 2 None; emptyTaskData (list nat); numbered 5 None]).
  reflexivity.
Defined.

(** C9 as stated fails: two calls that name the id 1 leave two tasks with
    that id. *)
Lemma explicit_ids_can_repeat :
  taskIds sameIdTwice = [IdNum 1; IdNum 1] /\ ~ NoDup (taskIds sameIdTwice).
Proof.
  assert (E : taskIds sameIdTwice = [IdNum 1; IdNum 1]) by reflexivity.
  split; [exact E|]. rewrite E. intros N.
  inversion N as [|x l Hx _]. apply Hx. now left.
Qed.

Lemma createTask_accepts_unparseable_start_witness :
  p_start invalidDateCall = Some "invalid-date"%string
  /\ "invalid-date"%string <> ""%string
  /\ Date_parse (Host := isoUTC) "invalid-date" = None
  /\ length (split "invalid-date" "-"%char) <> 3%nat
  /\ start (snd (fst (createTask (H := isoUTC) (newTaskManager noOptions)
                                 invalidDateCall)))
     = format (H := isoUTC) (newDate (H := isoUTC))
  /\ tasks (snd (createTask (H := isoUTC) (newTaskManager noOptions)
                            invalidDateCall))
     = tasks (newTaskManager noOptions)
       ++ [fst (fst (createTask (H := isoUTC) (newTaskManager noOptions)
                                invalidDateCall))].
Proof.
  split; [reflexivity|]. split; [discriminate|]. split; [reflexivity|].
  split; [vm_compute; discriminate|].
  apply (createTask_accepts_unparseable_start (H := isoUTC)
           (newTaskManager noOptions) invalidDateCall "invalid-date");
    [reflexivity | discriminate | reflexivity | vm_compute; discriminate].
Defined.

(** The call of the unit test, which expects an exception: it returns a
    task that starts on the day of the call, and the task is in the list. *)
Lemma invalid_date_call_creates_a_task :
  start (snd (fst (createTask (H := isoUTC) (newTaskManager noOptions)
                              invalidDateCall))) = "2024-06-15"%string
  /\ length (getTasks (snd (createTask (H := isoUTC) (newTaskManager noOptions)
                                       invalidDateCall))) = 1%nat.
Proof. vm_compute. split; reflexivity. Qed.

Lemma family_ranks (t : Task (list nat)) (p : TaskId) :
  In t (getTasks family) -> parentId t = Some p ->
  (numericRank p < numericRank (id t))%nat.
Proof.
  intros Hin. vm_compute in Hin.
  destruct Hin as [<-|[<-|[<-|[]]]]; simpl; intros E; inversion E;
    vm_compute; lia.
Qed.

Lemma family_ids_distinct : NoDup (taskIds family).
Proof.
  vm_compute. repeat constructor; simpl; intuition discriminate.
Qed.

Lemma cascade_delete_witness :
  NoDup (taskIds family)
  /\ (forall t p, In t (getTasks family) -> parentId t = Some p ->
                  (numericRank p < numericRank (id t))%nat)
  /\ In (IdNum 2) (taskIds family)
  /\ exists tm' below,
       deleteTask family (IdNum 2) = Some (true, tm')
       /\ length (getTasks family)
          = (length (getTasks tm') + 1 + length (filter below (getTasks family)))%nat.
Proof.
  split; [exact family_ids_distinct|]. split; [exact family_ranks|].
  split; [vm_compute; tauto|].
  destruct (proj1 (cascade_delete family (IdNum 2) numericRank
                     family_ids_distinct family_ranks))
    as (tm' & below & E & _ & _ & _ & _ & L).
  - vm_compute. tauto.
  - exists tm', below. split; [exact E|exact L].
Defined.

(** C6 as stated fails on a task list in which two tasks have the same
    id: both are removed, though neither has a descendant. *)
Lemma delete_removes_every_task_of_that_id :
  (forall t, In t (getTasks sameIdTwice) -> parentId t = None)
  /\ length (getTasks sameIdTwice) = 2%nat
  /\ exists tm', deleteTask sameIdTwice (IdNum 1) = Some (true, tm')
                 /\ length (getTasks tm') = 0%nat.
Proof.
  split.
  - intros t Hin. vm_compute in Hin. destruct Hin as [<-|[<-|[]]]; reflexivity.
  - split; [reflexivity|]. vm_compute. eexists. split; reflexivity.
Qed.

(** Nor does [deleteTask] return on a task that is its own parent: the
    collection calls itself on the same id for ever. *)
Lemma delete_of_own_parent_never_returns (fuel : nat) :
  deleteTaskFuel fuel ownParent (IdNum 1) = None.
Proof.
  unfold deleteTaskFuel.
  change (findTask ownParent (IdNum 1))
    with (Some (0%nat, nth 0 (getTasks ownParent)
                           (mkTask (IdNum 1) "" "" "" None 0%Z None false false
                                   false false [] [] None [] None [] [] false))).
  cbv iota beta.
  assert (G : forall acc,
             collectTasksToDelete fuel (getTasks ownParent) (IdNum 1) acc = None).
  { induction fuel as [|f IH]; intros acc; [reflexivity|].
    change (collectTasksToDelete (S f) (getTasks ownParent) (IdNum 1) acc)
      with (match collectTasksToDelete f (getTasks ownParent) (IdNum 1)
                                       (setAdd acc (IdNum 1)) with
            | Some s => Some s
            | None => None
            end).
    now rewrite IH. }
  now rewrite G.
Qed.

End TaskManagerFacts.

Module TaskUtilsFacts.
Import Types DateUtils TaskUtils.
Import TaskManagerFacts.

#[local] Arguments parseDate : simpl never.
#[local] Arguments format : simpl never.
#[local] Arguments addDays : simpl never.
#[local] Arguments daysBetween : simpl never.

Section WithHost.
Context {H : Host}.
Variable C : Type.

Lemma mapGet_mapSet_same (m : TaskMap C) (k : TaskId) (v : Task C) :
  mapGet (mapSet m k v) k = Some v.
Proof.
  induction m as [|[k' v'] r IH]; simpl.
  - now rewrite TaskId_eqb_refl.
  - destruct (TaskId_eqb k' k) eqn:E; simpl; rewrite E; auto.
Qed.

Lemma mapGet_mapSet_other (m : TaskMap C) (k k' : TaskId) (v : Task C) :
  k' <> k -> mapGet (mapSet m k v) k' = mapGet m k'.
Proof.
  intros Hne. induction m as [|[k0 v0] r IH]; simpl.
  - destruct (TaskId_eqb k k') eqn:E; [|reflexivity].
    apply TaskId_eqb_eq in E. congruence.
  - destruct (TaskId_eqb k0 k) eqn:E; simpl.
    + apply TaskId_eqb_eq in E. subst k0.
      destruct (TaskId_eqb k k') eqn:E'; [|reflexivity].
      apply TaskId_eqb_eq in E'. congruence.
    + destruct (TaskId_eqb k0 k'); auto.
Qed.

Lemma buildTaskMap_snoc (l : list (Task C)) (t : Task C) :
  buildTaskMap (l ++ [t]) = mapSet (buildTaskMap l) (id t) t.
Proof. unfold buildTaskMap. now rewrite fold_left_app. Qed.

Lemma buildTaskMap_get (l : list (Task C)) (k : TaskId) (t : Task C) :
  mapGet (buildTaskMap l) k = Some t -> In t l /\ id t = k.
Proof.
  induction l as [|x r IH] using rev_ind; [discriminate|].
  rewrite buildTaskMap_snoc.
  destruct (TaskId_eqb (id x) k) eqn:E.
  - apply TaskId_eqb_eq in E. subst k. rewrite mapGet_mapSet_same.
    intros [= <-]. split; [apply in_app_iff; right; now left|reflexivity].
  - rewrite mapGet_mapSet_other.
    + intros G. destruct (IH G) as [Hin Hid].
      split; [apply in_app_iff; now left|exact Hid].
    + intros ->. now rewrite TaskId_eqb_refl in E.
Qed.

Lemma buildTaskMap_find (l : list (Task C)) (t : Task C) :
  NoDup (map (@id C) l) -> In t l -> mapGet (buildTaskMap l) (id t) = Some t.
Proof.
  induction l as [|x r IH] using rev_ind; [intros _ []|].
  rewrite map_app. simpl. intros Hnd Hin.
  rewrite buildTaskMap_snoc.
  apply in_app_iff in Hin. destruct Hin as [Hin|[<-|[]]].
  - rewrite mapGet_mapSet_other.
    + apply IH; [|exact Hin]. now apply NoDup_app_remove_r in Hnd.
    + intros E. apply NoDup_remove_2 in Hnd. apply Hnd.
      rewrite app_nil_r, <- E. now apply in_map.
  - apply mapGet_mapSet_same.
Qed.

Lemma buildTaskMap_keyed (l : list (Task C)) : keyedById (buildTaskMap l).
Proof. intros k t G. now apply buildTaskMap_get in G. Qed.

(** *** The pass that shifts the dates *)

Lemma reschedule_other (deps : list Dependency) (m : TaskMap C) (key k : TaskId) :
  k <> key -> mapGet (reschedule deps m key) k = mapGet m k.
Proof.
  intros Hne. unfold reschedule.
  destruct (mapGet m key) as [t|]; [|reflexivity].
  destruct (0 <? _)%nat; [|reflexivity].
  destruct (numGt _ _); [|reflexivity].
  now apply mapGet_mapSet_other.
Qed.

Lemma reschedule_has (deps : list Dependency) (m : TaskMap C) (key k : TaskId) :
  mapGet (reschedule deps m key) k = None <-> mapGet m k = None.
Proof.
  destruct (TaskId_eqb k key) eqn:E.
  - apply TaskId_eqb_eq in E. subst k. unfold reschedule.
    destruct (mapGet m key) as [t|] eqn:G; [|now rewrite G].
    destruct (0 <? _)%nat; [|now rewrite G].
    destruct (numGt _ _); [|now rewrite G].
    rewrite mapGet_mapSet_same. split; discriminate.
  - rewrite reschedule_other; [reflexivity|].
    intros ->. now rewrite TaskId_eqb_refl in E.
Qed.

Lemma reschedule_keyed (deps : list Dependency) (m : TaskMap C) (key : TaskId) :
  keyedById m -> keyedById (reschedule deps m key).
Proof.
  intros Hk k t G.
  destruct (TaskId_eqb k key) eqn:E.
  - apply TaskId_eqb_eq in E. subst k. unfold reschedule in G.
    destruct (mapGet m key) as [t0|] eqn:G0; [|congruence].
    destruct (0 <? _)%nat; [|rewrite G0 in G; injection G as <-; auto].
    destruct (numGt _ _); [|rewrite G0 in G; injection G as <-; auto].
    rewrite mapGet_mapSet_same in G. injection G as <-. simpl. auto.
  - rewrite reschedule_other in G; [auto|].
    intros ->. now rewrite TaskId_eqb_refl in E.
Qed.


Lemma fold_reschedule_has (deps : list Dependency) (l : list TaskId) :
  forall (m : TaskMap C) k,
    mapGet (fold_left (reschedule deps) l m) k = None <-> mapGet m k = None.
Proof.
  induction l as [|x r IH]; intros m k; simpl; [reflexivity|].
  rewrite IH. apply reschedule_has.
Qed.

Lemma fold_reschedule_keyed (deps : list Dependency) (l : list TaskId) :
  forall m : TaskMap C, keyedById m -> keyedById (fold_left (reschedule deps) l m).
Proof.
  induction l as [|x r IH]; intros m Hk; simpl; [exact Hk|].
  apply IH. now apply reschedule_keyed.
Qed.



(** *** The topological sort *)


Lemma finished_mono (m : TaskMap C) (y : TaskId) (res ext : list TaskId) :
  finished m y res -> finished m y (res ++ ext).
Proof. intros F Hm. apply in_app_iff. left. now apply F. Qed.



Lemma incoming_In (deps : list Dependency) (x : TaskId) (d : Dependency) :
  In d (incoming deps x) <-> In d deps /\ toId d = x.
Proof.
  unfold incoming. rewrite filter_In, TaskId_eqb_eq. reflexivity.
Qed.

Section Sort.
Variable deps : list Dependency.
Variable m : TaskMap C.
Variable U : list TaskId.
Variable rank : TaskId -> nat.
Hypothesis deps_in_U : forall d, In d deps -> In (fromId d) U.
Hypothesis rank_deps :
  forall d, In d deps -> (rank (fromId d) < rank (toId d))%nat.

Lemma mapHas_dec (k : TaskId) : {mapHas m k} + {mapGet m k = None}.
Proof.
  unfold mapHas. destruct (mapGet m k); [left; discriminate|now right].
Qed.



End Sort.

Lemma buildTaskMap_has (l : list (Task C)) (t : Task C) :
  In t l -> mapHas (buildTaskMap l) (id t).
Proof.
  induction l as [|x r IH] using rev_ind; [intros []|].
  intros Hin. rewrite buildTaskMap_snoc. unfold mapHas.
  destruct (TaskId_eqb (id x) (id t)) eqn:E.
  - apply TaskId_eqb_eq in E. rewrite <- E, mapGet_mapSet_same. discriminate.
  - rewrite mapGet_mapSet_other.
    + apply in_app_iff in Hin. destruct Hin as [Hin|[->|[]]]; [now apply IH|].
      now rewrite TaskId_eqb_refl in E.
    + intros Eq. rewrite Eq, TaskId_eqb_refl in E. discriminate.
Qed.





Lemma collect_In (m : TaskMap C) (order : list TaskId) (t : Task C) :
  In t (collect m order) <-> exists k, In k order /\ mapGet m k = Some t.
Proof.
  induction order as [|k r IH]; simpl.
  - split; [intros []|intros (k & [] & _)].
  - destruct (mapGet m k) as [tk|] eqn:G; simpl; rewrite IH; split.
    + intros [<-|(k' & Hk' & G')]; [exists k; auto|exists k'; auto].
    + intros (k' & [<-|Hk'] & G'); [left; congruence|right; eauto].
    + intros (k' & Hk' & G'). exists k'. auto.
    + intros (k' & [<-|Hk'] & G'); [congruence|eauto].
Qed.

Lemma collect_ids (m : TaskMap C) (order : list TaskId) :
  keyedById m -> (forall k, In k order -> mapHas m k) ->
  map (@id C) (collect m order) = order.
Proof.
  intros Hkey. induction order as [|k r IH]; intros Hhas; simpl; [reflexivity|].
  destruct (mapGet m k) as [tk|] eqn:G.
  - simpl. rewrite (Hkey _ _ G), IH; [reflexivity|].
    intros k' Hk'. apply Hhas. now right.
  - exfalso. apply (Hhas k (or_introl eq_refl)). exact G.
Qed.





End WithHost.




Lemma scenario_ids_distinct : NoDup (map (@id _) scenarioTasks).
Proof. vm_compute. repeat constructor; simpl; intuition discriminate. Qed.



(** Five hours west of UTC the scenario gives other dates: the date-only
    strings are read as UTC midnight and written back in local time. *)
Lemma scenario_west_of_utc :
  autoScheduleTasks (H := isoWest) scenarioTasks scenarioDependencies
  = Some [scenarioTask 1 "2024-01-01" "2024-01-05";
          scenarioTask 2 "2024-01-05" "2024-01-10"].
Proof. vm_compute. reflexivity. Qed.

End TaskUtilsFacts.

(** ** The calendar: months, weeks and day arithmetic *)

Module CalendarFacts.
Import Types DateUtils.
Import DateFacts.
Local Open Scope Z_scope.











Section WithHost.
Context {H : Host}.






(** X3.  Between valid dates from March 1600 on, the numbers of days
    that [daysBetween] gives add up along the way, change sign when the two
    dates are exchanged, and are 0 from a date to itself. *)
Theorem daysBetween_chain (a b c : Z) :
  -135080 <= localDay a -> -135080 <= localDay b -> -135080 <= localDay c ->
  numAdd (daysBetween (Obj (Some a)) (Obj (Some b)))
         (daysBetween (Obj (Some b)) (Obj (Some c)))
  = daysBetween (Obj (Some a)) (Obj (Some c))
  /\ daysBetween (Obj (Some b)) (Obj (Some a))
     = option_map Z.opp (daysBetween (Obj (Some a)) (Obj (Some b)))
  /\ daysBetween (Obj (Some a)) (Obj (Some a)) = Some 0.
Proof.
  intros Ha Hb Hc. rewrite !daysBetween_valid by assumption.
  unfold numAdd, option_map. repeat split; f_equal; lia.
Qed.


Lemma format_local_day (t : Z) : format (Some t) = dateText (localDay t).
Proof.
  unfold format, dateText, getFullYear, getMonth, getDate, option_map, numAdd.
  destruct (civil_from_days (localDay t)) as [[y m] d].
  now replace (m - 1 + 1) with m by lia.
Qed.

(** X5.  A text that the host reads as midnight UTC of day [n], as it
    does a date without a time, is written back by [format (parseDate s)]
    as day [n] on a host at or east of UTC, and as the day before on a host
    west of UTC. *)
Theorem format_of_date_only_text (s : string) (n : Z) :
  s <> ""%string ->
  Date_parse s = Some (n * msPerDay) ->
  format (parseDate (Str s))
  = dateText (if 0 <=? LocalTZA then n else n - 1).
Proof.
  intros Hne Hp. unfold parseDate. apply String.eqb_neq in Hne.
  rewrite Hne. unfold newDateString. rewrite Hp, format_local_day. f_equal.
  unfold localDay. pose proof LocalTZA_range as Hr.
  destruct (0 <=? LocalTZA) eqn:E.
  - apply Z.leb_le in E. rewrite Z.add_comm, Z.div_add by (unfold msPerDay; lia).
    rewrite Z.div_small; unfold msPerDay in *; lia.
  - apply Z.leb_gt in E.
    replace (n * msPerDay + LocalTZA)
      with (LocalTZA + msPerDay + (n - 1) * msPerDay) by lia.
    rewrite Z.div_add by (unfold msPerDay; lia).
    rewrite Z.div_small; unfold msPerDay in *; lia.
Qed.














End WithHost.

(** *** Closed examples *)


Lemma daysBetween_chain_witness :
  numAdd (daysBetween (H := isoUTC) (Obj (Some 1704412800000))
                      (Obj (Some 1706745600000)))
         (daysBetween (H := isoUTC) (Obj (Some 1706745600000))
                      (Obj (Some 1709251200000)))
  = daysBetween (H := isoUTC) (Obj (Some 1704412800000))
                (Obj (Some 1709251200000)).
Proof.
  apply (daysBetween_chain (H := isoUTC) 1704412800000 1706745600000
                           1709251200000);
    vm_compute; discriminate.
Defined.


(** Five hours west of UTC the text [2024-01-05] comes back as
    [2024-01-04]. *)
Lemma format_of_date_only_text_witness :
  "2024-01-05"%string <> ""%string
  /\ Date_parse (Host := TaskUtils.isoWest) "2024-01-05"
     = Some (19727 * msPerDay)
  /\ format (H := TaskUtils.isoWest)
            (parseDate (H := TaskUtils.isoWest) (Str "2024-01-05"))
     = "2024-01-04"%string.
Proof.
  split; [discriminate|]. split; [reflexivity|].
  rewrite (format_of_date_only_text (H := TaskUtils.isoWest)
             "2024-01-05" 19727);
    [reflexivity | discriminate | reflexivity].
Defined.






End CalendarFacts.

(** ** [TaskManager]: editing, queries and the id counter *)

Module TaskEditingFacts.
Import Types DateUtils TaskManager.
Import TaskManagerFacts.

Lemma findIndex_Some (A : Type) (f : A -> bool) (l : list A) : forall i,
  findIndex f l = Some i ->
  exists x, nth_error l i = Some x /\ f x = true
            /\ forall j y, (j < i)%nat -> nth_error l j = Some y -> f y = false.
Proof.
  induction l as [|x r IH]; intros i E; [discriminate|].
  simpl in E. destruct (f x) eqn:Fx.
  - inversion E. subst. exists x. split; [reflexivity|]. split; [exact Fx|].
    intros j y Hj. lia.
  - destruct (findIndex f r) as [k|] eqn:Ek; [|discriminate].
    inversion E. subst. destruct (IH k eq_refl) as (x0 & N & F0 & Hb).
    exists x0. split; [exact N|]. split; [exact F0|].
    intros [|j] y Hj Hn; simpl in Hn.
    + inversion Hn. subst. exact Fx.
    + apply (Hb j y); [lia|exact Hn].
Qed.

Lemma findIndex_None (A : Type) (f : A -> bool) (l : list A) :
  findIndex f l = None <-> forall x, In x l -> f x = false.
Proof.
  induction l as [|x r IH]; simpl.
  - split; [intros _ y []|reflexivity].
  - destruct (f x) eqn:Fx.
    + split; [discriminate|]. intros Hall. rewrite (Hall x) in Fx; auto. discriminate.
    + destruct (findIndex f r) as [k|].
      * split; [discriminate|]. intros Hall.
        assert (E : Some k = None) by (apply IH; intros y Hy; apply Hall; now right).
        discriminate.
      * split; [|reflexivity]. intros _ y [<-|Hy]; [exact Fx|].
        now apply (proj1 IH).
Qed.

Section WithHost.
Context {H : Host}.

Lemma updatedObject_parentId (old : Task (list nat)) (u : TaskData (list nat)) :
  parentId (updatedObject old u) = orElse (p_parentId u) (parentId old).
Proof.
  unfold updatedObject, setStart, setEnd.
  destruct (truthyStr (p_start u)); destruct (truthyStr (p_end u)); reflexivity.
Qed.

Lemma updatedObject_fields (old : Task (list nat)) (u : TaskData (list nat)) :
  id (updatedObject old u) = orElse (p_id u) (id old)
  /\ type (updatedObject old u) = orElse (p_type u) (type old)
  /\ children (updatedObject old u) = orElse (p_children u) (children old)
  /\ progress (updatedObject old u) = orElse (p_progress u) (progress old).
Proof.
  unfold updatedObject, setStart, setEnd.
  destruct (truthyStr (p_start u)); destruct (truthyStr (p_end u));
    repeat split; reflexivity.
Qed.


(** A call of [updateTask] that finds the task allocates one object, the
    merge of the old one and the updates, and puts it in the place of the
    old one in the list: the branch that would refresh the parents never
    runs, for the merged object already has the new parent. *)
Lemma updateTask_found (tm : TaskManager) (taskId : TaskId)
      (updates : TaskData (list nat)) (a : nat) (new : Task (list nat))
      (tm' : TaskManager) :
  updateTask tm taskId updates = (Some (a, new), tm') ->
  exists i b old,
    findTaskIndex tm taskId = Some i
    /\ nth_error (tasks tm) i = Some b
    /\ deref (heap tm) b = Some old
    /\ id old = taskId
    /\ new = updatedObject old updates
    /\ a = length (heap tm)
    /\ heap tm' = heap tm ++ [new]
    /\ tasks tm' = setAt i a (tasks tm)
    /\ dependencies tm' = dependencies tm
    /\ nextId tm' = nextId tm.
Proof.
  unfold updateTask.
  destruct (findTaskIndex tm taskId) as [i|] eqn:Ei; [|discriminate].
  destruct (findIndex_Some _ _ _ _ Ei) as (b & Nb & Fb & _).
  rewrite Nb. cbn [option_map].
  destruct (deref (heap tm) b) as [old|] eqn:Eb; [|discriminate].
  apply TaskId_eqb_eq in Fb.
  cbv zeta.
  assert (Dead : match p_parentId updates with
                 | Some (Some newParent) =>
                     negb (optId_eqb (parentId (updatedObject old updates))
                                     newParent) = false
                 | _ => True
                 end).
  { destruct (p_parentId updates) as [[np|]|] eqn:Ep; auto.
    rewrite updatedObject_parentId, Ep. cbn.
    now rewrite TaskId_eqb_refl. }
  destruct (p_parentId updates) as [[np|]|]; try rewrite Dead;
    intros E; inversion E; subst;
    exists i, b, old; repeat split; auto.
Qed.


Lemma objects_update (h : list (Task (list nat))) (new : Task (list nat)) :
  forall (l : list nat) (i b : nat),
    Forall (fun a => (a < length h)%nat) l ->
    nth_error l i = Some b ->
    objects (h ++ [new]) (setAt i (length h) l)
    = setAt i (length h, new) (objects h l)
    /\ exists old, nth_error (objects h l) i = Some (b, old).
Proof.
  induction l as [|c r IH]; intros i b Hwf Hn; [destruct i; discriminate|].
  inversion Hwf as [|? ? Hc Hr]; subst.
  assert (Dc : exists t, deref h c = Some t).
  { unfold deref. destruct (nth_error h c) eqn:E; [eauto|].
    apply nth_error_None in E. lia. }
  destruct Dc as [t Dt].
  destruct i as [|i]; simpl in Hn.
  - inversion Hn. subst b. simpl. rewrite Dt. simpl.
    unfold deref at 1. rewrite nth_error_app2, Nat.sub_diag by lia. simpl.
    rewrite objects_heap_app by exact Hr. split; [reflexivity|eauto].
  - simpl. rewrite Dt. simpl.
    unfold deref at 1. rewrite nth_error_app1 by exact Hc.
    fold (deref h c). rewrite Dt.
    destruct (IH i b Hr Hn) as [E1 E2]. rewrite E1. split; [reflexivity|exact E2].
Qed.

Lemma find_setAt (A : Type) (f : A -> bool) (v : A) : forall (l : list A) i e,
  nth_error l i = Some e -> f e = false -> f v = false ->
  find f (setAt i v l) = find f l.
Proof.
  induction l as [|x r IH]; intros i e Hn Fe Fv; [destruct i; discriminate|].
  destruct i as [|i]; simpl in *.
  - inversion Hn. subst. now rewrite Fe, Fv.
  - destruct (f x); [reflexivity|]. eapply IH; eauto.
Qed.

Lemma forEachM_ext_some (A S : Type) (body body' : A -> S -> option S)
      (l : list A) : forall st r,
  (forall x s s', In x l -> body x s = Some s' -> body' x s = Some s') ->
  forEachM body l st = Some r -> forEachM body' l st = Some r.
Proof.
  induction l as [|x rest IH]; intros st r Hb E; [exact E|].
  simpl in *. destruct (body x st) as [s'|] eqn:Eb; [|discriminate].
  rewrite (Hb x st s' (or_introl eq_refl) Eb).
  apply IH; [|exact E]. intros y s s2 Hy. apply Hb. now right.
Qed.

Lemma collectDescendants_grows (h ext : list (Task (list nat))) :
  (forall a t c, deref h a = Some t -> In c (children t) -> (c < length h)%nat) ->
  forall f f' t acc r,
    (f <= f')%nat ->
    (forall c, In c (children t) -> (c < length h)%nat) ->
    collectDescendants f h t acc = Some r ->
    collectDescendants f' (h ++ ext) t acc = Some r.
Proof.
  intros Hclosed. induction f as [|f IH]; intros f' t acc r Hle Hc E;
    [discriminate|].
  destruct f' as [|f']; [lia|]. simpl in *.
  revert E. apply forEachM_ext_some.
  intros c s s' Hin.
  assert (Hlt : (c < length h)%nat) by now apply Hc.
  unfold deref at 2. rewrite nth_error_app1 by exact Hlt. fold (deref h c).
  destruct (deref h c) as [ct|] eqn:Ec; [|auto].
  apply IH; [lia|]. intros c' Hc'. eapply Hclosed; eauto.
Qed.

Lemma forEachM_Forall (A B : Type) (P : B -> Prop)
      (body : A -> list B -> option (list B)) (l : list A) : forall st r,
  (forall x s s', In x l -> body x s = Some s' -> Forall P s -> Forall P s') ->
  forEachM body l st = Some r -> Forall P st -> Forall P r.
Proof.
  induction l as [|x rest IH]; intros st r Hb E Hst.
  - inversion E. now subst.
  - simpl in E. destruct (body x st) as [s'|] eqn:Eb; [|discriminate].
    apply (IH s' r); [|exact E|].
    + intros y s s2 Hy. apply Hb. now right.
    + eapply Hb; eauto. now left.
Qed.

Lemma collectDescendants_closed (h : list (Task (list nat))) :
  (forall a t c, deref h a = Some t -> In c (children t) -> (c < length h)%nat) ->
  forall f t acc r,
    (forall c, In c (children t) -> (c < length h)%nat) ->
    collectDescendants f h t acc = Some r ->
    Forall (fun c => (c < length h)%nat) acc ->
    Forall (fun c => (c < length h)%nat) r.
Proof.
  intros Hclosed. induction f as [|f IH]; intros t acc r Hc E Hacc;
    [discriminate|].
  simpl in E. revert E Hacc. apply forEachM_Forall.
  intros c s s' Hin Eb Hs.
  assert (Hlt : (c < length h)%nat) by now apply Hc.
  assert (Hpush : Forall (fun c => (c < length h)%nat) (push s c)).
  { unfold push. apply Forall_app. split; [exact Hs|]. now constructor. }
  destruct (deref h c) as [ct|] eqn:Ec.
  - apply (IH ct (push s c) s'); [|exact Eb|exact Hpush].
    intros c' Hc'. eapply Hclosed; eauto.
  - inversion Eb. now subst.
Qed.

Lemma sumProgress_grows (h ext : list (Task (list nat))) (l : list nat) :
  Forall (fun c => (c < length h)%nat) l ->
  sumProgress (h ++ ext) l = sumProgress h l.
Proof.
  unfold sumProgress. intros Hl.
  assert (G : forall z,
             fold_left (fun sum a => (sum + match deref (h ++ ext) a with
                                            | Some t => progress t
                                            | None => 0
                                            end)%Z) l z
             = fold_left (fun sum a => (sum + match deref h a with
                                              | Some t => progress t
                                              | None => 0
                                              end)%Z) l z).
  { induction Hl as [|c r Hc Hr IH]; intros z; [reflexivity|].
    cbn [fold_left].
    replace (deref (h ++ ext) c) with (deref h c)
      by (unfold deref; now rewrite nth_error_app1 by exact Hc).
    apply IH. }
  apply G.
Qed.

(** X12.  On a manager whose task list and [children] arrays hold
    objects of the heap, updating a task through [updateTask] without
    changing its id leaves what [calculateProjectProgress] answers for any
    other project as it was: the [children] arrays through which the
    progress is read still hold the objects from before the update. *)
Theorem updateTask_leaves_project_progress
        (tm : TaskManager) (taskId projectId : TaskId)
        (updates : TaskData (list nat)) (v : Z) :
  wellFormed tm -> closedHeap tm ->
  taskId <> projectId -> p_id updates = None ->
  calculateProjectProgress tm projectId = Some v ->
  calculateProjectProgress (snd (updateTask tm taskId updates)) projectId
  = Some v.
Proof.
  intros Hwf Hclosed Hne Hid Hv.
  destruct (updateTask tm taskId updates) as [[[a new]|] tm'] eqn:Eu.
  2:{ unfold updateTask in Eu.
      destruct (findTaskIndex tm taskId); [|inversion Eu; now subst].
      destruct (option_map (deref (heap tm)) (nth_error (tasks tm) n))
        as [[old|]|]; [|inversion Eu; now subst|inversion Eu; now subst].
      cbv zeta in Eu. destruct (p_parentId updates) as [[np|]|];
        try destruct (negb _); discriminate. }
  destruct (updateTask_found tm taskId updates a new tm' Eu)
    as (i & b & old & Ei & Nb & Db & Io & En & Ea & Eh & Et & _).
  cbn [snd].
  destruct (objects_update (heap tm) new (tasks tm) i b Hwf Nb) as [Eobj [old' No]].
  assert (old' = old).
  { apply nth_error_In in No. apply objects_In in No. congruence. }
  subst old'.
  assert (Inew : id new = taskId).
  { rewrite En. destruct (updatedObject_fields old updates) as (-> & _).
    now rewrite Hid. }
  assert (Eto : taskObjects tm' = setAt i (a, new) (taskObjects tm)).
  { unfold taskObjects. rewrite Eh, Et, Ea. exact Eobj. }
  assert (Nid : forall x, TaskId_eqb x projectId = true -> x <> taskId)
    by (intros x Hx ->; apply TaskId_eqb_eq in Hx; contradiction).
  assert (Foff : forall o : nat * Task (list nat),
             id (snd o) = taskId -> TaskId_eqb (id (snd o)) projectId = false).
  { intros o Ho. destruct (TaskId_eqb (id (snd o)) projectId) eqn:E; [|reflexivity].
    exfalso. apply (Nid _ E Ho). }
  unfold calculateProjectProgress in *.
  rewrite Eto.
  rewrite (find_setAt _ _ (a, new) (taskObjects tm) i (b, old) No)
    by (rewrite Foff; auto).
  destruct (find _ (taskObjects tm)) as [[ap projectTask]|] eqn:Fp; [|exact Hv].
  assert (Dp : deref (heap tm) ap = Some projectTask).
  { apply find_some in Fp. destruct Fp as [Fp _]. eapply objects_In; eauto. }
  unfold getDescendantTasks, getDescendantTasksFuel, findTask in *.
  rewrite Eto.
  rewrite (find_setAt _ _ (a, new) (taskObjects tm) i (b, old) No)
    by (apply Foff; auto).
  destruct (find (fun o => TaskId_eqb (id (snd o)) projectId) (taskObjects tm))
    as [[at_ t]|] eqn:Ft.
  - assert (Dt : deref (heap tm) at_ = Some t).
    { apply find_some in Ft. destruct Ft as [Ft _]. eapply objects_In; eauto. }
    destruct (collectDescendants (S (length (heap tm))) (heap tm) t [])
      as [descendants|] eqn:Ec; [|discriminate].
    rewrite Eh.
    rewrite (collectDescendants_grows (heap tm) [new] Hclosed
               (S (length (heap tm))) (S (length (heap tm ++ [new]))) t []
               descendants).
    + assert (Hall : Forall (fun c => (c < length (heap tm))%nat)
                            (children projectTask ++ descendants)).
      { apply Forall_app. split.
        - apply Forall_forall. intros c Hc. exact (Hclosed ap projectTask c Dp Hc).
        - apply (collectDescendants_closed (heap tm) Hclosed
                   (S (length (heap tm))) t [] descendants);
            [|exact Ec|constructor].
          intros c Hc. exact (Hclosed at_ t c Dt Hc). }
      rewrite sumProgress_grows by exact Hall. exact Hv.
    + rewrite length_app. simpl. lia.
    + intros c Hc. exact (Hclosed at_ t c Dt Hc).
    + exact Ec.
  - rewrite Eh. rewrite app_nil_r in *.
    assert (Hall : Forall (fun c => (c < length (heap tm))%nat)
                          (children projectTask)).
    { apply Forall_forall. intros c Hc. exact (Hclosed ap projectTask c Dp Hc). }
    rewrite sumProgress_grows by exact Hall. exact Hv.
Qed.

End WithHost.

Lemma findIn_spec (h : list (Task (list nat))) (l : list nat) (x : TaskId)
      (a : nat) (t : Task (list nat)) :
  findIn h l x = Some (a, t) -> deref h a = Some t /\ id t = x.
Proof.
  intros F. split; [eapply findIn_deref; eauto|].
  unfold findIn in F. apply find_some in F. destruct F as [_ F].
  now apply TaskId_eqb_eq in F.
Qed.

Lemma findIn_sameIds (h h' : list (Task (list nat))) (l : list nat) (x : TaskId) :
  sameIds h h' ->
  option_map fst (findIn h l x) = option_map fst (findIn h' l x).
Proof.
  intros Hs. unfold findIn. induction l as [|a r IH]; [reflexivity|].
  simpl. pose proof (Hs a) as Ha.
  destruct (deref h a) as [t|]; destruct (deref h' a) as [t'|];
    simpl in Ha; try discriminate; [|exact IH].
  inversion Ha as [Hid]. simpl. rewrite Hid.
  destruct (TaskId_eqb (id t') x); [reflexivity|exact IH].
Qed.

Lemma findIn_address (h h' : list (Task (list nat))) (l : list nat) (x : TaskId)
      (a : nat) (t : Task (list nat)) :
  sameIds h h' -> findIn h l x = Some (a, t) ->
  exists t', findIn h' l x = Some (a, t') /\ deref h' a = Some t'.
Proof.
  intros Hs F. pose proof (findIn_sameIds h h' l x Hs) as E. rewrite F in E.
  destruct (findIn h' l x) as [[a' t']|] eqn:F'; [|discriminate].
  simpl in E. inversion E. subst a'. exists t'. split; [reflexivity|].
  eapply findIn_deref; eauto.
Qed.

Lemma deref_setAt_same (h : list (Task (list nat))) (a : nat)
      (t v : Task (list nat)) :
  deref h a = Some t -> deref (setAt a v h) a = Some v.
Proof.
  intros D. unfold deref in *. apply nth_error_setAt_same.
  apply nth_error_Some. congruence.
Qed.

Lemma deref_setAt_other (h : list (Task (list nat))) (a b : nat)
      (v : Task (list nat)) :
  a <> b -> deref (setAt a v h) b = deref h b.
Proof. intros Hne. unfold deref. now apply nth_error_setAt_other. Qed.

(** After [clearLinks] every task of the list has empty arrays. *)
Lemma clearLinks_clears (l : list nat) : forall h a t,
  In a l -> deref (clearLinks h l) a = Some t ->
  Types.dependencies t = [] /\ dependsOn t = [].
Proof.
  induction l as [|b r IH] using rev_ind; intros h a t Hin D; [destruct Hin|].
  unfold clearLinks in *. rewrite fold_left_app in D. cbn [fold_left] in D.
  set (h1 := fold_left _ r h) in *.
  destruct (Nat.eq_dec a b) as [->|Hne].
  - destruct (deref h1 b) as [tb|] eqn:Eb.
    + rewrite (deref_setAt_same h1 b tb _ Eb) in D. inversion D. now subst.
    + congruence.
  - assert (D1 : deref h1 a = Some t).
    { destruct (deref h1 b) as [tb|]; [|exact D].
      rewrite deref_setAt_other in D by congruence. exact D. }
    apply in_app_iff in Hin. destruct Hin as [Hin|[->|[]]]; [|congruence].
    exact (IH h a t Hin D1).
Qed.

Lemma findIn_In (h : list (Task (list nat))) (l : list nat) (x : TaskId)
      (a : nat) (t : Task (list nat)) :
  findIn h l x = Some (a, t) -> In a l.
Proof.
  unfold findIn. intros F. apply find_some in F. destruct F as [F _].
  induction l as [|b r IH]; [destruct F|].
  simpl in F. destruct (deref h b).
  - destruct F as [F|F]; [inversion F; now left|right; auto].
  - right. auto.
Qed.

(** One step of the loop over the dependencies. *)
Lemma linkOne_effect (l : list nat) (h : list (Task (list nat))) (dep : Dependency)
      (x : TaskId) (a : nat) (t0 t : Task (list nat)) :
  findIn h l x = Some (a, t0) ->
  deref (linkOne l h dep) a = Some t ->
  Types.dependencies t
  = Types.dependencies t0
    ++ (if TaskId_eqb (fromId dep) x then [toId dep] else [])
  /\ dependsOn t
     = dependsOn t0 ++ (if TaskId_eqb (toId dep) x then [fromId dep] else []).
Proof.
  intros F D. destruct (findIn_spec _ _ _ _ _ F) as [D0 I0].
  unfold linkOne in D.
  set (h1 := match findIn h l (fromId dep) with
             | Some (af, fromTask) =>
                 setAt af (withLinks fromTask
                             (push (Types.dependencies fromTask) (toId dep))
                             (dependsOn fromTask)) h
             | None => h
             end) in *.
  assert (S1 : sameIds h h1).
  { unfold h1. destruct (findIn h l (fromId dep)) as [[af ft]|] eqn:Ff;
      [|apply sameIds_refl].
    apply (sameIds_setAt h af ft); [eapply findIn_deref; eauto|reflexivity]. }
  assert (E1 : exists t1, deref h1 a = Some t1
                 /\ Types.dependencies t1
                    = Types.dependencies t0
                      ++ (if TaskId_eqb (fromId dep) x then [toId dep] else [])
                 /\ dependsOn t1 = dependsOn t0 /\ id t1 = x).
  { unfold h1. destruct (findIn h l (fromId dep)) as [[af ft]|] eqn:Ff.
    - destruct (findIn_spec _ _ _ _ _ Ff) as [Df If].
      destruct (TaskId_eqb (fromId dep) x) eqn:Ex.
      + apply TaskId_eqb_eq in Ex. rewrite Ex in Ff. rewrite F in Ff.
        inversion Ff. subst af ft.
        eexists. split; [eapply deref_setAt_same; eauto|].
        repeat split; auto.
      + assert (af <> a).
        { intros ->. rewrite D0 in Df. inversion Df. subst ft.
          assert (Hx : fromId dep = x) by congruence.
          apply TaskId_eqb_eq in Hx. congruence. }
        exists t0. rewrite deref_setAt_other by assumption.
        rewrite app_nil_r. auto.
    - exists t0. destruct (TaskId_eqb (fromId dep) x) eqn:Ex.
      + apply TaskId_eqb_eq in Ex. rewrite Ex in Ff. congruence.
      + rewrite app_nil_r. auto. }
  destruct E1 as (t1 & D1 & L1 & L2 & I1).
  destruct (findIn_address h h1 l x a t0 S1 F) as (t1' & F1 & D1').
  assert (t1' = t1) by congruence. subst t1'.
  destruct (findIn h1 l (toId dep)) as [[at_ tt]|] eqn:Ft.
  - destruct (findIn_spec _ _ _ _ _ Ft) as [Dt It].
    destruct (TaskId_eqb (toId dep) x) eqn:Ex.
    + apply TaskId_eqb_eq in Ex. rewrite Ex in Ft. rewrite F1 in Ft.
      inversion Ft. subst at_ tt.
      rewrite (deref_setAt_same h1 a t1 _ D1) in D. inversion D. subst t.
      cbn. split; [exact L1|]. now rewrite L2.
    + assert (at_ <> a).
      { intros ->. rewrite D1 in Dt. inversion Dt. subst tt.
        assert (Hx : toId dep = x) by congruence.
        apply TaskId_eqb_eq in Hx. congruence. }
      rewrite deref_setAt_other in D by assumption.
      assert (t = t1) by congruence. subst t.
      rewrite app_nil_r. auto.
  - assert (t = t1) by congruence. subst t.
    destruct (TaskId_eqb (toId dep) x) eqn:Ex.
    + apply TaskId_eqb_eq in Ex. rewrite Ex in Ft. congruence.
    + rewrite app_nil_r. auto.
Qed.

Lemma links_mirror (l : list nat) (deps : list Dependency) :
  forall (h : list (Task (list nat))) (x : TaskId) (a : nat)
         (t0 t : Task (list nat)),
    findIn h l x = Some (a, t0) ->
    deref (fold_left (linkOne l) deps h) a = Some t ->
    Types.dependencies t
    = Types.dependencies t0
      ++ map toId (filter (fun d => TaskId_eqb (fromId d) x) deps)
    /\ dependsOn t
       = dependsOn t0
         ++ map fromId (filter (fun d => TaskId_eqb (toId d) x) deps).
Proof.
  induction deps as [|dep r IH]; intros h x a t0 t F D.
  - simpl in D. destruct (findIn_spec _ _ _ _ _ F) as [D0 _].
    assert (t = t0) by congruence. subst. now rewrite !app_nil_r.
  - cbn [fold_left] in D.
    destruct (findIn_address h (linkOne l h dep) l x a t0
                (sameIds_linkOne l h dep) F) as (t1 & F1 & D1).
    destruct (linkOne_effect l h dep x a t0 t1 F D1) as [L1 L2].
    destruct (IH (linkOne l h dep) x a t1 t F1 D) as [M1 M2].
    rewrite M1, M2, L1, L2. cbn [filter].
    destruct (TaskId_eqb (fromId dep) x); destruct (TaskId_eqb (toId dep) x);
      cbn [map app]; rewrite <- ?app_assoc; cbn [app]; rewrite ?app_nil_r; auto.
Qed.

(** What [_updateTaskDependencies] establishes. *)
Lemma updateTaskDependencies_mirrors (tm : TaskManager) :
  indexMirrorsList (_updateTaskDependencies tm).
Proof.
  intros x a t F.
  destruct (updateTaskDependencies_frame tm) as (_ & Et & Ed & _).
  unfold getDependencies. rewrite Ed. fold (getDependencies tm).
  unfold findTask, taskObjects in F. rewrite Et in F.
  change (findIn (heap (_updateTaskDependencies tm)) (tasks tm) x = Some (a, t)) in F.
  destruct (findIn_spec _ _ _ _ _ F) as [D _].
  unfold _updateTaskDependencies, setHeap in F, D. cbn [heap] in F, D.
  set (h0 := clearLinks (heap tm) (tasks tm)) in *.
  assert (S0 : sameIds (fold_left (linkOne (tasks tm)) (getDependencies tm) h0) h0).
  { intros b. symmetry. apply sameIds_links. }
  destruct (findIn_address _ h0 (tasks tm) x a t S0 F) as (t0 & F0 & D0).
  destruct (clearLinks_clears (tasks tm) (heap tm) a t0
              (findIn_In _ _ _ _ _ F0) D0) as [C1 C2].
  destruct (links_mirror (tasks tm) (getDependencies tm) h0 x a t0 t F0 D)
    as [M1 M2].
  rewrite M1, M2, C1, C2. auto.
Qed.

(** X13.  After a call of [createDependency] that meets both tasks and
    no dependency of that kind between them, and after a call of
    [deleteDependency] that returns [true], the [dependencies] and
    [dependsOn] arrays of the task found under each id list exactly the
    dependencies of the manager that leave and reach that id, in order. *)
Theorem dependency_arrays_mirror_the_list
        (tm tm1 : TaskManager) (from to : TaskId) (ty : DependencyType)
        (lag : Z) (res : option (nat * Dependency)) :
  (findTask tm from <> None -> findTask tm to <> None ->
   find (sameDependency from to ty) (dependencies tm) = None ->
   createDependency tm from to ty lag = Some (res, tm1) ->
   indexMirrorsList tm1)
  /\ (fst (deleteDependency tm from to) = true ->
      indexMirrorsList (snd (deleteDependency tm from to))).
Proof.
  split.
  - intros Hf Ht Hnew E. rewrite createDependency_unfold in E.
    destruct (findTask tm from); [|congruence].
    destruct (findTask tm to); [|congruence].
    rewrite Hnew in E. cbv zeta in E.
    destruct (checkCircularDependencies_opt (options tm)).
    + destruct (checkCircularDependencies _) as [[|]|]; inversion E; subst;
        apply updateTaskDependencies_mirrors.
    + inversion E; subst. apply updateTaskDependencies_mirrors.
  - unfold deleteDependency.
    destruct (findIndex _ (dependencies tm)); cbn [fst snd]; [|discriminate].
    intros _. apply updateTaskDependencies_mirrors.
Qed.

Lemma removeAt_push (A : Type) (l : list A) (x : A) :
  removeAt (length l) (push l x) = l.
Proof.
  unfold removeAt, push. rewrite firstn_app, firstn_all, Nat.sub_diag.
  cbn [firstn]. rewrite app_nil_r.
  rewrite skipn_all2; [now rewrite app_nil_r|]. rewrite length_app. simpl. lia.
Qed.

Lemma findIndex_push (A : Type) (f : A -> bool) (l : list A) (x : A) :
  findIndex f l = None -> f x = true -> findIndex f (push l x) = Some (length l).
Proof.
  unfold push. induction l as [|y r IH]; simpl; intros E Fx.
  - now rewrite Fx.
  - destruct (f y); [discriminate|].
    destruct (findIndex f r); [discriminate|]. now rewrite IH.
Qed.

(** X14.  On a manager with no dependency from [from] to [to],
    [deleteDependency] returns [false] and changes nothing; once
    [createDependency] has added one, of whatever type, [deleteDependency]
    returns [true] and the list of dependencies is the one from before. *)
Theorem deleteDependency_undoes_createDependency
        (tm tm1 : TaskManager) (from to : TaskId) (ty : DependencyType)
        (lag : Z) (d : nat * Dependency) :
  findIndex (fun d => TaskId_eqb (fromId (snd d)) from
                      && TaskId_eqb (toId (snd d)) to) (dependencies tm) = None ->
  deleteDependency tm from to = (false, tm)
  /\ (createDependency tm from to ty lag = Some (Some d, tm1) ->
      fst (deleteDependency tm1 from to) = true
      /\ dependencies (snd (deleteDependency tm1 from to)) = dependencies tm
      /\ taskIds (snd (deleteDependency tm1 from to)) = taskIds tm).
Proof.
  intros Hnone. split; [unfold deleteDependency; now rewrite Hnone|].
  intros E.
  assert (Hnew : find (sameDependency from to ty) (dependencies tm) = None).
  { destruct (find _ (dependencies tm)) as [e|] eqn:Fe; [|reflexivity].
    apply find_some in Fe. destruct Fe as [Hin He].
    pose proof (proj1 (findIndex_None _ _ _) Hnone e Hin) as Hf. cbv beta in Hf.
    unfold sameDependency in He. apply andb_true_iff in He.
    destruct He as [He _]. congruence. }
  rewrite createDependency_unfold in E.
  destruct (findTask tm from); [|discriminate].
  destruct (findTask tm to); [|discriminate].
  rewrite Hnew in E. cbv zeta in E.
  assert (E1 : tm1 = withDependency tm (nextDep tm, mkDependency from to ty (Some lag))
               /\ d = (nextDep tm, mkDependency from to ty (Some lag))).
  { destruct (checkCircularDependencies_opt (options tm)).
    - destruct (checkCircularDependencies _) as [[|]|]; inversion E; auto.
    - inversion E; auto. }
  destruct E1 as [-> ->].
  destruct (withDependency_frame tm (nextDep tm, mkDependency from to ty (Some lag)))
    as (Ei & Ed & _).
  unfold deleteDependency. rewrite Ed.
  rewrite (findIndex_push _ _ (dependencies tm) _ Hnone)
    by (cbn; now rewrite !TaskId_eqb_refl).
  cbn [fst snd]. split; [reflexivity|].
  destruct (updateTaskDependencies_frame
              (mkTaskManager (heap (withDependency tm (nextDep tm, mkDependency from to ty (Some lag))))
                 (tasks (withDependency tm (nextDep tm, mkDependency from to ty (Some lag))))
                 (removeAt (length (dependencies tm))
                    (push (dependencies tm) (nextDep tm, mkDependency from to ty (Some lag))))
                 (nextDep (withDependency tm (nextDep tm, mkDependency from to ty (Some lag))))
                 (options (withDependency tm (nextDep tm, mkDependency from to ty (Some lag))))
                 (nextId (withDependency tm (nextDep tm, mkDependency from to ty (Some lag))))))
    as (Fi & _ & Fd & _).
  split.
  - rewrite Fd. cbn [dependencies]. apply removeAt_push.
  - rewrite Fi. exact Ei.
Qed.

Lemma map_snd_combine_seq (A : Type) (l : list A) : forall n,
  map snd (combine (seq n (length l)) l) = l.
Proof.
  induction l as [|x r IH]; intros n; [reflexivity|].
  simpl. now rewrite IH.
Qed.

(** X15.  [setDependencies] returns for every list and stores it as it
    is, a list with a cycle included: the cycle check is run on it but its
    answer is not used.  The tasks are not touched. *)
Theorem setDependencies_accepts_any_list (tm : TaskManager)
        (deps : list Dependency) :
  exists tm',
    setDependencies tm deps = Some tm'
    /\ getDependencies tm' = deps
    /\ heap tm' = heap tm
    /\ tasks tm' = tasks tm.
Proof.
  unfold setDependencies.
  set (tm1 := mkTaskManager _ _ _ _ _ _).
  assert (G : getDependencies tm1 = deps).
  { unfold getDependencies, tm1. cbn [dependencies].
    apply map_snd_combine_seq. }
  destruct (checkCircularDependencies_opt (options tm)).
  - destruct (checkGraph_total (taskIds tm1) (getDependencies tm1)) as [b Eb].
    unfold checkCircularDependencies. rewrite Eb.
    exists tm1. repeat split; auto.
  - exists tm1. repeat split; auto.
Qed.

Lemma fold_max_spec (r : list Z) : forall x,
  (x <= fold_left Z.max r x)%Z
  /\ (forall k, In k r -> (k <= fold_left Z.max r x)%Z)
  /\ (fold_left Z.max r x = x \/ In (fold_left Z.max r x) r).
Proof.
  induction r as [|y r IH]; intros x; simpl.
  - split; [lia|]. split; [intros k []|now left].
  - destruct (IH (Z.max x y)) as (I1 & I2 & I3).
    split; [lia|]. split.
    + intros k [<-|Hk]; [lia|auto].
    + destruct I3 as [E|Hin]; [|right; now right].
      rewrite E. destruct (Z.max_spec x y) as [[_ ->]|[_ ->]];
        [right; now left|now left].
Qed.

Lemma maxOf_spec (l : list Z) (n : Z) :
  In n l ->
  exists m, maxOf l = Some m /\ In m l /\ forall k, In k l -> (k <= m)%Z.
Proof.
  destruct l as [|x r]; [intros []|]. intros _.
  destruct (fold_max_spec r x) as (I1 & I2 & I3).
  exists (fold_left Z.max r x). split; [reflexivity|]. split.
  - destruct I3 as [->|Hin]; [now left|now right].
  - intros k [<-|Hk]; auto.
Qed.

Lemma positiveIds_In (ids : list TaskId) (k : Z) :
  In k (positiveIds ids) <-> In (IdNum k) ids /\ (0 < k)%Z.
Proof.
  unfold positiveIds. rewrite filter_In, in_map_iff. split.
  - intros [(x & Ex & Hx) Hk]. apply Z.ltb_lt in Hk.
    destruct x as [n|s']; subst; [auto|lia].
  - intros [Hin Hk]. split; [|now apply Z.ltb_lt].
    exists (IdNum k). auto.
Qed.

(** X16.  [setTasks] with no task sets the id counter to 1.  With tasks
    of which one has a positive number as id, it sets the counter to one
    more than the largest such id, so that every numeric id is below the
    counter and the next id that is generated is the counter itself. *)
Theorem setTasks_counter (tm : TaskManager) (h : list (Task (list nat)))
        (l : list nat) (n : Z) :
  setTasks tm h [] = Some (mkTaskManager h [] (dependencies tm) (nextDep tm)
                                         (options tm) 1)
  /\ (In (IdNum n) (map (fun o => id (snd o)) (objects h l)) -> (0 < n)%Z ->
      exists tm',
        setTasks tm h l = Some tm'
        /\ heap tm' = h /\ tasks tm' = l
        /\ dependencies tm' = dependencies tm
        /\ In (IdNum (nextId tm' - 1)) (taskIds tm')
        /\ (forall k, In (IdNum k) (taskIds tm') -> (k < nextId tm')%Z)
        /\ _generateId tm' = nextId tm').
Proof.
  split; [reflexivity|].
  intros Hin Hn. unfold setTasks, _updateNextId.
  set (tm0 := mkTaskManager h l (dependencies tm) (nextDep tm) (options tm)
                            (nextId tm)).
  assert (Eids : taskIds tm0 = map (fun o => id (snd o)) (objects h l))
    by reflexivity.
  assert (Hl : (length (tasks tm0) =? 0)%nat = false).
  { apply Nat.eqb_neq. unfold tm0. cbn [tasks]. intros E.
    apply length_zero_iff_nil in E. subst l. destruct Hin. }
  rewrite Hl.
  destruct (maxOf_spec (positiveIds (taskIds tm0)) n) as (m & Em & Hm & Hmax).
  { apply positiveIds_In. rewrite Eids. auto. }
  rewrite Em. cbn [option_map].
  exists (setNextId tm0 (m + 1)).
  apply positiveIds_In in Hm. destruct Hm as [Hm Hm0].
  assert (Hbound : forall k, In (IdNum k) (taskIds tm0) -> (k < m + 1)%Z).
  { intros k Hk. destruct (Z_lt_le_dec 0 k) as [Hp|Hp]; [|lia].
    assert (k <= m)%Z; [|lia]. apply Hmax. apply positiveIds_In. auto. }
  repeat split; auto.
  - cbn [nextId setNextId]. now replace (m + 1 - 1)%Z with m by lia.
  - unfold _generateId. cbn [tasks nextId setNextId generateIdFrom].
    change (taskIds (setNextId tm0 (m + 1))) with (taskIds tm0).
    destruct (existsb (TaskId_eqb (IdNum (m + 1))) (taskIds tm0)) eqn:Ex;
      [|reflexivity].
    apply existsb_exists in Ex. destruct Ex as (y & Hy & Ey).
    apply TaskId_eqb_eq in Ey. subst y.
    specialize (Hbound _ Hy). lia.
Qed.

Section Ancestors.
Variable tm : TaskManager.
Variable rank : TaskId -> nat.
Hypothesis ranked :
  forall t p, In t (getTasks tm) -> parentId t = Some p ->
              (rank p < rank (id t))%nat.

Lemma truthyIdOpt_Some (o : option TaskId) (p : TaskId) :
  truthyIdOpt o = Some p -> o = Some p.
Proof.
  destruct o as [x|]; simpl; [|discriminate].
  destruct (truthyId x); [now intros [= ->]|discriminate].
Qed.

Lemma findTask_spec (x : TaskId) (a : nat) (t : Task (list nat)) :
  findTask tm x = Some (a, t) ->
  deref (heap tm) a = Some t /\ In t (getTasks tm) /\ id t = x.
Proof.
  unfold findTask. intros F. apply find_some in F. destruct F as [Hin Hid].
  split; [eapply objects_In; eauto|]. split.
  - unfold getTasks. apply in_map_iff. exists (a, t). auto.
  - now apply TaskId_eqb_eq in Hid.
Qed.

Lemma descends_step (g p : TaskId) (t : Task (list nat)) :
  descends (getTasks tm) g p -> In t (getTasks tm) -> parentId t = Some p ->
  descends (getTasks tm) g (id t).
Proof.
  intros D Hin Hp. induction D as [a u Hu Pu|a u y Hu Pu D IH].
  - apply descends_below with (t := u); [exact Hu|exact Pu|].
    now apply descends_child.
  - apply descends_below with (t := u); [exact Hu|exact Pu|].
    now apply IH.
Qed.

Lemma below_parent (t parent : Task (list nat)) :
  In t (getTasks tm) -> In parent (getTasks tm) ->
  parentId t = Some (id parent) ->
  (below (getTasks tm) rank (id parent) < below (getTasks tm) rank (id t))%nat.
Proof.
  intros Ht Hp Hpar. unfold below.
  pose proof (ranked t (id parent) Ht Hpar) as Hr.
  apply (filter_length_strict _ _ _ (getTasks tm) parent).
  - intros y Hy. apply Nat.ltb_lt in Hy. apply Nat.ltb_lt. lia.
  - exact Hp.
  - now apply Nat.ltb_lt.
  - apply Nat.ltb_ge. lia.
Qed.

Lemma climb_spec : forall fuel t acc,
  In t (getTasks tm) ->
  (below (getTasks tm) rank (id t) < fuel)%nat ->
  exists l,
    climb fuel tm t acc = Some (acc ++ l)
    /\ (forall a, In a l ->
          exists p, deref (heap tm) a = Some p /\ In p (getTasks tm)
                    /\ descends (getTasks tm) (id p) (id t))
    /\ (forall p, parentId t = Some p -> truthyId p = true ->
                  In p (taskIds tm) ->
                  exists a u, hd_error l = Some a
                              /\ deref (heap tm) a = Some u /\ id u = p).
Proof.
  induction fuel as [|f IH]; intros t acc Ht Hf; [lia|].
  cbn [climb].
  destruct (truthyIdOpt (parentId t)) as [p|] eqn:Ep.
  - apply truthyIdOpt_Some in Ep as Ep'.
    destruct (findTask tm p) as [[a parent]|] eqn:Fp.
    + destruct (findTask_spec p a parent Fp) as (Da & Hpin & Hid). subst p.
      pose proof (below_parent t parent Ht Hpin Ep') as Hb.
      destruct (IH parent (push acc a) Hpin) as (l & El & Hl & _); [lia|].
      exists (a :: l). split; [|split].
      * rewrite El. unfold push. now rewrite <- app_assoc.
      * intros b [<-|Hb'].
        -- exists parent. repeat split; auto. now apply descends_child.
        -- destruct (Hl b Hb') as (q & Dq & Hq & Dsc).
           exists q. repeat split; auto.
           eapply descends_step; eauto.
      * intros p Hp _ _. rewrite Ep' in Hp. inversion Hp. subst p.
        exists a, parent. auto.
    + exists []. rewrite app_nil_r. split; [reflexivity|]. split.
      * intros a [].
      * intros q Hq _ Hin. rewrite Ep' in Hq. inversion Hq. subst q.
        apply findTask_ids in Hin. congruence.
  - exists []. rewrite app_nil_r. split; [reflexivity|]. split.
    + intros a [].
    + intros q Hq Htr _. unfold truthyIdOpt in Ep. rewrite Hq, Htr in Ep.
      discriminate.
Qed.

(** X17.  When the [parentId] properties of the tasks go down some
    ranking of the ids, [getAncestorTasks] returns, and what it returns
    are tasks of the list of which the given task is a descendant along
    [parentId]; for an id that no task has it returns the empty list. *)
Theorem getAncestorTasks_spec (taskId : TaskId) :
  exists l,
    getAncestorTasks tm taskId = Some l
    /\ (forall a, In a l ->
          exists p, deref (heap tm) a = Some p /\ In p (getTasks tm)
                    /\ descends (getTasks tm) (id p) taskId)
    /\ (~ In taskId (taskIds tm) -> l = []).
Proof.
  unfold getAncestorTasks.
  destruct (findTask tm taskId) as [[a t]|] eqn:F.
  - destruct (findTask_spec taskId a t F) as (Da & Hin & Hid).
    destruct (climb_spec (S (length (tasks tm))) t [] Hin) as (l & El & Hl & _).
    + unfold below. pose proof (filter_length_le (fun u => (rank (id u) <? rank (id t))%nat)
                                  (getTasks tm)) as Hle.
      unfold getTasks in *. rewrite length_map in Hle.
      pose proof (objects_length (heap tm) (tasks tm)). unfold taskObjects in *. lia.
    + exists l. split; [exact El|]. split.
      * intros b Hb. destruct (Hl b Hb) as (p & Dp & Hp & Dsc).
        exists p. rewrite Hid in Dsc. auto.
      * intros Hnot. exfalso. apply Hnot. apply findTask_ids. congruence.
  - exists []. split; [reflexivity|]. split; [intros a []|reflexivity].
Qed.

End Ancestors.


Section Creation.
Context {H : Host}.



(** X19.  [createTask] with a start that the host cannot read, made of
    three parts between hyphens of which one is no number, does not fail:
    it stores a task whose start is the text [NaN-NaN-NaN]. *)
Theorem createTask_stores_NaN_text (tm : TaskManager)
        (d : TaskData (list nat)) (s p0 p1 p2 : string) :
  p_start d = Some s ->
  Date_parse s = None ->
  split s "-"%char = [p0; p1; p2] ->
  parseInt p0 = None \/ parseInt p1 = None \/ parseInt p2 = None ->
  start (snd (fst (createTask tm d))) = "NaN-NaN-NaN"%string
  /\ tasks (snd (createTask tm d)) = tasks tm ++ [fst (fst (createTask tm d))].
Proof.
  intros Hs Hp Hsplit Hnan.
  destruct (createTask_spec tm d) as (Ea & _ & Et & _).
  split; [|now rewrite Et, Ea].
  assert (Hne : String.eqb s "" = false).
  { destruct s; [discriminate Hsplit|reflexivity]. }
  unfold createTask, newTaskObject. cbn [fst snd start].
  rewrite Hs. unfold truthyStr. rewrite Hne.
  unfold parseDate. rewrite Hne. unfold newDateString. rewrite Hp, Hsplit.
  assert (E : newDateLocal (parseInt p0) (numSub (parseInt p1) (Some 1%Z))
                           (parseInt p2) = None).
  { unfold newDateLocal, numSub.
    destruct Hnan as [-> |[-> | ->]]; [reflexivity| |].
    - destruct (parseInt p0); reflexivity.
    - destruct (parseInt p0); [destruct (parseInt p1)|]; reflexivity. }
  rewrite E. reflexivity.
Qed.

End Creation.

(** *** Closed examples *)

Lemma projectWithGrandchild_wellFormed : wellFormed projectWithGrandchild.
Proof. vm_compute. repeat constructor. Qed.

Lemma projectWithGrandchild_closed : closedHeap projectWithGrandchild.
Proof.
  intros a t c D Hc. change (length (heap projectWithGrandchild)) with 3%nat.
  destruct a as [|[|[|a]]]; vm_compute in D;
    [| | |destruct a; discriminate D];
    inversion D; subst t; simpl in Hc;
    repeat (destruct Hc as [<-|Hc]; [lia|]); destruct Hc.
Qed.


(** The child of the project, complete so far, is set back to no
    progress: the project still reports 67. *)
Lemma updateTask_leaves_project_progress_witness :
  calculateProjectProgress projectWithGrandchild (IdStr "P") = Some 67%Z
  /\ calculateProjectProgress
       (snd (updateTask (H := isoUTC) projectWithGrandchild (IdStr "c")
               (sampleData None "2024-01-01" "2024-01-10" None (Some 0%Z)
                           None)))
       (IdStr "P")
     = Some 67%Z.
Proof.
  split; [reflexivity|].
  apply (updateTask_leaves_project_progress (H := isoUTC));
    [exact projectWithGrandchild_wellFormed
    |exact projectWithGrandchild_closed
    |discriminate | reflexivity | reflexivity].
Defined.

Lemma dependency_arrays_mirror_the_list_witness :
  exists res tm1,
    createDependency twoTasks (IdNum 1) (IdNum 2) finish_to_start 0
    = Some (res, tm1)
    /\ indexMirrorsList tm1.
Proof.
  destruct (createDependency twoTasks (IdNum 1) (IdNum 2) finish_to_start 0)
    as [[res tm1]|] eqn:E; [|vm_compute in E; discriminate].
  exists res, tm1. split; [reflexivity|].
  apply (proj1 (dependency_arrays_mirror_the_list twoTasks tm1 (IdNum 1)
                  (IdNum 2) finish_to_start 0 res));
    [vm_compute; discriminate | vm_compute; discriminate | reflexivity
    |exact E].
Defined.

Lemma deleteDependency_undoes_createDependency_witness :
  deleteDependency twoTasks (IdNum 1) (IdNum 2) = (false, twoTasks)
  /\ exists d tm1,
       createDependency twoTasks (IdNum 1) (IdNum 2) start_to_start 0
       = Some (Some d, tm1)
       /\ fst (deleteDependency tm1 (IdNum 1) (IdNum 2)) = true
       /\ dependencies (snd (deleteDependency tm1 (IdNum 1) (IdNum 2)))
          = dependencies twoTasks.
Proof.
  destruct (createDependency twoTasks (IdNum 1) (IdNum 2) start_to_start 0)
    as [[[d|] tm1]|] eqn:E; try (vm_compute in E; discriminate).
  destruct (deleteDependency_undoes_createDependency twoTasks tm1 (IdNum 1)
              (IdNum 2) start_to_start 0 d eq_refl) as [A B].
  split; [exact A|]. exists d, tm1. split; [reflexivity|].
  destruct (B E) as (B1 & B2 & _). split; [exact B1|exact B2].
Defined.

(** The tasks 1, 2 and 3: the counter becomes 4. *)
Lemma setTasks_counter_witness :
  exists tm',
    setTasks (newTaskManager noOptions) (heap family) (tasks family) = Some tm'
    /\ (forall k, In (IdNum k) (taskIds tm') -> (k < nextId tm')%Z)
    /\ _generateId tm' = nextId tm'.
Proof.
  destruct (proj2 (setTasks_counter (newTaskManager noOptions) (heap family)
                     (tasks family) 3))
    as (tm' & E & _ & _ & _ & _ & Hlt & Hgen).
  - vm_compute. tauto.
  - lia.
  - exists tm'. split; [exact E|]. split; [exact Hlt|exact Hgen].
Defined.

(** The ancestors of the grandchild. *)
Lemma getAncestorTasks_spec_witness :
  exists l,
    getAncestorTasks family (IdNum 3) = Some l
    /\ forall a, In a l ->
         exists p, deref (heap family) a = Some p /\ In p (getTasks family)
                   /\ descends (getTasks family) (id p) (IdNum 3).
Proof.
  destruct (getAncestorTasks_spec family numericRank family_ranks (IdNum 3))
    as (l & E & Hl & _).
  exists l. split; [exact E|exact Hl].
Defined.

Lemma createTask_stores_NaN_text_witness :
  start (snd (fst (createTask (H := isoUTC) (newTaskManager noOptions)
                     (sampleData None "a-b-c" "2024-01-05" None None None))))
  = "NaN-NaN-NaN"%string.
Proof.
  apply (createTask_stores_NaN_text (H := isoUTC) (newTaskManager noOptions)
           (sampleData None "a-b-c" "2024-01-05" None None None)
           "a-b-c" "a" "b" "c");
    [reflexivity | reflexivity | reflexivity | left; reflexivity].
Defined.

End TaskEditingFacts.

(** ** [TaskUtils]: the second cycle check and the scheduler on any input *)

Module TaskUtilsRestFacts.
Import Types DateUtils TaskUtils TaskUtilsRest.
Import TaskManagerFacts TaskUtilsFacts.

Lemma graphAdd_keys (g : TaskManager.Graph) (a b k : TaskId) :
  In k (map fst (TaskManager.graphAdd g a b)) -> k = a \/ In k (map fst g).
Proof.
  induction g as [|[k' l] r IH]; simpl.
  - intros [<-|[]]. now left.
  - destruct (TaskId_eqb k' a); simpl.
    + intros [<-|Hin]; [right; now left|right; now right].
    + intros [<-|Hin]; [right; now left|].
      destruct (IH Hin) as [->|Hr]; [now left|right; now right].
Qed.

Lemma buildGraph_keys (deps : list Dependency) (k : TaskId) :
  In k (map fst (TaskManager.buildGraph deps)) -> In k (map fromId deps).
Proof.
  unfold TaskManager.buildGraph.
  assert (G : forall g,
             In k (map fst (fold_left (fun g dep =>
                                         TaskManager.graphAdd g (fromId dep) (toId dep))
                                      deps g)) ->
             In k (map fst g) \/ In k (map fromId deps)).
  { induction deps as [|d r IH]; intros g Hin; [now left|].
    cbn [fold_left] in Hin. destruct (IH _ Hin) as [Hg|Hr].
    - destruct (graphAdd_keys _ _ _ _ Hg) as [->|Hg']; [right; now left|now left].
    - right. now right. }
  intros Hin. destruct (G [] Hin) as [[]|Hr]. exact Hr.
Qed.

Lemma isCyclic_total (graph : TaskManager.Graph) (U : list TaskId) :
  (forall k y, In y (TaskManager.graphGet graph k) -> In y U) ->
  forall fuel x st,
    In x U -> (unvisited U (fst st) < fuel)%nat ->
    exists b st', isCyclic fuel graph x st = Some (b, st')
                  /\ incl (fst st) (fst st').
Proof.
  intros Hg. induction fuel as [|f IH]; intros x st Hx Hf; [lia|].
  cbn [isCyclic].
  destruct (setHas (fst st) x) eqn:Ev.
  { eexists _, _. split; [reflexivity|apply incl_refl]. }
  apply setHas_false in Ev.
  assert (Hadd : incl (fst st) (setAdd (fst st) x)).
  { intros y Hy. apply setAdd_In. now right. }
  assert (Hlt : (unvisited U (setAdd (fst st) x) < f)%nat).
  { pose proof (unvisited_strict U (fst st) (setAdd (fst st) x) x Hadd Hx Ev) as Hs.
    assert (Hin : In x (setAdd (fst st) x)) by (apply setAdd_In; now left).
    specialize (Hs Hin). lia. }
  destruct (someM_total _ _
              (fun neighbor st =>
                 if setHas (fst st) neighbor
                 then Some (setHas (snd st) neighbor, st)
                 else
                   match isCyclic f graph neighbor st with
                   | Some (true, st') => Some (true, st')
                   | Some (false, st') => Some (setHas (snd st') neighbor, st')
                   | None => None
                   end)
              (fun s => incl (setAdd (fst st) x) (fst s))
              (TaskManager.graphGet graph x)
              (setAdd (fst st) x, setAdd (snd st) x)) as (b & st' & E & Hp).
  - intros y s Hy Hs. cbv beta.
    destruct (setHas (fst s) y); [eexists _, _; split; [reflexivity|exact Hs]|].
    destruct (IH y s (Hg _ _ Hy)) as (b & s' & E & Hi).
    + pose proof (unvisited_mono U _ _ Hs). lia.
    + rewrite E. destruct b; eexists _, _; (split; [reflexivity|]);
        eapply incl_tran; eauto.
  - apply incl_refl.
  - rewrite E. destruct b.
    + exists true, st'. split; [reflexivity|]. eapply incl_tran; eauto.
    + destruct st' as [v s]. exists false, (v, setDelete s x).
      split; [reflexivity|]. simpl. eapply incl_tran; eauto.
Qed.

(** X20.  [TaskUtils.hasCyclicDependencies] returns [false] for every
    list of dependencies, cyclic ones included: the [return true] that
    follows the search leaves the callback of [forEach], not the
    function. *)
Theorem hasCyclicDependencies_is_always_false (deps : list Dependency) :
  hasCyclicDependencies deps = Some false.
Proof.
  unfold hasCyclicDependencies. cbv zeta.
  set (U := map fromId deps ++ map toId deps).
  assert (HU : length U = (length deps + length deps)%nat)
    by (unfold U; now rewrite length_app, !length_map).
  destruct (forEachM_total _ _
              (fun nodeId st =>
                 if setHas (fst st) nodeId then Some st
                 else option_map snd
                        (isCyclic (S (length deps + length deps))
                                  (TaskManager.buildGraph deps) nodeId st))
              (fun _ => True)
              (map fst (TaskManager.buildGraph deps)) ([], []))
    as (st' & E & _).
  - intros x st Hx _. cbv beta.
    destruct (setHas (fst st) x); [eauto|].
    destruct (isCyclic_total (TaskManager.buildGraph deps) U) with
      (fuel := S (length deps + length deps)) (x := x) (st := st)
      as (b & s' & E & _).
    + intros k y Hy. unfold U. apply in_app_iff. right.
      eapply graphGet_buildGraph; eauto.
    + unfold U. apply in_app_iff. left. now apply buildGraph_keys.
    + pose proof (unvisited_le U (fst st)). lia.
    + rewrite E. cbn. eauto.
  - exact I.
  - now rewrite E.
Qed.

(** The check of [TaskManager] does find the cycle of two tasks that
    depend on each other. *)
Lemma the_two_cycle_checks_disagree :
  hasCyclicDependencies cyclicDependencies = Some false
  /\ TaskManager.checkGraph [IdNum 1; IdNum 2] cyclicDependencies = Some true.
Proof. split; vm_compute; reflexivity. Qed.

Section WithHost.
Context {H : Host}.
Variable C : Type.

(** [tasksOverlap] does not depend on the order of the two tasks, and for
    dates that parse it tells whether the two spans share a moment. *)
Lemma tasksOverlap_spec (a b : Task C) (s1 e1 s2 e2 : Z) :
  tasksOverlap a b = tasksOverlap b a
  /\ (parseDate (Str (start a)) = Some s1 -> parseDate (Str (end_ a)) = Some e1 ->
      parseDate (Str (start b)) = Some s2 -> parseDate (Str (end_ b)) = Some e2 ->
      (tasksOverlap a b = true <-> (s1 <= e2 /\ s2 <= e1)%Z)).
Proof.
  unfold tasksOverlap. cbv zeta. unfold numLt, numGt, getTime. split.
  - rewrite orb_comm. reflexivity.
  - intros -> -> -> ->.
    rewrite negb_true_iff, orb_false_iff, !Z.ltb_ge. tauto.
Qed.

(** With no dependency, [visit] only records the id. *)
Lemma visit_no_dependencies (f : nat) (m : TaskMap C) (x : TaskId)
      (v res : list TaskId) :
  visit (S f) [] m x (v, res)
  = if setHas v x then Some (v, res)
    else Some (setAdd v x,
               match mapGet m x with Some _ => push res x | None => res end).
Proof.
  cbn [visit fst snd incoming filter forEachM].
  destruct (setHas v x); [reflexivity|]. destruct (mapGet m x); reflexivity.
Qed.

Lemma visitAll_no_dependencies (f : nat) (m : TaskMap C) :
  forall (l : list (Task C)) v res,
    (forall t, In t l -> mapGet m (id t) <> None) ->
    NoDup (map (@id C) l) ->
    (forall t, In t l -> ~ In (id t) v) ->
    exists v',
      visitAll (S f) [] m l (v, res) = Some (v', res ++ map (@id C) l).
Proof.
  induction l as [|t r IH]; intros v res Hm Hnd Hv.
  - exists v. simpl. now rewrite app_nil_r.
  - unfold visitAll in *. cbn [forEachM fst].
    assert (Ev : setHas v (id t) = false)
      by (apply setHas_false; apply Hv; now left).
    rewrite Ev, visit_no_dependencies, Ev.
    destruct (mapGet m (id t)) eqn:Eg; [|exfalso; eapply Hm; eauto; now left].
    inversion Hnd as [|? ? Hnot Hnd']; subst.
    destruct (IH (setAdd v (id t)) (push res (id t))) as (v' & E).
    + intros u Hu. apply Hm. now right.
    + exact Hnd'.
    + intros u Hu Hin. apply setAdd_In in Hin. destruct Hin as [Hin|Hin].
      * apply Hnot. rewrite <- Hin. now apply in_map.
      * eapply Hv; eauto. now right.
    + exists v'. rewrite E. unfold push. now rewrite <- app_assoc.
Qed.

Lemma reschedule_no_dependencies (m : TaskMap C) (k : TaskId) :
  reschedule [] m k = m.
Proof. unfold reschedule. destruct (mapGet m k); reflexivity. Qed.

Lemma collect_all (m : TaskMap C) (l : list (Task C)) :
  (forall t, In t l -> mapGet m (id t) = Some t) ->
  collect m (map (@id C) l) = l.
Proof.
  induction l as [|t r IH]; intros Hm; [reflexivity|].
  cbn [map collect]. rewrite (Hm t (or_introl eq_refl)).
  f_equal. apply IH. intros u Hu. apply Hm. now right.
Qed.

(** X21.  With no dependency, [autoScheduleTasks] returns the tasks it
    was given, unchanged and in the order given (ids without
    repetition). *)
Theorem autoSchedule_without_dependencies (tasks : list (Task C)) :
  NoDup (map (@id C) tasks) ->
  autoScheduleTasks tasks [] = Some tasks.
Proof.
  intros Hnd. unfold autoScheduleTasks, autoScheduleTasksFuel, scheduleOrder,
    enoughFuel. cbv zeta.
  assert (Hfind : forall t, In t tasks -> mapGet (buildTaskMap tasks) (id t) = Some t)
    by (intros t Ht; now apply TaskUtilsFacts.buildTaskMap_find).
  destruct (visitAll_no_dependencies (length tasks + length (@nil Dependency))
              (buildTaskMap tasks) tasks [] []) as (v' & E).
  - intros t Ht. rewrite (Hfind t Ht). discriminate.
  - exact Hnd.
  - intros t _ [].
  - rewrite E. cbn [option_map snd app].
    assert (F : forall l m, fold_left (reschedule (C := C) []) l m = m).
    { induction l as [|k r IH]; intros m; [reflexivity|].
      cbn [fold_left]. now rewrite reschedule_no_dependencies. }
    rewrite F. f_equal. now apply collect_all.
Qed.

Section AnyDependencies.
Variable deps : list Dependency.
Variable m : TaskMap C.
Variable U : list TaskId.
Hypothesis deps_in_U : forall d, In d deps -> In (fromId d) U.

(** A call of [visit] returns, whatever the dependencies: [pending] are
    the ids whose visit is under way. *)
Lemma visit_total : forall fuel x v res pending,
  In x U ->
  (unvisited U v < fuel)%nat ->
  incl res v -> NoDup res -> (forall k, In k res -> mapHas m k) ->
  (forall y, In y v -> finished m y res \/ In y pending) ->
  exists v' ext,
    visit fuel deps m x (v, res) = Some (v', res ++ ext)
    /\ incl v v' /\ In x v'
    /\ incl (res ++ ext) v' /\ NoDup (res ++ ext)
    /\ (forall k, In k ext -> mapHas m k /\ ~ In k v)
    /\ (forall y, In y v' -> finished m y (res ++ ext) \/ In y pending).
Proof.
  induction fuel as [|f IH]; intros x v res pending Hx Hf Hrv Hnd Hkeys Hopen;
    [lia|].
  cbn [visit fst snd].
  destruct (setHas v x) eqn:Ev.
  { apply setHas_In in Ev. exists v, []. rewrite app_nil_r.
    split; [reflexivity|]. split; [apply incl_refl|]. split; [exact Ev|].
    split; [exact Hrv|]. split; [exact Hnd|]. split; [intros k []|exact Hopen]. }
  apply setHas_false in Ev. rename Ev into Hnv.
  assert (Hxv : In x (setAdd v x)) by (apply setAdd_In; now left).
  assert (Hvv : incl v (setAdd v x)) by (intros y Hy; apply setAdd_In; now right).
  assert (Hfuel : (unvisited U (setAdd v x) < f)%nat).
  { pose proof (unvisited_strict U v (setAdd v x) x Hvv Hx Hnv Hxv). lia. }
  assert (Loop : forall ds vs ext0,
    (forall d, In d ds -> In d deps) ->
    incl (setAdd v x) vs ->
    incl (res ++ ext0) vs -> NoDup (res ++ ext0) ->
    (forall k, In k ext0 -> mapHas m k /\ ~ In k (setAdd v x)) ->
    (forall y, In y vs -> finished m y (res ++ ext0) \/ In y (x :: pending)) ->
    exists vs' ext1,
      forEachM (fun dep => visit f deps m (fromId dep)) ds (vs, res ++ ext0)
      = Some (vs', res ++ ext1)
      /\ incl (setAdd v x) vs'
      /\ incl (res ++ ext1) vs' /\ NoDup (res ++ ext1)
      /\ (forall k, In k ext1 -> mapHas m k /\ ~ In k (setAdd v x))
      /\ (forall y, In y vs' -> finished m y (res ++ ext1) \/ In y (x :: pending))).
  { induction ds as [|d r IHds]; intros vs ext0 Hds Hvs Hinc Hnd0 Hext Hop.
    - exists vs, ext0. repeat split; auto; apply Hext; auto.
    - cbn [forEachM].
      destruct (IH (fromId d) vs (res ++ ext0) (x :: pending))
        as (v1 & e1 & E1 & I1 & _ & I3 & I4 & I5 & I6).
      + apply deps_in_U. apply Hds. now left.
      + pose proof (unvisited_mono U (setAdd v x) vs Hvs). lia.
      + exact Hinc.
      + exact Hnd0.
      + intros k Hk. apply in_app_iff in Hk.
        destruct Hk as [Hk|Hk]; [now apply Hkeys|now apply Hext].
      + exact Hop.
      + rewrite E1. rewrite <- app_assoc in *.
        destruct (IHds v1 (ext0 ++ e1)) as (v2 & e2 & E2 & J1 & J2 & J3 & J4 & J5).
        * intros d' Hd'. apply Hds. now right.
        * eapply incl_tran; eauto.
        * exact I3.
        * exact I4.
        * intros k Hk. apply in_app_iff in Hk. destruct Hk as [Hk|Hk].
          -- now apply Hext.
          -- destruct (I5 k Hk) as [K1 K2]. split; [exact K1|].
             intros Hin. apply K2. now apply Hvs.
        * exact I6.
        * exists v2, e2. repeat split; auto; apply J4; auto. }
  destruct (Loop (incoming deps x) (setAdd v x) [])
    as (vF & eF & EF & F1 & F2 & F3 & F4 & F5).
  { intros d Hd. now apply incoming_In in Hd. }
  { apply incl_refl. }
  { rewrite app_nil_r. eapply incl_tran; eauto. }
  { now rewrite app_nil_r. }
  { intros k []. }
  { rewrite app_nil_r. intros y Hy. apply setAdd_In in Hy.
    destruct Hy as [->|Hy]; [right; now left|].
    destruct (Hopen y Hy) as [Hfin|Hp]; [now left|right; now right]. }
  rewrite app_nil_r in EF. rewrite EF.
  assert (HxF : ~ In x (res ++ eF)).
  { intros Hin. apply in_app_iff in Hin. destruct Hin as [Hin|Hin].
    - apply Hnv. now apply Hrv.
    - destruct (F4 x Hin) as [_ Hn]. now apply Hn. }
  destruct (mapGet m x) as [tx|] eqn:Gx.
  - exists vF, (eF ++ [x]). unfold push. rewrite app_assoc.
    split; [reflexivity|]. split; [eapply incl_tran; eauto|].
    split; [now apply F1|]. split; [|split; [|split]].
    + intros y Hy. apply in_app_iff in Hy.
      destruct Hy as [Hy|[<-|[]]]; [now apply F2|now apply F1].
    + apply NoDup_app; [exact F3|repeat constructor; auto|].
      intros y Hy [<-|[]]. auto.
    + intros k Hk. apply in_app_iff in Hk. destruct Hk as [Hk|[<-|[]]].
      * destruct (F4 k Hk) as [K1 K2]. split; [exact K1|].
        intros Hin. apply K2. now apply Hvv.
      * split; [unfold mapHas; congruence|exact Hnv].
    + intros y Hy. destruct (F5 y Hy) as [Hfin|[<-|Hp]].
      * left. now apply finished_mono.
      * left. intros _. apply in_app_iff. right. now left.
      * now right.
  - exists vF, eF. split; [reflexivity|]. split; [eapply incl_tran; eauto|].
    split; [now apply F1|]. split; [exact F2|]. split; [exact F3|]. split.
    + intros k Hk. destruct (F4 k Hk) as [K1 K2]. split; [exact K1|].
      intros Hin. apply K2. now apply Hvv.
    + intros y Hy. destruct (F5 y Hy) as [Hfin|[<-|Hp]]; [now left| |now right].
      left. intros Hm. exfalso. now apply Hm.
Qed.

Lemma visitAll_total (fuel : nat) : forall (ts : list (Task C)) v res,
  (length U < fuel)%nat ->
  (forall t, In t ts -> In (id t) U) ->
  incl res v -> NoDup res -> (forall k, In k res -> mapHas m k) ->
  (forall y, In y v -> finished m y res) ->
  exists v' res',
    visitAll fuel deps m ts (v, res) = Some (v', res')
    /\ incl v v' /\ incl res' v' /\ NoDup res'
    /\ (forall k, In k res' -> mapHas m k)
    /\ (forall y, In y v' -> finished m y res')
    /\ forall t, In t ts -> In (id t) v'.
Proof.
  unfold visitAll.
  induction ts as [|t r IH]; intros v res Hfuel Hts Hrv Hnd Hkeys Hfin.
  - exists v, res. repeat split; auto. apply incl_refl. intros ? [].
  - cbn [forEachM fst].
    assert (Step : exists v1 r1,
      (if setHas v (id t) then Some (v, res)
       else visit fuel deps m (id t) (v, res)) = Some (v1, r1)
      /\ incl v v1 /\ incl r1 v1 /\ NoDup r1
      /\ (forall k, In k r1 -> mapHas m k)
      /\ (forall y, In y v1 -> finished m y r1)
      /\ In (id t) v1).
    { destruct (setHas v (id t)) eqn:Ev.
      - apply setHas_In in Ev. exists v, res. repeat split; auto. apply incl_refl.
      - destruct (visit_total fuel (id t) v res [])
          as (v1 & e1 & E1 & I1 & I2 & I3 & I4 & I5 & I6); auto.
        + apply Hts. now left.
        + pose proof (unvisited_le U v). lia.
        + exists v1, (res ++ e1). split; [exact E1|]. repeat split; auto.
          * intros k Hk. apply in_app_iff in Hk.
            destruct Hk as [Hk|Hk]; [now apply Hkeys|now apply I5].
          * intros y Hy. destruct (I6 y Hy) as [Hf|[]]. exact Hf. }
    destruct Step as (v1 & r1 & E1 & S1 & S2 & S3 & S4 & S5 & S6).
    rewrite E1.
    destruct (IH v1 r1 Hfuel) as (v2 & r2 & E2 & T1 & T2 & T3 & T4 & T5 & T6);
      auto.
    { intros t' Ht'. apply Hts. now right. }
    exists v2, r2. split; [exact E2|]. split; [eapply incl_tran; eauto|].
    repeat split; auto.
    intros t' [<-|Ht']; [now apply T1|now apply T6].
Qed.

End AnyDependencies.

Lemma scheduleOrder_total (tasks : list (Task C)) (deps : list Dependency) :
  exists order,
    scheduleOrder (enoughFuel tasks deps) tasks deps = Some order
    /\ NoDup order
    /\ (forall k, In k order <-> mapHas (buildTaskMap tasks) k).
Proof.
  unfold scheduleOrder.
  set (U := map (@id C) tasks ++ map fromId deps).
  destruct (visitAll_total deps (buildTaskMap tasks) U) with
    (fuel := enoughFuel tasks deps) (ts := tasks)
    (v := @nil TaskId) (res := @nil TaskId)
    as (v' & order & E & _ & I2 & I3 & I4 & I5 & I6).
  - intros d Hd. unfold U. apply in_app_iff. right. now apply in_map.
  - unfold U, enoughFuel. rewrite length_app, !length_map. lia.
  - intros t Ht. unfold U. apply in_app_iff. left. now apply in_map.
  - apply incl_refl.
  - constructor.
  - intros ? [].
  - intros ? [].
  - rewrite E. exists order. split; [reflexivity|]. split; [exact I3|].
    intros k. split; [apply I4|]. intros Hm.
    destruct (mapGet (buildTaskMap tasks) k) as [t|] eqn:G;
      [|exfalso; now apply Hm].
    apply TaskUtilsFacts.buildTaskMap_get in G. destruct G as [Hin <-].
    apply I5; [now apply I6|exact Hm].
Qed.

Lemma setDates_own (t : Task C) : setDates t (start t) (end_ t) = t.
Proof. now destruct t. Qed.

Lemma reschedule_dates_only (deps : list Dependency) (m0 : TaskMap C) :
  forall (l : list TaskId) (m : TaskMap C),
    (forall k t', mapGet m k = Some t' ->
       exists t s e, mapGet m0 k = Some t /\ t' = setDates t s e) ->
    forall k t', mapGet (fold_left (reschedule deps) l m) k = Some t' ->
      exists t s e, mapGet m0 k = Some t /\ t' = setDates t s e.
Proof.
  induction l as [|x r IH]; intros m Hm; [exact Hm|].
  cbn [fold_left]. apply IH. intros k t' G.
  unfold reschedule in G.
  destruct (mapGet m x) as [tx|] eqn:Gx; [|now apply Hm].
  destruct (0 <? length (incoming deps (id tx)))%nat; [|now apply Hm].
  destruct (numGt _ _); [|now apply Hm]. cbv zeta in G.
  destruct (TaskId_eqb x k) eqn:Ek.
  - apply TaskId_eqb_eq in Ek. subst k.
    rewrite TaskUtilsFacts.mapGet_mapSet_same in G. inversion G. subst t'.
    destruct (Hm x tx Gx) as (t & s & e & G0 & ->).
    eexists t, _, _. split; [exact G0|]. reflexivity.
  - rewrite TaskUtilsFacts.mapGet_mapSet_other in G; [now apply Hm|].
    intros ->. now rewrite TaskId_eqb_refl in Ek.
Qed.

(** X22.  Whatever the dependencies, cycles and references to unknown
    tasks included, [autoScheduleTasks] returns (ids without repetition):
    the result holds every task of the input once, under the same ids, and
    each of them differs from the input task at most in its start and its
    end. *)
Theorem autoSchedule_returns_every_task (tasks : list (Task C))
        (deps : list Dependency) :
  NoDup (map (@id C) tasks) ->
  exists out,
    autoScheduleTasks tasks deps = Some out
    /\ NoDup (map (@id C) out)
    /\ (forall k, In k (map (@id C) out) <-> In k (map (@id C) tasks))
    /\ length out = length tasks
    /\ forall t', In t' out ->
         exists t s e, In t tasks /\ t' = setDates t s e.
Proof.
  intros Hnd.
  destruct (scheduleOrder_total tasks deps) as (order & Eo & Ond & Okeys).
  unfold autoScheduleTasks, autoScheduleTasksFuel. rewrite Eo.
  set (m0 := buildTaskMap tasks) in *.
  set (mF := fold_left (reschedule deps) order m0).
  assert (Hkey0 : keyedById m0) by apply TaskUtilsFacts.buildTaskMap_keyed.
  assert (HkeyF : keyedById mF) by now apply TaskUtilsFacts.fold_reschedule_keyed.
  assert (HhasF : forall k, In k order -> mapHas mF k).
  { intros k Hk. unfold mapHas, mF. rewrite TaskUtilsFacts.fold_reschedule_has.
    now apply Okeys. }
  assert (Hids : map (@id C) (collect mF order) = order)
    by now apply TaskUtilsFacts.collect_ids.
  assert (Hkeys : forall k, In k order <-> In k (map (@id C) tasks)).
  { intros k. rewrite Okeys. split.
    - intros Hm. destruct (mapGet m0 k) as [t|] eqn:G; [|exfalso; now apply Hm].
      apply TaskUtilsFacts.buildTaskMap_get in G. destruct G as [Hin <-].
      now apply in_map.
    - intros Hin. apply in_map_iff in Hin. destruct Hin as (t & <- & Hin).
      now apply TaskUtilsFacts.buildTaskMap_has. }
  exists (collect mF order). split; [reflexivity|].
  split; [now rewrite Hids|]. split; [intros k; now rewrite Hids|]. split.
  - rewrite <- (length_map (@id C) (collect mF order)), Hids.
    rewrite <- (length_map (@id C) tasks).
    apply Nat.le_antisymm; apply NoDup_incl_length; auto;
      intros k Hk; now apply Hkeys.
  - intros t' Ht'. apply TaskUtilsFacts.collect_In in Ht'.
    destruct Ht' as (k & Hk & G).
    destruct (reschedule_dates_only deps m0 order m0) with (k := k) (t' := t')
      as (t & s & e & G0 & Et).
    + intros k0 t0 G0. exists t0, (start t0), (end_ t0).
      split; [exact G0|]. now rewrite setDates_own.
    + exact G.
    + exists t, s, e. split; [|exact Et].
      apply TaskUtilsFacts.buildTaskMap_get in G0. now destruct G0.
Qed.

End WithHost.

(** *** Closed examples *)

Lemma autoSchedule_without_dependencies_witness :
  autoScheduleTasks (H := isoUTC) scenarioTasks [] = Some scenarioTasks.
Proof.
  apply (autoSchedule_without_dependencies (H := isoUTC)).
  exact scenario_ids_distinct.
Defined.

(** The two tasks of the scenario, each depending on the other. *)
Lemma autoSchedule_returns_every_task_witness :
  exists out,
    autoScheduleTasks (H := isoUTC) scenarioTasks cyclicDependencies = Some out
    /\ length out = length scenarioTasks.
Proof.
  destruct (autoSchedule_returns_every_task (H := isoUTC) _ scenarioTasks
              cyclicDependencies scenario_ids_distinct)
    as (out & E & _ & _ & L & _).
  exists out. split; [exact E|exact L].
Defined.

End TaskUtilsRestFacts.

(** ** [StateManager]: the history bound and the other operations *)

Module HistoryFacts.
Import Types StateManager.
Import StateManagerFacts.
Import TaskEditingFacts.

Section Facts.
Context {D : DerivedCaches}.

(** Saving a snapshot leaves the stacks within the bound, whatever the
    redo stack held. *)
Lemma saveToHistory_bounded (m : StateManager) :
  historyBounded m -> historyBounded (_saveToHistory m).
Proof.
  unfold historyBounded, undoStackSize, redoStackSize, _saveToHistory.
  cbn [_history _future _maxHistorySize]. intros [H0 Hb].
  split; [exact H0|].
  assert (Hf : (0 <= lengthZ (_future m))%Z) by (unfold lengthZ; lia).
  change (lengthZ (@nil StateManagerState)) with 0%Z.
  destruct (_maxHistorySize m <? lengthZ (push (_history m) (jsonClone (_state m))))%Z
    eqn:E.
  - rewrite lengthZ_shift_push. lia.
  - apply Z.ltb_ge in E. lia.
Qed.

(** The steps that touch neither stack. *)
Lemma sameStacks_bounded (m m' : StateManager) :
  sameStacks m m' -> historyBounded m -> historyBounded m'.
Proof.
  unfold sameStacks, historyBounded, undoStackSize, redoStackSize.
  intros (-> & -> & ->). auto.
Qed.

Lemma sameStacks_trans (m1 m2 m3 : StateManager) :
  sameStacks m1 m2 -> sameStacks m2 m3 -> sameStacks m1 m3.
Proof. unfold sameStacks. intros (A & B & C) (A' & B' & C'). repeat split; congruence. Qed.

Lemma sameStacks_notify (m : StateManager) : sameStacks m (_notifySubscribers m).
Proof. repeat split. Qed.

Lemma sameStacks_cache (m : StateManager) : sameStacks m (_initializeCache m).
Proof. repeat split. Qed.

Lemma sameStacks_with_state (m : StateManager) s c :
  sameStacks m (with_state m s c).
Proof. repeat split. Qed.

Lemma sameStacks_handle (m : StateManager) a : sameStacks m (_handleAction m a).
Proof. repeat split. Qed.

Lemma sameStacks_handleAll (acts : list GanttAction) : forall m : StateManager,
  sameStacks m (fold_left _handleAction acts m).
Proof.
  induction acts as [|a r IH]; intros m; [repeat split|].
  cbn [fold_left]. eapply sameStacks_trans; [apply (sameStacks_handle m a)|apply IH].
Qed.

Lemma sameStacks_batch (m : StateManager) b q : sameStacks m (set_batch m b q).
Proof. repeat split. Qed.

Lemma dispatch_bounded (m : StateManager) (a : GanttAction) :
  historyBounded m -> historyBounded (dispatch m a).
Proof.
  intros Hb. unfold dispatch. destruct (_batchUpdate m).
  - exact (sameStacks_bounded _ _ (sameStacks_batch m _ _) Hb).
  - apply (sameStacks_bounded (_saveToHistory m)); [|now apply saveToHistory_bounded].
    eapply sameStacks_trans; [apply sameStacks_handle|].
    eapply sameStacks_trans; [apply sameStacks_cache|apply sameStacks_notify].
Qed.

Lemma commit_bounded (m : StateManager) :
  historyBounded m -> historyBounded (commitBatchUpdate m).
Proof.
  intros Hb. unfold commitBatchUpdate.
  destruct (negb (_batchUpdate m) || (length (_pendingActions m) =? 0)%nat).
  - exact (sameStacks_bounded _ _ (sameStacks_batch m _ _) Hb).
  - cbv zeta.
    apply (sameStacks_bounded (_saveToHistory m)); [|now apply saveToHistory_bounded].
    eapply sameStacks_trans; [apply sameStacks_handleAll|].
    eapply sameStacks_trans; [apply sameStacks_batch|].
    eapply sameStacks_trans; [apply sameStacks_cache|apply sameStacks_notify].
Qed.

Lemma lengthZ_pop (A : Type) (l : list A) :
  l <> [] -> lengthZ (pop l) = (lengthZ l - 1)%Z.
Proof.
  intros Hne. unfold lengthZ, pop.
  destruct (exists_last Hne) as (l' & x & ->).
  rewrite removelast_last, length_app. simpl. lia.
Qed.

Lemma lengthZ_push (A : Type) (l : list A) (x : A) :
  lengthZ (push l x) = (lengthZ l + 1)%Z.
Proof. unfold lengthZ, push. rewrite length_app. simpl. lia. Qed.

Lemma undo_bounded (m : StateManager) :
  historyBounded m -> historyBounded (snd (undo m)).
Proof.
  intros Hb. unfold undo. destruct (_history m) as [|h0 hr] eqn:Eh; [exact Hb|].
  cbn [snd]. unfold historyBounded, undoStackSize, redoStackSize in *.
  cbn [_notifySubscribers _initializeCache with_state set_stacks
       _history _future _maxHistorySize].
  rewrite lengthZ_pop by discriminate. rewrite lengthZ_push.
  rewrite Eh in Hb. lia.
Qed.

Lemma redo_bounded (m : StateManager) :
  historyBounded m -> historyBounded (snd (redo m)).
Proof.
  intros Hb. unfold redo. destruct (_future m) as [|f0 fr] eqn:Ef; [exact Hb|].
  cbn [snd]. unfold historyBounded, undoStackSize, redoStackSize in *.
  cbn [_notifySubscribers _initializeCache with_state set_stacks
       _history _future _maxHistorySize].
  rewrite lengthZ_pop by discriminate. rewrite lengthZ_push.
  rewrite Ef in Hb. lia.
Qed.

Lemma queueTasks_bounded (ts : list JTask) : forall m0 : StateManager,
  historyBounded m0 ->
  historyBounded (fold_left queueTask ts m0)
  /\ _maxHistorySize (fold_left queueTask ts m0) = _maxHistorySize m0.
Proof.
  induction ts as [|t r IH]; intros m0 H0; [auto|].
  cbn [fold_left].
  destruct (IH (queueTask m0 t)) as [I1 I2];
    [unfold queueTask; now apply dispatch_bounded|].
  split; [exact I1|]. rewrite I2. unfold queueTask, dispatch.
  destruct (_batchUpdate m0); reflexivity.
Qed.

Lemma commit_max (m : StateManager) :
  _maxHistorySize (commitBatchUpdate m) = _maxHistorySize m.
Proof.
  unfold commitBatchUpdate.
  destruct (negb (_batchUpdate m) || (length (_pendingActions m) =? 0)%nat);
    [reflexivity|]. cbv zeta. cbn.
  apply (sameStacks_handleAll (_pendingActions m) (_saveToHistory m)).
Qed.

Lemma batchUpdateTasks_bounded (m : StateManager) (ts : list JTask) :
  historyBounded m ->
  historyBounded (batchUpdateTasks m ts)
  /\ _maxHistorySize (batchUpdateTasks m ts) = _maxHistorySize m.
Proof.
  intros Hb. unfold batchUpdateTasks.
  destruct (queueTasks_bounded ts (beginBatchUpdate m)) as [I1 I2].
  - exact (sameStacks_bounded _ _ (sameStacks_batch m _ _) Hb).
  - split; [now apply commit_bounded|]. now rewrite commit_max, I2.
Qed.

Lemma perform_bounded (m : StateManager) (op : Operation) :
  historyBounded m ->
  historyBounded (perform m op)
  /\ _maxHistorySize (perform m op) = _maxHistorySize m.
Proof.
  intros Hb. split.
  - destruct op; cbn [perform].
    + now apply dispatch_bounded.
    + exact (sameStacks_bounded _ _ (sameStacks_batch m _ _) Hb).
    + now apply commit_bounded.
    + now apply batchUpdateTasks_bounded.
    + now apply undo_bounded.
    + now apply redo_bounded.
    + unfold updateScrollPosition.
      apply (sameStacks_bounded m); [|exact Hb].
      eapply sameStacks_trans; [apply sameStacks_with_state|apply sameStacks_notify].
    + unfold updateTasks. cbv zeta.
      apply (sameStacks_bounded (_saveToHistory m)); [|now apply saveToHistory_bounded].
      eapply sameStacks_trans; [apply sameStacks_with_state|].
      eapply sameStacks_trans; [apply sameStacks_cache|apply sameStacks_notify].
    + unfold updateDependencies. cbv zeta.
      apply (sameStacks_bounded (_saveToHistory m)); [|now apply saveToHistory_bounded].
      eapply sameStacks_trans; [apply sameStacks_with_state|].
      eapply sameStacks_trans; [apply sameStacks_cache|apply sameStacks_notify].
    + unfold updateConfig. cbv zeta.
      apply (sameStacks_bounded (_saveToHistory m)); [|now apply saveToHistory_bounded].
      eapply sameStacks_trans; [apply sameStacks_with_state|apply sameStacks_notify].
    + unfold updateViewSettings. cbv zeta.
      apply (sameStacks_bounded (_saveToHistory m)); [|now apply saveToHistory_bounded].
      eapply sameStacks_trans; [apply sameStacks_with_state|apply sameStacks_notify].
    + unfold toggleTaskCollapse.
      destruct (findIndex _ _) as [i|]; [|exact Hb].
      destruct (nth_error _ i); [|exact Hb]. cbv zeta.
      apply (sameStacks_bounded (_saveToHistory m)); [|now apply saveToHistory_bounded].
      eapply sameStacks_trans; [apply sameStacks_with_state|].
      eapply sameStacks_trans; [apply sameStacks_cache|apply sameStacks_notify].
    + exact Hb.
    + unfold clearHistory, historyBounded, undoStackSize, redoStackSize in *.
      cbn. lia.
  - destruct op; cbn [perform]; try reflexivity.
    + unfold dispatch. destruct (_batchUpdate m); reflexivity.
    + apply commit_max.
    + now apply batchUpdateTasks_bounded.
    + unfold undo. destruct (_history m); reflexivity.
    + unfold redo. destruct (_future m); reflexivity.
    + unfold toggleTaskCollapse.
      destruct (findIndex _ _) as [i|]; [|reflexivity].
      destruct (nth_error _ i); reflexivity.
Qed.

(** X23.  On a manager whose undo and redo stacks together hold no more
    entries than [maxHistorySize], every run of the public operations that
    change a manager ([setMaxHistorySize] apart: dispatches, batches,
    [batchUpdateTasks], undo, redo, the [update...] methods,
    [toggleTaskCollapse], [subscribe], [clearHistory]) leaves it so, and
    leaves the bound as it was. *)
Theorem history_stays_within_its_bound (m : StateManager)
        (ops : list Operation) :
  historyBounded m ->
  historyBounded (performAll m ops)
  /\ _maxHistorySize (performAll m ops) = _maxHistorySize m.
Proof.
  unfold performAll. revert m.
  induction ops as [|op r IH]; intros m Hb; [auto|].
  cbn [fold_left]. destruct (perform_bounded m op Hb) as [Hb' Hm].
  destruct (IH _ Hb') as [Hb'' Hm']. split; [exact Hb''|congruence].
Qed.

(** X24.  [setMaxHistorySize] with a size that is not positive
    changes nothing.  With a positive size it sets the bound and keeps the
    newest entries of the undo history, as many as the bound allows: the
    oldest ones are dropped, the state and the redo stack stay. *)
Theorem setMaxHistorySize_keeps_the_newest (m : StateManager) (size : Z) :
  ((size <= 0)%Z -> setMaxHistorySize m size = m)
  /\ ((0 < size)%Z ->
      _maxHistorySize (setMaxHistorySize m size) = size
      /\ undoStackSize (setMaxHistorySize m size)
         = Z.min (undoStackSize m) size
      /\ (exists dropped,
            _history m = dropped ++ _history (setMaxHistorySize m size))
      /\ _state (setMaxHistorySize m size) = _state m
      /\ _future (setMaxHistorySize m size) = _future m).
Proof.
  unfold setMaxHistorySize. split.
  - intros Hs. assert (E : (0 <? size)%Z = false) by (apply Z.ltb_ge; lia).
    now rewrite E.
  - intros Hs. assert (E : (0 <? size)%Z = true) by (apply Z.ltb_lt; lia).
    rewrite E. cbn [_maxHistorySize _history _state _future].
    split; [reflexivity|]. split.
    + unfold undoStackSize, lengthZ. cbn [_history]. rewrite length_skipn. lia.
    + split; [|auto].
      exists (firstn (length (_history m) - Z.to_nat size) (_history m)).
      now rewrite firstn_skipn.
Qed.







(** X26.  [updateScrollPosition] stores the position and notifies every
    subscriber, without touching the history or the tasks.  For a positive
    row height the window of rows it computes starts at 0 or later, ends
    within the task list and holds at most [visibleCount + 2 * bufferSize]
    rows; once the position is [bufferSize] rows down or more, the window
    starts exactly [bufferSize] rows above the row at the position. *)
Theorem updateScrollPosition_window (m : StateManager) (scrollTop : Z) :
  (0 < rowHeight (config (_state m)))%Z ->
  _history (updateScrollPosition m scrollTop) = _history m
  /\ _future (updateScrollPosition m scrollTop) = _future m
  /\ tasks (_state (updateScrollPosition m scrollTop)) = tasks (_state m)
  /\ scrollPosition (viewSettings (_state (updateScrollPosition m scrollTop)))
     = scrollTop
  /\ delivered (updateScrollPosition m scrollTop)
     = delivered m
       ++ map (fun k => (k, _state (updateScrollPosition m scrollTop)))
              (_subscribers m)
  /\ (0 <= startIndex (virtualScroll (_state (updateScrollPosition m scrollTop)))
      /\ endIndex (virtualScroll (_state (updateScrollPosition m scrollTop)))
         <= lengthZ (tasks (_state m))
      /\ endIndex (virtualScroll (_state (updateScrollPosition m scrollTop)))
         - startIndex (virtualScroll (_state (updateScrollPosition m scrollTop)))
         <= visibleCount (virtualScroll (_state m))
            + 2 * bufferSize (virtualScroll (_state m)))%Z
  /\ ((bufferSize (virtualScroll (_state m)) * rowHeight (config (_state m))
       <= scrollTop)%Z ->
      (rowHeight (config (_state m))
       * (startIndex (virtualScroll (_state (updateScrollPosition m scrollTop)))
          + bufferSize (virtualScroll (_state m)))
       <= scrollTop
       < rowHeight (config (_state m))
         * (startIndex (virtualScroll (_state (updateScrollPosition m scrollTop)))
            + bufferSize (virtualScroll (_state m)) + 1))%Z).
Proof.
  intros Hrh.
  unfold updateScrollPosition.
  cbn [_notifySubscribers with_state _history _future _state delivered
       _subscribers _calculateVirtualScrollMetrics tasks viewSettings
       set_scrollPosition set_view scrollPosition virtualScroll startIndex
       endIndex config].
  repeat split; try reflexivity; try lia.
  - assert (Hq : (bufferSize (virtualScroll (_state m))
                  <= scrollTop / rowHeight (config (_state m)))%Z)
      by (apply Z.div_le_lower_bound; lia).
    rewrite Z.max_r by lia.
    replace (scrollTop / rowHeight (config (_state m))
             - bufferSize (virtualScroll (_state m))
             + bufferSize (virtualScroll (_state m)))%Z
      with (scrollTop / rowHeight (config (_state m)))%Z by lia.
    now apply Z.mul_div_le.
  - assert (Hq : (bufferSize (virtualScroll (_state m))
                  <= scrollTop / rowHeight (config (_state m)))%Z)
      by (apply Z.div_le_lower_bound; lia).
    rewrite Z.max_r by lia.
    replace (scrollTop / rowHeight (config (_state m))
             - bufferSize (virtualScroll (_state m))
             + bufferSize (virtualScroll (_state m)) + 1)%Z
      with (Z.succ (scrollTop / rowHeight (config (_state m)))) by lia.
    now apply Z.mul_succ_div_gt.
Qed.

(** X27.  A selection without repetition stays so through every run of
    dispatches.  Deselecting an id removes it, selecting it makes it
    selected, and selecting then deselecting an id that was not selected
    gives the selection back. *)
Theorem selection_has_no_duplicates (m : StateManager)
        (acts : list GanttAction) :
  NoDup (selectedTaskIds (_state m)) ->
  NoDup (selectedTaskIds (_state (dispatchAll m acts)))
  /\ forall x,
       ~ In x (selectedTaskIds (handleAction (_state m) (DESELECT_TASK x)))
       /\ In x (selectedTaskIds (handleAction (_state m) (SELECT_TASK x)))
       /\ (~ In x (selectedTaskIds (_state m)) ->
           selectedTaskIds
             (handleAction (handleAction (_state m) (SELECT_TASK x))
                           (DESELECT_TASK x))
           = selectedTaskIds (_state m)).
Proof.
  intros Hnd. split.
  - unfold dispatchAll. revert m Hnd.
    induction acts as [|a r IH]; intros m Hnd; [exact Hnd|].
    cbn [fold_left]. apply IH. unfold dispatch.
    destruct (_batchUpdate m); [exact Hnd|].
    cbn [_notifySubscribers _initializeCache with_state _state
         _calculateVirtualScrollMetrics selectedTaskIds _handleAction
         _saveToHistory].
    destruct a; cbn [handleAction]; try exact Hnd.
    + destruct (findIndex _ _); [|exact Hnd]. destruct (nth_error _ _); exact Hnd.
    + destruct (findIndex _ _); [|exact Hnd]. destruct (nth_error _ _); exact Hnd.
    + destruct (existsb (TaskId_eqb taskId) (selectedTaskIds (_state m))) eqn:E;
        [exact Hnd|].
      cbn [set_selected selectedTaskIds]. unfold push.
      apply NoDup_app; [exact Hnd|repeat constructor; auto|].
      intros y Hy [<-|[]].
      apply (proj1 (TaskManagerFacts.setHas_false _ _) E). exact Hy.
    + cbn [set_selected selectedTaskIds]. now apply NoDup_filter.
  - intros x. cbn [handleAction]. split; [|split].
    + cbn [set_selected selectedTaskIds]. rewrite filter_In.
      intros [_ Hx]. now rewrite TaskManagerFacts.TaskId_eqb_refl in Hx.
    + destruct (existsb (TaskId_eqb x) (selectedTaskIds (_state m))) eqn:E.
      * now apply TaskManagerFacts.setHas_In.
      * cbn [set_selected selectedTaskIds]. unfold push.
        apply in_app_iff. right. now left.
    + intros Hx.
      assert (E : existsb (TaskId_eqb x) (selectedTaskIds (_state m)) = false)
        by now apply TaskManagerFacts.setHas_false.
      rewrite E. cbn [set_selected selectedTaskIds]. unfold push.
      rewrite filter_app. cbn [filter].
      rewrite TaskManagerFacts.TaskId_eqb_refl. cbn [negb]. rewrite app_nil_r.
      apply forallb_filter_id. apply forallb_forall. intros y Hy.
      destruct (TaskId_eqb y x) eqn:Ey; [|reflexivity].
      apply TaskManagerFacts.TaskId_eqb_eq in Ey. subst. contradiction.
Qed.





Lemma upsertAction_found (s : StateManagerState) (t : JTask) :
  (exists u, In u (tasks s) /\ id u = id t) ->
  upsertAction s t = UPDATE_TASK (id t) (asUpdates t).
Proof.
  intros (u & Hu & Hid). unfold upsertAction.
  destruct (findIndex (fun t' => TaskId_eqb (id t') (id t)) (tasks s)) eqn:E;
    [reflexivity|].
  pose proof (proj1 (findIndex_None _ _ _) E u Hu) as Hf. cbv beta in Hf.
  rewrite Hid, TaskManagerFacts.TaskId_eqb_refl in Hf. discriminate.
Qed.




End Facts.

(** *** Closed examples *)

Lemma freshManager_bounded : historyBounded freshManager.
Proof. split; vm_compute; discriminate. Qed.

Lemma history_stays_within_its_bound_witness :
  historyBounded
    (performAll freshManager
       [Dispatch (ADD_TASK (sampleTask 1 "2024-01-01" "2024-01-05"));
        BatchUpdateTasks [sampleTask 1 "2024-01-02" "2024-01-06";
                          sampleTask 2 "2024-01-03" "2024-01-08"];
        Undo; Redo; ToggleTaskCollapse (IdNum 2); ClearHistory]).
Proof.
  apply (history_stays_within_its_bound freshManager).
  exact freshManager_bounded.
Defined.

(** A history of ten entries cut down to three. *)
Lemma setMaxHistorySize_keeps_the_newest_witness :
  undoStackSize (setMaxHistorySize fullManager 3) = 3%Z
  /\ exists dropped,
       _history fullManager
       = dropped ++ _history (setMaxHistorySize fullManager 3).
Proof.
  destruct (proj2 (setMaxHistorySize_keeps_the_newest fullManager 3))
    as (_ & E & Hd & _); [lia|].
  split; [exact E|exact Hd].
Defined.


Lemma updateScrollPosition_window_witness :
  (0 < rowHeight (config (_state freshManager)))%Z
  /\ scrollPosition
       (viewSettings (_state (updateScrollPosition freshManager 400)))
     = 400%Z
  /\ _history (updateScrollPosition freshManager 400) = _history freshManager.
Proof.
  split; [reflexivity|].
  destruct (updateScrollPosition_window freshManager 400 eq_refl)
    as (E1 & _ & _ & E4 & _).
  split; [exact E4|exact E1].
Defined.

Lemma selection_has_no_duplicates_witness :
  NoDup (selectedTaskIds
           (_state (dispatchAll freshManager
                      [SELECT_TASK (IdNum 1); SELECT_TASK (IdNum 1);
                       SELECT_TASK (IdNum 2); DESELECT_TASK (IdNum 1)]))).
Proof.
  apply (selection_has_no_duplicates freshManager). constructor.
Defined.


End HistoryFacts.

(** ** [TaskManager]: the cycle check is correct *)

Module CycleCheckFacts.
Import Types TaskManager.
Import TaskManagerFacts.


Lemma walk_trans (E : TaskId -> TaskId -> Prop) (x y z : TaskId) :
  walk E x y -> walk E y z -> walk E x z.
Proof.
  induction 1 as [x y Hxy|x y w Hxy Hyw IH]; intros Hz.
  - eapply walk_step; eauto.
  - eapply walk_step; eauto.
Qed.

Lemma walk_ext (E E' : TaskId -> TaskId -> Prop) (x y : TaskId) :
  (forall a b, E a b -> E' a b) -> walk E x y -> walk E' x y.
Proof.
  intros Hsub. induction 1 as [x y Hxy|x y w Hxy Hyw IH].
  - apply walk_edge. auto.
  - eapply walk_step; eauto.
Qed.

Lemma setAdd_new (s : list TaskId) (x : TaskId) :
  ~ In x s -> setAdd s x = s ++ [x].
Proof.
  intros Hx. unfold setAdd. apply setHas_false in Hx. now rewrite Hx.
Qed.

Lemma setDelete_last (s : list TaskId) (x : TaskId) :
  ~ In x s -> setDelete (s ++ [x]) x = s.
Proof.
  intros Hx. unfold setDelete. rewrite filter_app. cbn [filter].
  rewrite TaskId_eqb_refl. cbn [negb]. rewrite app_nil_r.
  apply forallb_filter_id. apply forallb_forall. intros y Hy.
  destruct (TaskId_eqb y x) eqn:E; [|reflexivity].
  apply TaskId_eqb_eq in E. subst. contradiction.
Qed.

Lemma chain_snoc (E : TaskId -> TaskId -> Prop) (s : list TaskId) (x : TaskId) :
  chain E s -> (forall l a, s = l ++ [a] -> E a x) -> chain E (s ++ [x]).
Proof.
  intros Hc Hlast pre a b post Eq.
  destruct post as [|c post0 _] using rev_ind.
  - change (pre ++ [a; b]) with (pre ++ [a] ++ [b]) in Eq.
    rewrite app_assoc in Eq. apply app_inj_tail in Eq. destruct Eq as [Es Ex].
    subst x. eapply Hlast; eauto.
  - change (pre ++ a :: b :: post0 ++ [c])
      with (pre ++ (a :: b :: post0) ++ [c]) in Eq.
    rewrite app_assoc in Eq. apply app_inj_tail in Eq. destruct Eq as [Es _].
    eapply Hc; eauto.
Qed.

Lemma chain_to_last (E : TaskId -> TaskId -> Prop) :
  forall post a pre l z,
    chain E (pre ++ a :: post) -> pre ++ a :: post = l ++ [z] ->
    a = z \/ walk E a z.
Proof.
  induction post as [|b post IH]; intros a pre l z Hc Eq.
  - apply app_inj_tail in Eq. destruct Eq as [_ Ea]. now left.
  - right. assert (Hab : E a b) by (eapply Hc; reflexivity).
    destruct (IH b (pre ++ [a]) l z) as [->|Hw].
    + now rewrite <- app_assoc.
    + now rewrite <- app_assoc.
    + now apply walk_edge.
    + eapply walk_step; eauto.
Qed.

Lemma chain_cycle (E : TaskId -> TaskId -> Prop) (s : list TaskId) (x : TaskId) :
  chain E s -> In x s -> (forall l a, s = l ++ [a] -> E a x) -> walk E x x.
Proof.
  intros Hc Hin Hlast.
  apply in_split in Hin. destruct Hin as (pre & post & Es).
  assert (Hne : s <> []) by (subst s; destruct pre; discriminate).
  destruct (exists_last Hne) as (l & z & El).
  pose proof (Hlast l z El) as Hzx.
  destruct (chain_to_last E post x pre l z) as [->|Hw].
  - now rewrite <- Es.
  - now rewrite <- Es.
  - now apply walk_edge.
  - eapply walk_trans; [exact Hw|now apply walk_edge].
Qed.

Lemma someM_inv (A S : Type) (body : A -> S -> option (bool * S))
      (P : list A -> S -> Prop) (Q : S -> Prop) :
  forall (l done : list A) (st : S) (b : bool) (st' : S),
    P done st ->
    (forall x d s b s', In x l -> P d s -> body x s = Some (b, s') ->
                        if b then Q s' else P (d ++ [x]) s') ->
    someM body l st = Some (b, st') ->
    if b then Q st' else P (done ++ l) st'.
Proof.
  induction l as [|x r IH]; intros done st b st' HP Hstep E.
  - inversion E. subst. now rewrite app_nil_r.
  - cbn [someM] in E. destruct (body x st) as [[[|] s1]|] eqn:Eb; [| |discriminate].
    + inversion E. subst. exact (Hstep x done st true st' (or_introl eq_refl) HP Eb).
    + pose proof (Hstep x done st false s1 (or_introl eq_refl) HP Eb) as HP1.
      cbv iota in HP1.
      replace (done ++ x :: r) with ((done ++ [x]) ++ r)
        by (now rewrite <- app_assoc).
      apply (IH (done ++ [x]) s1 b st' HP1); [|exact E].
      intros y d s b' s' Hy. apply Hstep. now right.
Qed.

Lemma exploredRanked_ext (E : TaskId -> TaskId -> Prop) (v s v' s' : list TaskId) :
  (forall z, explored v s z <-> explored v' s' z) ->
  exploredRanked E v s -> exploredRanked E v' s'.
Proof.
  intros Heq (rank & N & Hr). exists rank, N. intros x Hx.
  apply Heq in Hx. destruct (Hr x Hx) as [H1 H2]. split; [exact H1|].
  intros y Hy. destruct (H2 y Hy) as [H3 H4]. split; [now apply Heq|exact H4].
Qed.

Section Search.
Variable g : Graph.

Lemma hasCycle_spec : forall fuel x v s b v' s',
  incl s v -> chain (graphEdge g) s -> (forall l a, s = l ++ [a] -> graphEdge g a x) ->
  exploredRanked (graphEdge g) v s ->
  hasCycle fuel g x (v, s) = Some (b, (v', s')) ->
  if b
  then exists w, (w = x \/ walk (graphEdge g) x w \/ In w s) /\ walk (graphEdge g) w w
  else s' = s /\ incl v v' /\ explored v' s x /\ exploredRanked (graphEdge g) v' s.
Proof.
  induction fuel as [|f IH]; intros x v s b v' s' Hsv Hc Hlast Hr Hrun;
    [discriminate|].
  cbn [hasCycle fst snd] in Hrun.
  destruct (setHas s x) eqn:Es.
  { inversion Hrun. subst. apply setHas_In in Es.
    exists x. split; [now left|]. now apply (chain_cycle (graphEdge g) s' x). }
  apply setHas_false in Es.
  destruct (setHas v x) eqn:Ev.
  { inversion Hrun. subst. apply setHas_In in Ev.
    split; [reflexivity|]. split; [apply incl_refl|]. split; [now split|exact Hr]. }
  apply setHas_false in Ev.
  rewrite (setAdd_new v x Ev), (setAdd_new s x Es) in Hrun.
  destruct (someM (hasCycle f g) (graphGet g x) (v ++ [x], s ++ [x]))
    as [[b1 [v1 s1]]|] eqn:Eloop; [|discriminate].
  pose proof (someM_inv _ _ (hasCycle f g)
                (fun done st =>
                   snd st = s ++ [x] /\ incl (v ++ [x]) (fst st)
                   /\ exploredRanked (graphEdge g) (fst st) (s ++ [x])
                   /\ forall y, In y done -> explored (fst st) (s ++ [x]) y)
                (fun _ => exists w, (walk (graphEdge g) x w \/ In w (s ++ [x])) /\ walk (graphEdge g) w w)
                (graphGet g x) [] (v ++ [x], s ++ [x]) b1 (v1, s1)) as Hloop.
  cbv beta in Hloop.
  assert (Hinit : snd (v ++ [x], s ++ [x]) = s ++ [x]
                  /\ incl (v ++ [x]) (fst (v ++ [x], s ++ [x]))
                  /\ exploredRanked (graphEdge g) (fst (v ++ [x], s ++ [x])) (s ++ [x])
                  /\ forall y, In y [] -> explored (fst (v ++ [x], s ++ [x])) (s ++ [x]) y).
  { cbn [fst snd]. split; [reflexivity|]. split; [apply incl_refl|].
    split; [|intros y []].
    apply (exploredRanked_ext (graphEdge g) v s); [|exact Hr].
    intros z. unfold explored. rewrite !in_app_iff. cbn [In].
    split.
    - intros [Hz Hn]. split; [now left|]. intros [Hs|[->|[]]]; contradiction.
    - intros [[Hz|[->|[]]] Hn]; [|exfalso; apply Hn; right; now left].
      split; [exact Hz|]. intros Hs. apply Hn. now left. }
  specialize (Hloop Hinit).
  assert (Hstep : forall y d st b' st',
             In y (graphGet g x) ->
             snd st = s ++ [x] /\ incl (v ++ [x]) (fst st)
             /\ exploredRanked (graphEdge g) (fst st) (s ++ [x])
             /\ (forall z, In z d -> explored (fst st) (s ++ [x]) z) ->
             hasCycle f g y st = Some (b', st') ->
             if b'
             then exists w, (walk (graphEdge g) x w \/ In w (s ++ [x])) /\ walk (graphEdge g) w w
             else snd st' = s ++ [x] /\ incl (v ++ [x]) (fst st')
                  /\ exploredRanked (graphEdge g) (fst st') (s ++ [x])
                  /\ forall z, In z (d ++ [y]) -> explored (fst st') (s ++ [x]) z).
  { intros y d [v2 s2] b' [v3 s3] Hy (Hs2 & Hv2 & Hr2 & Hd) Hcall.
    cbn [fst snd] in *. subst s2.
    pose proof (IH y v2 (s ++ [x]) b' v3 s3) as Hrec.
    assert (Hpre1 : incl (s ++ [x]) v2).
    { intros z Hz. apply Hv2. apply in_app_iff in Hz. apply in_app_iff.
      destruct Hz as [Hz|Hz]; [left; now apply Hsv|now right]. }
    assert (Hpre2 : chain (graphEdge g) (s ++ [x])) by now apply chain_snoc.
    assert (Hpre3 : forall l a, s ++ [x] = l ++ [a] -> graphEdge g a y).
    { intros l a Eq. apply app_inj_tail in Eq. destruct Eq as [_ <-]. exact Hy. }
    specialize (Hrec Hpre1 Hpre2 Hpre3 Hr2 Hcall).
    destruct b'.
    - destruct Hrec as (w & [Hw|[Hw|Hw]] & Hww); exists w.
      + subst w. split; [left; now apply walk_edge|exact Hww].
      + split; [left; eapply walk_step; eauto|exact Hww].
      + split; [now right|exact Hww].
    - destruct Hrec as (-> & Hinc & Hex & Hr3).
      split; [reflexivity|]. split; [eapply incl_tran; eauto|].
      split; [exact Hr3|].
      intros z Hz. apply in_app_iff in Hz. destruct Hz as [Hz|[<-|[]]]; [|exact Hex].
      destruct (Hd z Hz) as [Hz1 Hz2]. split; [now apply Hinc|exact Hz2]. }
  specialize (Hloop Hstep Eloop). clear Hstep Hinit.
  destruct b1.
  - inversion Hrun. subst.
    destruct Hloop as (w & [Hw|Hw] & Hww); exists w.
    + split; [right; now left|exact Hww].
    + split; [|exact Hww]. apply in_app_iff in Hw.
      destruct Hw as [Hw|[<-|[]]]; [right; now right|now left].
  - inversion Hrun. subst. cbn [fst snd app] in Hloop.
    destruct Hloop as (-> & Hinc & Hr1 & Hdone).
    rewrite (setDelete_last s x Es).
    split; [reflexivity|].
    split; [intros z Hz; apply Hinc; apply in_app_iff; now left|].
    assert (Hxv : In x v') by (apply Hinc; apply in_app_iff; right; now left).
    split; [now split|].
    destruct Hr1 as (rank & N & Hrank).
    exists (fun z => if TaskId_eqb z x then N else rank z), (S N).
    assert (Hold : forall z, explored v' (s ++ [x]) z ->
                             explored v' s z /\ TaskId_eqb z x = false).
    { intros z [Hz1 Hz2]. split.
      - split; [exact Hz1|]. intros Hs. apply Hz2. apply in_app_iff. now left.
      - destruct (TaskId_eqb z x) eqn:Ez; [|reflexivity].
        apply TaskId_eqb_eq in Ez. subst z. exfalso. apply Hz2.
        apply in_app_iff. right. now left. }
    intros z [Hz1 Hz2]. destruct (TaskId_eqb z x) eqn:Ez.
    + apply TaskId_eqb_eq in Ez. subst z. split; [lia|].
      intros y Hy. destruct (Hold y (Hdone y Hy)) as [Hy1 Hy2].
      split; [exact Hy1|]. rewrite Hy2.
      destruct (Hrank y (Hdone y Hy)) as [Hlt _]. exact Hlt.
    + assert (Hz : explored v' (s ++ [x]) z).
      { split; [exact Hz1|]. intros Hin. apply in_app_iff in Hin.
        destruct Hin as [Hin|[<-|[]]]; [contradiction|].
        now rewrite TaskId_eqb_refl in Ez. }
      destruct (Hrank z Hz) as [Hlt Hsucc]. split; [lia|].
      intros y Hy. destruct (Hsucc y Hy) as [Hy1 Hy2].
      destruct (Hold y Hy1) as [Hy3 Hy4]. split; [exact Hy3|].
      now rewrite Hy4.
Qed.

Lemma explored_walk (v : list TaskId) (rank : TaskId -> nat) (N : nat) :
  (forall x, explored v [] x ->
             (rank x < N)%nat
             /\ forall y, graphEdge g x y -> explored v [] y /\ (rank y < rank x)%nat) ->
  forall x y, walk (graphEdge g) x y -> explored v [] x ->
              explored v [] y /\ (rank y < rank x)%nat.
Proof.
  intros Hr x y Hw. induction Hw as [x y Hxy|x y z Hxy Hyz IH]; intros Hx.
  - destruct (Hr x Hx) as [_ Hs]. now apply Hs.
  - destruct (Hr x Hx) as [_ Hs]. destruct (Hs y Hxy) as [Hy Hlt].
    destruct (IH Hy) as [Hz Hlt']. split; [exact Hz|lia].
Qed.

Lemma checkFrom_spec (fuel : nat) (ids : list TaskId) (b : bool) :
  checkFrom fuel g ids ([], []) = Some b ->
  (b = true <->
   exists x y, In x ids /\ (y = x \/ walk (graphEdge g) x y) /\ walk (graphEdge g) y y).
Proof.
  unfold checkFrom.
  destruct (someM (hasCycle fuel g) ids ([], [])) as [[b1 [v1 s1]]|] eqn:Eloop;
    [|discriminate].
  cbn [option_map fst]. intros [= <-].
  pose proof (someM_inv _ _ (hasCycle fuel g)
                (fun done st =>
                   snd st = [] /\ exploredRanked (graphEdge g) (fst st) []
                   /\ forall y, In y done -> In y (fst st))
                (fun _ => exists x y, In x ids /\ (y = x \/ walk (graphEdge g) x y)
                                      /\ walk (graphEdge g) y y)
                ids [] ([], []) b1 (v1, s1)) as Hloop.
  cbv beta in Hloop.
  assert (Hinit : snd (@nil TaskId, @nil TaskId) = []
                  /\ exploredRanked (graphEdge g) (fst (@nil TaskId, @nil TaskId)) []
                  /\ forall y, In y [] -> In y (fst (@nil TaskId, @nil TaskId))).
  { split; [reflexivity|]. split; [|intros y []].
    exists (fun _ => O), O. intros x [[] _]. }
  specialize (Hloop Hinit).
  assert (Hstep : forall x d st b' st',
             In x ids ->
             snd st = [] /\ exploredRanked (graphEdge g) (fst st) []
             /\ (forall y, In y d -> In y (fst st)) ->
             hasCycle fuel g x st = Some (b', st') ->
             if b'
             then exists x y, In x ids /\ (y = x \/ walk (graphEdge g) x y) /\ walk (graphEdge g) y y
             else snd st' = [] /\ exploredRanked (graphEdge g) (fst st') []
                  /\ forall y, In y (d ++ [x]) -> In y (fst st')).
  { intros x d [v2 s2] b' [v3 s3] Hx (Hs2 & Hr2 & Hd) Hcall.
    cbn [fst snd] in *. subst s2.
    pose proof (hasCycle_spec fuel x v2 [] b' v3 s3) as Hrec.
    assert (Hpre1 : incl [] v2) by (intros z []).
    assert (Hpre2 : chain (graphEdge g) []).
    { intros pre a c post Eq. destruct pre; discriminate. }
    assert (Hpre3 : forall l a, @nil TaskId = l ++ [a] -> graphEdge g a x).
    { intros l a Eq. destruct l; discriminate. }
    specialize (Hrec Hpre1 Hpre2 Hpre3 Hr2 Hcall).
    destruct b'.
    - destruct Hrec as (w & [Hw|[Hw|[]]] & Hww); exists x, w; auto.
    - destruct Hrec as (-> & Hinc & [Hex _] & Hr3).
      split; [reflexivity|]. split; [exact Hr3|].
      intros z Hz. apply in_app_iff in Hz. destruct Hz as [Hz|[<-|[]]];
        [apply Hinc; now apply Hd|exact Hex]. }
  specialize (Hloop Hstep Eloop). clear Hstep Hinit.
  destruct b1.
  - split; [intros _; exact Hloop|reflexivity].
  - split; [discriminate|]. intros (x & y & Hx & Hxy & Hyy). exfalso.
    cbn [fst snd app] in Hloop. destruct Hloop as (-> & (rank & N & Hr) & Hall).
    assert (Hex : explored v1 [] x) by (split; [now apply Hall|intros []]).
    assert (Hey : explored v1 [] y).
    { destruct Hxy as [->|Hw]; [exact Hex|].
      now apply (explored_walk v1 rank N Hr x y Hw). }
    destruct (explored_walk v1 rank N Hr y y Hyy Hey) as [_ Hlt]. lia.
Qed.

End Search.

Lemma graphGet_graphAdd_iff (g : Graph) (a b k y : TaskId) :
  In y (graphGet (graphAdd g a b) k)
  <-> (k = a /\ y = b) \/ In y (graphGet g k).
Proof.
  induction g as [|[k' l] r IH]; cbn [graphAdd graphGet].
  - destruct (TaskId_eqb a k) eqn:Ek.
    + apply TaskId_eqb_eq in Ek. subst. cbn. intuition.
    + cbn. split; [intros []|]. intros [[-> _]|[]].
      now rewrite TaskId_eqb_refl in Ek.
  - destruct (TaskId_eqb k' a) eqn:Ea; cbn [graphGet].
    + apply TaskId_eqb_eq in Ea. subst k'.
      destruct (TaskId_eqb a k) eqn:Ek.
      * apply TaskId_eqb_eq in Ek. subst k. unfold push. rewrite in_app_iff.
        cbn. intuition.
      * split; [auto|]. intros [[-> _]|H]; [|exact H].
        now rewrite TaskId_eqb_refl in Ek.
    + destruct (TaskId_eqb k' k) eqn:Ek.
      * apply TaskId_eqb_eq in Ek. subst k'. split; [auto|].
        intros [[-> _]|H]; [|exact H]. now rewrite TaskId_eqb_refl in Ea.
      * exact IH.
Qed.

Lemma graphEdge_buildGraph (deps : list Dependency) (x y : TaskId) :
  graphEdge (buildGraph deps) x y <-> dependsOnEdge deps x y.
Proof.
  unfold graphEdge, buildGraph, dependsOnEdge.
  assert (G : forall g,
             In y (graphGet (fold_left (fun g dep => graphAdd g (fromId dep) (toId dep))
                                       deps g) x)
             <-> In y (graphGet g x)
                 \/ exists d, In d deps /\ fromId d = x /\ toId d = y).
  { induction deps as [|d r IH]; intros g; cbn [fold_left].
    - split; [auto|]. intros [H|(d & [] & _)]. exact H.
    - rewrite IH, graphGet_graphAdd_iff. split.
      + intros [[[-> ->]|H]|(d' & Hd' & E1 & E2)].
        * right. exists d. split; [now left|auto].
        * now left.
        * right. exists d'. split; [now right|auto].
      + intros [H|(d' & [<-|Hd'] & E1 & E2)].
        * left. now right.
        * left. left. auto.
        * right. exists d'. auto. }
  rewrite G. cbn [graphGet In]. split; [intros [[]|H]; exact H|auto].
Qed.

Lemma walk_buildGraph (deps : list Dependency) (x y : TaskId) :
  walk (graphEdge (buildGraph deps)) x y <-> walk (dependsOnEdge deps) x y.
Proof.
  split; apply walk_ext; intros a b; apply graphEdge_buildGraph.
Qed.

(** Whatever the search answers is the truth about the cycles that can
    be reached from [ids]. *)
Lemma checkGraph_spec (ids : list TaskId) (deps : list Dependency) (b : bool) :
  checkGraph ids deps = Some b -> (b = true <-> cycleReachable ids deps).
Proof.
  intros Eb. unfold checkGraph in Eb.
  rewrite (checkFrom_spec _ _ _ _ Eb). unfold cycleReachable. split.
  - intros (x & y & Hx & Hxy & Hyy). exists x, y. split; [exact Hx|].
    split; [|now apply walk_buildGraph].
    destruct Hxy as [->|Hw]; [now left|right; now apply walk_buildGraph].
  - intros (x & y & Hx & Hxy & Hyy). exists x, y. split; [exact Hx|].
    split; [|now apply walk_buildGraph].
    destruct Hxy as [->|Hw]; [now left|right; now apply walk_buildGraph].
Qed.

(** X29.  [checkCircularDependencies] always returns, and its answer is
    right: it is [true] exactly when some cycle of dependencies can be
    reached, along the dependencies, from the id of a task of the list (or
    passes through one), and [false] exactly when there is none. *)
Theorem checkCircularDependencies_correct (tm : TaskManager) :
  (checkCircularDependencies tm = Some true
   <-> cycleReachable (taskIds tm) (getDependencies tm))
  /\ (checkCircularDependencies tm = Some false
      <-> ~ cycleReachable (taskIds tm) (getDependencies tm)).
Proof.
  unfold checkCircularDependencies.
  destruct (checkGraph_total (taskIds tm) (getDependencies tm)) as [b Eb].
  rewrite Eb. pose proof (checkGraph_spec _ _ _ Eb) as Hc.
  split.
  - rewrite <- Hc. split; [now intros [= ->]|now intros ->].
  - rewrite <- Hc. split; [intros [= ->]; discriminate|].
    destruct b; [intros H; now elim H|reflexivity].
Qed.

Lemma walk_starts_at_edge (deps : list Dependency) (x y : TaskId) :
  walk (dependsOnEdge deps) x y -> exists d, In d deps /\ fromId d = x.
Proof.
  intros Hw. destruct Hw as [x y (d & Hd & E1 & _)|x y z (d & Hd & E1 & _) _];
    exists d; auto.
Qed.

Lemma acyclic_when_check_is_false (tm : TaskManager) :
  dependenciesAmongTasks tm ->
  checkCircularDependencies tm = Some false ->
  forall y, ~ walk (dependsOnEdge (getDependencies tm)) y y.
Proof.
  intros Hamong Hcheck y Hw.
  unfold checkCircularDependencies in Hcheck.
  apply checkGraph_spec in Hcheck.
  assert (Hcyc : cycleReachable (taskIds tm) (getDependencies tm));
    [|apply Hcheck in Hcyc; discriminate].
  exists y, y. split; [|split; [now left|exact Hw]].
  destruct (walk_starts_at_edge _ _ _ Hw) as (d & Hd & <-). now apply Hamong.
Qed.

Lemma createDependency_among (tm tm' : TaskManager) (from to : TaskId)
      (ty : DependencyType) (lag : Z) (res : option (nat * Dependency)) :
  dependenciesAmongTasks tm ->
  createDependency tm from to ty lag = Some (res, tm') ->
  dependenciesAmongTasks tm'.
Proof.
  intros Hamong E. rewrite createDependency_unfold in E.
  destruct (findTask tm from) as [ft|] eqn:Ff; [|inversion E; now subst].
  destruct (findTask tm to) as [tt|]; [|inversion E; now subst].
  destruct (find (sameDependency from to ty) (dependencies tm));
    [inversion E; now subst|].
  cbv zeta in E.
  set (d := (nextDep tm, mkDependency from to ty (Some lag))) in *.
  assert (Hfrom : In from (taskIds tm)) by (apply findTask_ids; congruence).
  assert (Hwith : dependenciesAmongTasks (withDependency tm d)).
  { destruct (withDependency_frame tm d) as (Ei & Ed & _).
    intros d' Hd'. rewrite Ei. unfold getDependencies in Hd'. rewrite Ed in Hd'.
    unfold push in Hd'. rewrite map_app in Hd'. apply in_app_iff in Hd'.
    destruct Hd' as [Hd'|[<-|[]]]; [now apply Hamong|exact Hfrom]. }
  assert (Hback : dependenciesAmongTasks (rolledBack (withDependency tm d))).
  { destruct (rolledBack_frame tm d) as (Ei & Ed & _).
    intros d' Hd'. rewrite Ei. unfold getDependencies in Hd'. rewrite Ed in Hd'.
    now apply Hamong. }
  destruct (checkCircularDependencies_opt (options tm)).
  - destruct (checkCircularDependencies (withDependency tm d)) as [[|]|];
      inversion E; now subst.
  - inversion E; now subst.
Qed.

(** X30.  On a manager built with the cycle check on and holding no
    dependency, every run of calls of [createDependency] returns and leaves
    the dependencies without any cycle: no task depends, directly or
    through others, on itself. *)
Theorem checked_manager_stays_acyclic (tm : TaskManager)
        (calls : list DependencyCall) :
  checkCircularDependencies_opt (options tm) = true ->
  dependencies tm = [] ->
  exists results tm',
    createDependencies tm calls = Some (results, tm')
    /\ forall y, ~ walk (dependsOnEdge (getDependencies tm')) y y.
Proof.
  intros Hopt Hnone.
  assert (G : forall calls tm,
             checkCircularDependencies_opt (options tm) = true ->
             checkCircularDependencies tm = Some false ->
             dependenciesAmongTasks tm ->
             exists results tm',
               createDependencies tm calls = Some (results, tm')
               /\ checkCircularDependencies tm' = Some false
               /\ dependenciesAmongTasks tm').
  { clear. induction calls as [|c r IH]; intros tm Hopt Hcheck Hamong.
    - exists [], tm. auto.
    - cbn [createDependencies]. unfold callCreateDependency.
      destruct (createDependency_step tm (c_from c) (c_to c)
                  (orElse (c_type c) finish_to_start) (orElse (c_lag c) 0%Z)
                  Hopt Hcheck) as (res & tm1 & E1 & Hopt1 & Hcheck1 & _).
      rewrite E1.
      pose proof (createDependency_among _ _ _ _ _ _ _ Hamong E1) as Hamong1.
      destruct (IH tm1 Hopt1 Hcheck1 Hamong1) as (rs & tm2 & E2 & Hc2 & Ha2).
      rewrite E2. exists (res :: rs), tm2. auto. }
  destruct (G calls tm Hopt) as (results & tm' & E & Hcheck & Hamong).
  - unfold checkCircularDependencies, getDependencies. rewrite Hnone.
    apply checkGraph_no_dependencies.
  - intros d Hd. unfold getDependencies in Hd. rewrite Hnone in Hd. destruct Hd.
  - exists results, tm'. split; [exact E|].
    now apply acyclic_when_check_is_false.
Qed.

(** *** Closed examples *)

(** The second of the two calls, which would close a cycle, is undone. *)
Lemma checked_manager_stays_acyclic_witness :
  exists results tm',
    createDependencies twoTasks cycleCalls = Some (results, tm')
    /\ forall y, ~ walk (dependsOnEdge (getDependencies tm')) y y.
Proof.
  apply (checked_manager_stays_acyclic twoTasks cycleCalls); reflexivity.
Defined.

End CycleCheckFacts.
